(** * ZingSignals: indicator engine, decision ledger and metrics monitor

    A shallow embedding of [engine.js], [evaluation.js], the performance
    analysis helpers and the [SystemState] monitor.

    JavaScript numbers are IEEE 754 binary64 values, so they are embedded as
    Rocq's primitive [float]: every arithmetic operator and comparison below
    is the one the JavaScript source applies, with the same rounding, the same
    infinities and the same NaN.  Arrays are lists, objects are records, and
    the module-level variables ([decisionHistory], [decisionWindow]), the
    console and the host's clock live in one explicit [World] threaded through
    a small state monad. *)

From Stdlib Require Import Floats ZArith Bool String Lia Arith List.
Import ListNotations.

Set Warnings "-inexact-float".

(* ================================================================== *)
(** ** JavaScript numbers and arrays *)
(* ================================================================== *)

Module JS.

Definition number := float.

(** Array lengths and counters are small non-negative integers; they enter
    float arithmetic through this (exact below 2^53) conversion. *)
Definition of_nat (n : nat) : number := of_uint63 (Uint63.of_Z (Z.of_nat n)).

(** [a > b], [a < b], [a >= b], [a <= b], [a === b] on numbers. *)
Definition gt (a b : number) : bool := (b <? a)%float.
Definition lt (a b : number) : bool := (a <? b)%float.
Definition ge (a b : number) : bool := (b <=? a)%float.
Definition le (a b : number) : bool := (a <=? b)%float.
Definition strict_eq (a b : number) : bool := (a =? b)%float.

(** ToBoolean on a number: [0], [-0] and [NaN] are falsy. *)
Definition truthy (x : number) : bool := negb (is_zero x || is_nan x).

(** ToBoolean on a string: only the empty string is falsy. *)
Definition truthy_string (s : string) : bool := negb (String.eqb s EmptyString).

(** [Number.isFinite] on a number. *)
Definition Number_isFinite (x : number) : bool := is_finite x.

(** [Math.max(...l)] and [Math.min(...l)]: NaN is contagious, the empty
    spread yields -Infinity / +Infinity, and +0 is above -0. *)
Definition max2 (highest x : number) : number :=
  if is_nan highest || is_nan x then nan
  else if (highest <? x)%float then x
  else if (x <? highest)%float then highest
  else if get_sign highest then x else highest.

Definition min2 (lowest x : number) : number :=
  if is_nan lowest || is_nan x then nan
  else if (x <? lowest)%float then x
  else if (lowest <? x)%float then lowest
  else if get_sign x then x else lowest.

Definition Math_max (l : list number) : number := fold_left max2 l neg_infinity.
Definition Math_min (l : list number) : number := fold_left min2 l infinity.

(** [arr[i]]: reading past the end yields [undefined], which every use
    below coerces to NaN (arithmetic operand, comparison operand). *)
Definition get (arr : list number) (i : nat) : number := nth i arr nan.

(** [arr.slice(-n)], [arr.slice(0, n)], [arr.slice(a, b)].  In JavaScript
    [-0] is [0], so [arr.slice(-0)] is the whole array. *)
Definition slice_last {A} (n : nat) (arr : list A) : list A :=
  match n with
  | O => arr
  | _ => skipn (length arr - n) arr
  end.
Definition slice_to {A} (n : nat) (arr : list A) : list A := firstn n arr.
Definition slice {A} (a b : nat) (arr : list A) : list A :=
  firstn (b - a) (skipn a arr).

(** [arr.reduce((a, b) => a + b, 0)]. *)
Definition sum (arr : list number) : number :=
  fold_left (fun a b => (a + b)%float) arr 0%float.

(** [arr.map((x, i) => f x i)]. *)
Definition mapi {A B} (f : A -> nat -> B) (arr : list A) : list B :=
  map (fun p => f (snd p) (fst p)) (combine (seq 0 (length arr)) arr).

(** [for (let i = a; i < b; i++)]: the indices visited. *)
Definition range (a b : nat) : list nat := seq a (b - a).

End JS.

(* ================================================================== *)
(** ** engine.js *)
(* ================================================================== *)

Module Engine.
Import JS.
Local Open Scope float_scope.

(** *** ANALYSIS_CONFIG *)

Record IndicatorWeights := {
  w_rsi : number; w_macd : number; w_stochRsi : number; w_mfi : number;
  w_trend : number; w_occ : number; w_stcCci : number }.

Definition INDICATOR_WEIGHTS : IndicatorWeights :=
  {| w_rsi := 1.0; w_macd := 1.0; w_stochRsi := 0.8; w_mfi := 0.8;
     w_trend := 1.2; w_occ := 1.0; w_stcCci := 1.0 |}.

Record Config := {
  tradingMode : string;
  backtestThreshold : option number;
  divergenceDetection : bool;
  trendFilter : bool }.

(** *** Indicators *)

Definition calculateRSI (prices : list number) (period : nat) : number :=
  if (length prices <? period + 1)%nat then 50
  else
    let p := of_nat period in
    let '(gains, losses) :=
      fold_left
        (fun (acc : number * number) i =>
           let '(gains, losses) := acc in
           let change := get prices i - get prices (i - 1) in
           if gt change 0 then (gains + change, losses)
           else (gains, losses - change))
        (range 1 (period + 1)) (0, 0) in
    let avgGain := gains / p in
    let avgLoss := losses / p in
    let '(avgGain, avgLoss) :=
      fold_left
        (fun (acc : number * number) i =>
           let '(avgGain, avgLoss) := acc in
           let change := get prices i - get prices (i - 1) in
           if gt change 0
           then ((avgGain * (p - 1) + change) / p, (avgLoss * (p - 1)) / p)
           else ((avgGain * (p - 1)) / p, (avgLoss * (p - 1) - change) / p))
        (range (period + 1) (length prices)) (avgGain, avgLoss) in
    if strict_eq avgLoss 0 then 100
    else
      let rs := avgGain / avgLoss in
      100 - (100 / (1 + rs)).

Definition calculateEMA (prices : list number) (period : nat) : number :=
  if (length prices <? period)%nat then get prices (length prices - 1)
  else
    let multiplier := 2 / (of_nat period + 1) in
    let ema := sum (slice_to period prices) / of_nat period in
    fold_left
      (fun ema i => (get prices i - ema) * multiplier + ema)
      (range period (length prices)) ema.

Definition calculateCCI (highs lows closes : list number) (period : nat)
  : number :=
  if (length closes <? period)%nat then 0
  else
    let typicalPrices :=
      mapi (fun close i => (get highs i + get lows i + close) / 3) closes in
    let sma := sum (slice_last period typicalPrices) / of_nat period in
    let meanDev :=
      fold_left (fun sum tp => sum + abs (tp - sma))
                (slice_last period typicalPrices) 0 / of_nat period in
    if strict_eq meanDev 0 then 0
    else
      let currentTP := get typicalPrices (length typicalPrices - 1) in
      (currentTP - sma) / (0.015 * meanDev).

Definition calculateSchaffTrendCycle (closes : list number)
           (fastPeriod slowPeriod cyclePeriod : nat) : number :=
  if (length closes <? slowPeriod + cyclePeriod)%nat then 50
  else
    let fastEMA := calculateEMA closes fastPeriod in
    let slowEMA := calculateEMA closes slowPeriod in
    let macd := fastEMA - slowEMA in
    let macdArray :=
      map (fun i =>
             let sliceData := slice_to (i + 1) closes in
             let fEMA := calculateEMA sliceData fastPeriod in
             let sEMA := calculateEMA sliceData slowPeriod in
             fEMA - sEMA)
          (range (length closes - cyclePeriod * 2) (length closes)) in
    let recentMACD := slice_last cyclePeriod macdArray in
    let maxMACD := Math_max recentMACD in
    let minMACD := Math_min recentMACD in
    let range := maxMACD - minMACD in
    if strict_eq range 0 then 50
    else ((macd - minMACD) / range) * 100.

(** The record [calculateSTCCCI] returns; the short-history record carries
    no [stc], [cci] or [priceChange] property. *)
Record StcCci := {
  stc_value : number;
  stc_signal : string;
  stc_strength : number;
  stc_stc : option number;
  stc_cci : option number;
  stc_priceChange : option number }.

Definition calculateSTCCCI (highs lows closes : list number) (period : nat)
  : StcCci :=
  if (length closes <? 50)%nat then
    {| stc_value := 0; stc_signal := "NEUTRAL"; stc_strength := 0;
       stc_stc := None; stc_cci := None; stc_priceChange := None |}
  else
    let stc := calculateSchaffTrendCycle closes 23 50 10 in
    let cci := calculateCCI highs lows closes period in
    let recentCloses := slice_last 5 closes in
    let priceChange :=
      ((get recentCloses (length recentCloses - 1) - get recentCloses 0)
       / get recentCloses 0) * 100 in
    let stcBullish := gt stc 50 in
    let cciBullish := gt cci 0 in
    let priceMovingUp := gt priceChange 0 in
    let bullishSignals :=
      ((if stcBullish then 1 else 0) + (if cciBullish then 1 else 0)
       + (if priceMovingUp then 1 else 0))%nat in
    let '(signal, score) :=
      if (2 <=? bullishSignals)%nat then ("BUY"%string, 30)
      else if (bullishSignals <=? 1)%nat then ("SELL"%string, -30)
      else ("NEUTRAL"%string, 0) in
    {| stc_value := score; stc_signal := signal; stc_strength := abs score;
       stc_stc := Some stc; stc_cci := Some cci;
       stc_priceChange := Some priceChange |}.


(** *** Scoring *)

Record Occ := {
  occ_value : number;
  occ_signal : string;
  occ_strength : number;
  occ_crossover : bool;
  occ_openMA : option number;
  occ_closeMA : option number }.

(** The object [calculateTechnicalIndicators] returns. *)
Record Indicators := {
  ind_rsi : number;
  ind_macd : number;
  ind_macd_atr : number;
  ind_stochRsi : number;
  ind_mfi : number;
  ind_trend : string;
  ind_divergence : option string;
  ind_occ : option Occ;
  ind_stcCci : option StcCci;
  ind_ema20 : number;
  ind_ema50 : number;
  ind_ema200 : number;
  ind_atr : number;
  ind_currentPrice : number;
  ind_volume : number;
  ind_avgVolume : number }.

Record Score := { score : number; weight : number }.
Record DivergenceScore := { div_value : option string; div_weight : number }.

(** The object [calculateIndicatorScores] returns, in property order. *)
Record IndicatorScores := {
  rsi : Score;
  macd : Score;
  stochRsi : Score;
  mfi : Score;
  trend : Score;
  occ : Score;
  stcCci : Score;
  divergence : DivergenceScore }.

Definition calculateRSIScore (rsi : number) : number :=
  if lt rsi 20 then 40
  else if lt rsi 30 then 30
  else if lt rsi 40 then 15
  else if gt rsi 80 then -40
  else if gt rsi 70 then -30
  else if gt rsi 60 then -15
  else 0.

(** [Number.isFinite(o?.value)]: an absent record yields [undefined]. *)
Definition finite_or (v : option number) (dflt : number) : number :=
  match v with
  | Some x => if Number_isFinite x then x else dflt
  | None => dflt
  end.

Definition calculateIndicatorScores (indicators : Indicators) (config : Config)
  : IndicatorScores :=
  let atrValue :=
    if Number_isFinite (ind_atr indicators) && gt (ind_atr indicators) 0
    then ind_atr indicators else 0.0001 in
  let rsiValue := finite_or (Some (ind_rsi indicators)) 50 in
  let macdValue := finite_or (Some (ind_macd indicators)) 0 in
  let stochValue := finite_or (Some (ind_stochRsi indicators)) 50 in
  let mfiValue := finite_or (Some (ind_mfi indicators)) 50 in
  let occValue := finite_or (option_map occ_value (ind_occ indicators)) 0 in
  let stcCciValue :=
    finite_or (option_map stc_value (ind_stcCci indicators)) 0 in
  {| rsi := {| score := calculateRSIScore rsiValue;
               weight := w_rsi INDICATOR_WEIGHTS |};
     macd := {| score := (macdValue / atrValue) * 50;
                weight := w_macd INDICATOR_WEIGHTS |};
     stochRsi := {| score := (stochValue - 50) * 2;
                    weight := w_stochRsi INDICATOR_WEIGHTS |};
     mfi := {| score := (mfiValue - 50) * 2;
               weight := w_mfi INDICATOR_WEIGHTS |};
     trend := {| score :=
                   if String.eqb (ind_trend indicators) "uptrend" then 30
                   else if String.eqb (ind_trend indicators) "downtrend"
                        then -30 else 0;
                 weight := w_trend INDICATOR_WEIGHTS |};
     occ := {| score := occValue; weight := w_occ INDICATOR_WEIGHTS |};
     stcCci := {| score := stcCciValue;
                  weight := w_stcCci INDICATOR_WEIGHTS |};
     divergence := {| div_value := ind_divergence indicators;
                      div_weight := 0 |} |}.

Definition adjustScoreByMode (score : number) (mode : string) : number :=
  if String.eqb mode "aggressive" then score * 0.8
  else if String.eqb mode "conservative" then score * 1.5
  else score.

(** [Object.values(indicatorScores)] followed by reading [.score] of each
    value: the divergence record has no such property ([undefined]). *)
Definition score_properties (s : IndicatorScores) : list (option number) :=
  [ Some (score (rsi s)); Some (score (macd s)); Some (score (stochRsi s));
    Some (score (mfi s)); Some (score (trend s)); Some (score (occ s));
    Some (score (stcCci s)); None ].

Definition is_divergence (s : IndicatorScores) (kind : string) : bool :=
  match div_value (divergence s) with
  | Some v => String.eqb v kind
  | None => false
  end.

Definition calculateTotalScore (indicatorScores : IndicatorScores)
           (config : Config) : number :=
  let totalScore :=
    fold_left
      (fun totalScore indicator_score =>
         match indicator_score with
         | Some x => if Number_isFinite x then totalScore + x else totalScore
         | None => totalScore
         end)
      (score_properties indicatorScores) 0 in
  let totalScore :=
    if negb (Number_isFinite totalScore) then 0 else totalScore in
  let totalScore := adjustScoreByMode totalScore (tradingMode config) in
  let totalScore :=
    if divergenceDetection config && is_divergence indicatorScores "bullish"
    then totalScore + 20 else totalScore in
  let totalScore :=
    if divergenceDetection config && is_divergence indicatorScores "bearish"
    then totalScore - 20 else totalScore in
  totalScore.

(** *** The other indicators *)

(** [arr[i] = x]: a write past the end extends the array, the cells in
    between being holes ([hole] stands for what reading one yields). *)
Fixpoint array_set {A} (hole : A) (i : nat) (x : A) (arr : list A) : list A :=
  match i, arr with
  | O, [] => [x]
  | O, _ :: rest => x :: rest
  | S i', [] => hole :: array_set hole i' x []
  | S i', y :: rest => y :: array_set hole i' x rest
  end.

(** The series variant of the EMA: [None] is [null].  A hole would read as
    [undefined], which is not [null] and is NaN in arithmetic.  With
    [period = 0] the seed is written to the property [-1], which is no
    element of the array. *)
Definition calculateEMAArray (prices : list number) (period : nat)
  : list (option number) :=
  if (length prices <? period)%nat then map (fun _ => None) prices
  else
    let multiplier := 2 / (of_nat period + 1) in
    let emaArray := repeat (@None number) (length prices) in
    let ema := sum (slice_to period prices) / of_nat period in
    let emaArray :=
      match period with
      | O => emaArray
      | S k => array_set (Some nan) k (Some ema) emaArray
      end in
    snd (fold_left
           (fun (acc : number * list (option number)) i =>
              let ema := (get prices i - fst acc) * multiplier + fst acc in
              (ema, array_set (Some nan) i (Some ema) (snd acc)))
           (range period (length prices)) (ema, emaArray)).

(** [arr.filter(v => v !== null)]. *)
Fixpoint non_null (arr : list (option number)) : list number :=
  match arr with
  | [] => []
  | Some v :: rest => v :: non_null rest
  | None :: rest => non_null rest
  end.

Definition calculateMACD (prices : list number) : number :=
  if (length prices <? 26)%nat then 0
  else
    let ema12Series := calculateEMAArray prices 12 in
    let ema26Series := calculateEMAArray prices 26 in
    let macdSeries :=
      mapi (fun _ i =>
              match nth i ema12Series (Some nan),
                    nth i ema26Series (Some nan) with
              | Some a, Some b => Some (a - b)
              | _, _ => None
              end) prices in
    let macdValues := non_null macdSeries in
    if (length macdValues <? 9)%nat then 0
    else
      let signal := calculateEMA macdValues 9 in
      let lastMacd := get macdValues (length macdValues - 1) in
      lastMacd - signal.

Definition calculateStochasticRSI (prices : list number) (period : nat)
  : number :=
  let rsiValues :=
    map (fun i => calculateRSI (slice_to (i + 1) prices) period)
        (range period (length prices)) in
  if (length rsiValues <? 14)%nat then 50
  else
    let stochPeriod := 14%nat in
    let kPeriod := 3%nat in
    let stochValues :=
      map (fun i =>
             let slice := slice (i + 1 - stochPeriod) (i + 1) rsiValues in
             let highest := Math_max slice in
             let lowest := Math_min slice in
             let range := highest - lowest in
             if strict_eq range 0 then 50
             else ((get rsiValues i - lowest) / range) * 100)
          (range (stochPeriod - 1) (length rsiValues)) in
    let kSum := sum (slice_last kPeriod stochValues) in
    kSum / of_nat kPeriod.

Definition calculateMFI (highs lows closes volumes : list number)
           (period : nat) : number :=
  if (length closes <? period)%nat then 50
  else
    let typicalPrices :=
      mapi (fun close i => (get highs i + get lows i + close) / 3) closes in
    let rawMoneyFlow :=
      mapi (fun tp i => tp * get volumes i) typicalPrices in
    let '(positiveFlow, negativeFlow) :=
      fold_left
        (fun (acc : number * number) i =>
           let '(positiveFlow, negativeFlow) := acc in
           if gt (get typicalPrices i) (get typicalPrices (i - 1))
           then (positiveFlow + get rawMoneyFlow i, negativeFlow)
           else if lt (get typicalPrices i) (get typicalPrices (i - 1))
                then (positiveFlow, negativeFlow + get rawMoneyFlow i)
                else (positiveFlow, negativeFlow))
        (range 1 (Nat.min (period + 1) (length typicalPrices))) (0, 0) in
    if strict_eq negativeFlow 0 then 100
    else
      let moneyFlowRatio := positiveFlow / negativeFlow in
      100 - (100 / (1 + moneyFlowRatio)).

Definition calculateATR (highs lows closes : list number) (period : nat)
  : number :=
  if (length closes <? period + 1)%nat then 0.0001
  else
    let trueRanges :=
      map (fun i =>
             Math_max [ get highs i - get lows i;
                        abs (get highs i - get closes (i - 1));
                        abs (get lows i - get closes (i - 1)) ])
          (range 1 (length closes)) in
    let atr := sum (slice_to period trueRanges) / of_nat period in
    fold_left
      (fun atr i => (atr * (of_nat period - 1) + get trueRanges i)
                    / of_nat period)
      (range period (length trueRanges)) atr.

(** [None] is [null]. *)
Definition calculateSMMA (prices : list number) (period : nat)
  : option number :=
  if (length prices <? period)%nat then None
  else
    let smma := sum (slice_to period prices) / of_nat period in
    Some (fold_left
            (fun smma i => (smma * (of_nat period - 1) + get prices i)
                           / of_nat period)
            (range period (length prices)) smma).

Definition calculateSMMAArray (prices : list number) (period : nat)
  : list number :=
  if (length prices <? period)%nat then []
  else
    let smma := sum (slice_to period prices) / of_nat period in
    snd (fold_left
           (fun (acc : number * list number) i =>
              let smma := (fst acc * (of_nat period - 1) + get prices i)
                          / of_nat period in
              (smma, snd acc ++ [smma]))
           (range period (length prices)) (smma, [smma])).

Definition occ_neutral : Occ :=
  {| occ_value := 0; occ_signal := "NEUTRAL"; occ_strength := 0;
     occ_crossover := false; occ_openMA := None; occ_closeMA := None |}.

Definition calculateOCC (opens closes : list number) (period : nat) : Occ :=
  if ((length opens <? period + 2) || (length closes <? period + 2))%nat
  then occ_neutral
  else
    let openSMMAArray := calculateSMMAArray opens period in
    let closeSMMAArray := calculateSMMAArray closes period in
    if ((length openSMMAArray <? 2) || (length closeSMMAArray <? 2))%nat
    then occ_neutral
    else
      let currentOpenMA := get openSMMAArray (length openSMMAArray - 1) in
      let currentCloseMA := get closeSMMAArray (length closeSMMAArray - 1) in
      let prevOpenMA := get openSMMAArray (length openSMMAArray - 2) in
      let prevCloseMA := get closeSMMAArray (length closeSMMAArray - 2) in
      let '(signal, crossover, score) :=
        if le prevCloseMA prevOpenMA && gt currentCloseMA currentOpenMA
        then ("BUY"%string, true, 50)
        else if ge prevCloseMA prevOpenMA && lt currentCloseMA currentOpenMA
             then ("SELL"%string, true, -50)
             else ("NEUTRAL"%string, false, 0) in
      {| occ_value := score; occ_signal := signal;
         occ_strength := abs score; occ_crossover := crossover;
         occ_openMA := Some currentOpenMA;
         occ_closeMA := Some currentCloseMA |}.

(** [None] is [null]. *)
Definition detectDivergence (prices : list number) (rsi : number)
  : option string :=
  let recentPrices := slice_last 20 prices in
  let priceMax := Math_max recentPrices in
  let priceMin := Math_min recentPrices in
  if le (get recentPrices (length recentPrices - 1)) priceMin && gt rsi 35
  then Some "bullish"%string
  else if ge (get recentPrices (length recentPrices - 1)) priceMax
          && lt rsi 65
       then Some "bearish"%string
       else None.

(** The object [prepareMarketData] returns, without [lastClosedCandle]
    (a raw row that nothing reads). *)
Record MarketInfo := {
  mi_closes : list number;
  mi_opens : list number;
  mi_highs : list number;
  mi_lows : list number;
  mi_volumes : list number;
  mi_timestamps : list number;
  mi_currentPrice : number }.

Definition calculateTechnicalIndicators (marketInfo : MarketInfo)
  : Indicators :=
  let closes := mi_closes marketInfo in
  let highs := mi_highs marketInfo in
  let lows := mi_lows marketInfo in
  let volumes := mi_volumes marketInfo in
  let rsi := calculateRSI closes 14 in
  let macdHistogram := calculateMACD closes in
  let stochRsi := calculateStochasticRSI closes 14 in
  let mfi := calculateMFI highs lows closes volumes 14 in
  let ema20 := calculateEMA closes 20 in
  let ema50 := calculateEMA closes 50 in
  let ema200 := calculateEMA closes 200 in
  let atr := calculateATR highs lows closes 14 in
  let analysisPrice := get closes (length closes - 1) in
  let trend :=
    if (200 <=? length closes)%nat then
      if gt analysisPrice ema20 && gt ema20 ema50 && gt ema50 ema200
      then "uptrend"%string
      else if lt analysisPrice ema20 && lt ema20 ema50 && lt ema50 ema200
           then "downtrend"%string
           else "sideways"%string
    else if (20 <=? length closes)%nat then
      if gt analysisPrice ema20 then "uptrend"%string
      else if lt analysisPrice ema20 then "downtrend"%string
           else "sideways"%string
    else "sideways"%string in
  let divergence := detectDivergence closes rsi in
  let occ := calculateOCC (mi_opens marketInfo) closes 8 in
  let stcCci := calculateSTCCCI highs lows closes 20 in
  {| ind_rsi := rsi;
     ind_macd := macdHistogram;
     ind_macd_atr := atr;
     ind_stochRsi := stochRsi;
     ind_mfi := mfi;
     ind_trend := trend;
     ind_divergence := divergence;
     ind_occ := Some occ;
     ind_stcCci := Some stcCci;
     ind_ema20 := ema20; ind_ema50 := ema50; ind_ema200 := ema200;
     ind_atr := atr;
     ind_currentPrice := mi_currentPrice marketInfo;
     ind_volume := get volumes (length volumes - 1);
     ind_avgVolume :=
       sum (removelast volumes) / (of_nat (length volumes) - 1) |}.

(** *** Direction and confidence *)

(** [ANALYSIS_CONFIG.THRESHOLDS[mode]]: an own number, a member inherited
    from [Object.prototype] (truthy, NaN as a number), or [undefined]. *)
Inductive ThresholdProperty :=
| threshold_number (n : number)
| threshold_inherited
| threshold_undefined.

Definition inherited_names : list string :=
  [ "constructor"; "hasOwnProperty"; "isPrototypeOf"; "propertyIsEnumerable";
    "toLocaleString"; "toString"; "valueOf"; "__proto__";
    "__defineGetter__"; "__defineSetter__"; "__lookupGetter__";
    "__lookupSetter__" ]%string.

Definition THRESHOLDS (mode : string) : ThresholdProperty :=
  if String.eqb mode "aggressive" then threshold_number 10
  else if String.eqb mode "balanced" then threshold_number 25
  else if String.eqb mode "conservative" then threshold_number 40
  else if existsb (String.eqb mode) inherited_names then threshold_inherited
  else threshold_undefined.

Record Direction := { dir_direction : string; dir_confidence : number }.

(** The threshold enters only comparisons and arithmetic, where an inherited
    member is NaN. *)
Definition determineDirection (totalScore : number) (config : Config)
           (indicators : Indicators) : Direction :=
  let defaultThreshold :=
    match THRESHOLDS (tradingMode config) with
    | threshold_number n => if truthy n then n else 25
    | threshold_inherited => nan
    | threshold_undefined => 25
    end in
  let threshold :=
    match backtestThreshold config with
    | Some t => if Number_isFinite t then t else defaultThreshold
    | None => defaultThreshold
    end in
  let direction :=
    if gt totalScore threshold then "BUY"%string
    else if lt totalScore (- threshold) then "SELL"%string
    else "NEUTRAL"%string in
  let direction :=
    if trendFilter config then
      let trend := ind_trend indicators in
      let direction :=
        if String.eqb direction "BUY" && String.eqb trend "downtrend"
        then "NEUTRAL"%string else direction in
      if String.eqb direction "SELL" && String.eqb trend "uptrend"
      then "NEUTRAL"%string else direction
    else direction in
  let maxScore := threshold * 2 in
  let confidence :=
    Math_min [100; Math_max [0; (abs totalScore / maxScore) * 100]] in
  {| dir_direction := direction; dir_confidence := confidence |}.

End Engine.

(* ================================================================== *)
(** ** The host: module state, console and clock *)
(* ================================================================== *)

Module Host.
Import JS.

(** Console output.  The payload is the fixed text of the message; emoji
    and interpolated values are left out. *)
Inductive ConsoleEvent :=
| console_log (msg : string)
| console_warn (msg : string).

(** An entry of the monitor's rolling window. *)
Record Entry := {
  e_timeframe : string;
  e_direction : string;
  e_success : bool;
  e_return : number;
  e_confidence : number;
  e_timestamp : number }.

Inductive Status := pending | ready | evaluated.
Inductive EvalResult := correct | incorrect | neutral.

Record Evaluation := {
  result : EvalResult;
  futurePrice : number;
  priceChange : number;
  evaluatedAt : number }.

Record MarketContext := {
  totalScore : number;
  marketRegime : string;
  relativeVolatility : number }.

Record Decision := {
  id : number;
  timestamp : number;
  direction : string;
  confidence : number;
  currentPrice : number;
  indicators : Engine.Indicators;
  timeframe : string;
  explanation : string;
  marketContext : MarketContext;
  evaluationHorizon : number;
  status : Status;
  evaluation : option Evaluation }.

(** [decisionHistory] is the module variable of evaluation.js;
    [decisionWindow] is the private variable of the SystemState closure and
    [SystemState_loaded] tells whether [window.SystemState] is defined.
    [clock] and [rng] are the successive results of [Date.now()] and
    [Math.random()]; the two counters say how many have been consumed. *)
Record World := {
  decisionHistory : list Decision;
  SystemState_loaded : bool;
  decisionWindow : list Entry;
  console : list ConsoleEvent;
  clock : nat -> number;
  clockReads : nat;
  rng : nat -> number;
  rngDraws : nat }.

Definition set_decisionHistory (h : list Decision) (w : World) : World :=
  {| decisionHistory := h;
     SystemState_loaded := SystemState_loaded w;
     decisionWindow := decisionWindow w;
     console := console w;
     clock := clock w; clockReads := clockReads w;
     rng := rng w; rngDraws := rngDraws w |}.

Definition set_decisionWindow (win : list Entry) (w : World) : World :=
  {| decisionHistory := decisionHistory w;
     SystemState_loaded := SystemState_loaded w;
     decisionWindow := win;
     console := console w;
     clock := clock w; clockReads := clockReads w;
     rng := rng w; rngDraws := rngDraws w |}.

(** *** The state monad *)

Definition M (A : Type) : Type := World -> A * World.

Definition ret {A} (a : A) : M A := fun w => (a, w).
Definition bind {A B} (c : M A) (k : A -> M B) : M B :=
  fun w => let (a, w') := c w in k a w'.

Declare Scope js_scope.
Delimit Scope js_scope with js.
Notation "x <- c ;; k" := (bind c (fun x => k))
  (at level 61, c at next level, right associativity) : js_scope.
Notation "c ;; k" := (bind c (fun _ => k))
  (at level 61, right associativity) : js_scope.
Local Open Scope js_scope.

Definition Date_now : M number :=
  fun w =>
    (clock w (clockReads w),
     {| decisionHistory := decisionHistory w;
        SystemState_loaded := SystemState_loaded w;
        decisionWindow := decisionWindow w;
        console := console w;
        clock := clock w; clockReads := S (clockReads w);
        rng := rng w; rngDraws := rngDraws w |}).

Definition Math_random : M number :=
  fun w =>
    (rng w (rngDraws w),
     {| decisionHistory := decisionHistory w;
        SystemState_loaded := SystemState_loaded w;
        decisionWindow := decisionWindow w;
        console := console w;
        clock := clock w; clockReads := clockReads w;
        rng := rng w; rngDraws := S (rngDraws w) |}).

Definition emit (e : ConsoleEvent) : M unit :=
  fun w =>
    (tt,
     {| decisionHistory := decisionHistory w;
        SystemState_loaded := SystemState_loaded w;
        decisionWindow := decisionWindow w;
        console := console w ++ [e];
        clock := clock w; clockReads := clockReads w;
        rng := rng w; rngDraws := rngDraws w |}).

Definition get_decisionHistory : M (list Decision) :=
  fun w => (decisionHistory w, w).
Definition put_decisionHistory (h : list Decision) : M unit :=
  fun w => (tt, set_decisionHistory h w).
Definition get_decisionWindow : M (list Entry) :=
  fun w => (decisionWindow w, w).
Definition put_decisionWindow (win : list Entry) : M unit :=
  fun w => (tt, set_decisionWindow win w).
Definition get_SystemState_loaded : M bool :=
  fun w => (SystemState_loaded w, w).

(** [arr.forEach(f)]. *)
Fixpoint forEach {A} (arr : list A) (f : A -> M unit) : M unit :=
  match arr with
  | [] => ret tt
  | x :: rest => f x ;; forEach rest f
  end.

End Host.

(* ================================================================== *)
(** ** SystemState: the rolling-window monitor *)
(* ================================================================== *)

Module SystemState.
Import JS Host.
Local Open Scope js_scope.
Local Open Scope float_scope.

Definition WINDOW_SIZE : nat := 50.

(** The argument of [recordDecision]; an absent property is [None]. *)
Record Data := {
  data_timeframe : option string;
  data_direction : option string;
  data_success : option bool;
  data_return : option number;
  data_confidence : option number;
  data_timestamp : option number }.

Definition calculateAccuracy (window : list Entry) : number :=
  if (length window =? 0)%nat then 0
  else
    let successes := length (filter (fun d => e_success d) window) in
    (of_nat successes / of_nat (length window)) * 100.

Definition calculateWinRate (window : list Entry) : number :=
  if (length window =? 0)%nat then 0
  else
    let profitable := length (filter (fun d => gt (e_return d) 0) window) in
    (of_nat profitable / of_nat (length window)) * 100.

Record Errors := { current : nat; max : nat }.

(** The loop walks the window from its last entry backwards and stops at
    the first success. *)
Fixpoint consecutive_errors_from (rev_window : list Entry) (acc : Errors)
  : Errors :=
  match rev_window with
  | [] => acc
  | d :: rest =>
      if negb (e_success d) then
        let current' := S (current acc) in
        consecutive_errors_from rest
          {| current := current'; max := Nat.max (max acc) current' |}
      else acc
  end.

Definition calculateConsecutiveErrors (window : list Entry) : Errors :=
  consecutive_errors_from (rev window) {| current := 0; max := 0 |}.

(** [x || dflt] for an optional string / number property. *)
Definition string_or (x : option string) (dflt : string) : string :=
  match x with
  | Some s => if truthy_string s then s else dflt
  | None => dflt
  end.

Definition number_or (x : option number) (dflt : number) : number :=
  match x with
  | Some v => if truthy v then v else dflt
  | None => dflt
  end.

Definition invalid_warning : ConsoleEvent :=
  console_warn "SystemState: Decisao invalida".

Definition recordDecision (data : option Data) : M unit :=
  match data with
  | None => emit invalid_warning
  | Some data =>
      match data_success data with
      | None => emit invalid_warning
      | Some success =>
          ts <- match data_timestamp data with
                | Some t => if truthy t then ret t else Date_now
                | None => Date_now
                end ;;
          win <- get_decisionWindow ;;
          let win :=
            win ++ [ {| e_timeframe := string_or (data_timeframe data) "unknown";
                        e_direction := string_or (data_direction data) "NEUTRAL";
                        e_success := success;
                        e_return := number_or (data_return data) 0;
                        e_confidence := number_or (data_confidence data) 0;
                        e_timestamp := ts |} ] in
          put_decisionWindow
            (if (WINDOW_SIZE <? length win)%nat then tl win else win) ;;
          emit (console_log "SystemState: decisoes monitoradas")
      end
  end.

Definition getWindow : M (list Entry) := get_decisionWindow.

Definition reset : M unit :=
  put_decisionWindow [] ;;
  emit (console_log "SystemState resetado").

(** *** Metrics and snapshots *)

Definition calculateAvgConfidence (window : list Entry) : number :=
  if (length window =? 0)%nat then 0
  else
    let sum :=
      fold_left
        (fun acc d =>
           acc + (if truthy (e_confidence d) then e_confidence d else 0))
        window 0 in
    sum / of_nat (length window).

Record Distribution := {
  buyRatio : number; sellRatio : number; neutralRatio : number }.

Definition calculateDistribution (window : list Entry) : Distribution :=
  if (length window =? 0)%nat
  then {| buyRatio := 0; sellRatio := 0; neutralRatio := 0 |}
  else
    let buys :=
      length (filter (fun d => String.eqb (e_direction d) "BUY") window) in
    let sells :=
      length (filter (fun d => String.eqb (e_direction d) "SELL") window) in
    let neutrals :=
      length (filter (fun d => String.eqb (e_direction d) "NEUTRAL") window) in
    {| buyRatio := (of_nat buys / of_nat (length window)) * 100;
       sellRatio := (of_nat sells / of_nat (length window)) * 100;
       neutralRatio := (of_nat neutrals / of_nat (length window)) * 100 |}.

Record Metrics := {
  m_totalDecisions : nat;
  m_recentAccuracy : number;
  m_recentWinRate : number;
  m_avgConfidence : number;
  m_consecutiveErrors : nat;
  m_maxConsecutiveErrors : nat;
  m_buyRatio : number;
  m_sellRatio : number;
  m_neutralRatio : number }.

Definition updateMetrics : M Metrics :=
  decisionWindow <- get_decisionWindow ;;
  let accuracy := calculateAccuracy decisionWindow in
  let winRate := calculateWinRate decisionWindow in
  let avgConfidence := calculateAvgConfidence decisionWindow in
  let errors := calculateConsecutiveErrors decisionWindow in
  let distribution := calculateDistribution decisionWindow in
  ret {| m_totalDecisions := length decisionWindow;
         m_recentAccuracy := accuracy;
         m_recentWinRate := winRate;
         m_avgConfidence := avgConfidence;
         m_consecutiveErrors := current errors;
         m_maxConsecutiveErrors := max errors;
         m_buyRatio := buyRatio distribution;
         m_sellRatio := sellRatio distribution;
         m_neutralRatio := neutralRatio distribution |}.

Record Snapshot := {
  snap_timestamp : number;
  snap_windowSize : nat;
  snap_maxWindowSize : nat;
  snap_metrics : Metrics;
  snap_recentDecisions : list Entry }.

Definition getSnapshot : M Snapshot :=
  metrics <- updateMetrics ;;
  now <- Date_now ;;
  decisionWindow <- get_decisionWindow ;;
  ret {| snap_timestamp := now;
         snap_windowSize := length decisionWindow;
         snap_maxWindowSize := WINDOW_SIZE;
         snap_metrics := metrics;
         snap_recentDecisions := slice_last 10 decisionWindow |}.

Record RecentMetrics := {
  rm_windowSize : nat;
  rm_accuracy : number;
  rm_winRate : number;
  rm_avgConfidence : number }.

Definition getRecentMetrics (windowSize : nat) : M RecentMetrics :=
  decisionWindow <- get_decisionWindow ;;
  let recentWindow := slice_last windowSize decisionWindow in
  if (length recentWindow =? 0)%nat
  then ret {| rm_windowSize := 0; rm_accuracy := 0; rm_winRate := 0;
              rm_avgConfidence := 0 |}
  else ret {| rm_windowSize := length recentWindow;
              rm_accuracy := calculateAccuracy recentWindow;
              rm_winRate := calculateWinRate recentWindow;
              rm_avgConfidence := calculateAvgConfidence recentWindow |}.

End SystemState.

(* ================================================================== *)
(** ** evaluation.js: the decision ledger *)
(* ================================================================== *)

Module DecisionEvaluator.
Import JS Host.
Local Open Scope js_scope.
Local Open Scope float_scope.

(** The argument of [recordDecision]; [evaluationHorizon] is optional. *)
Record DecisionData := {
  dd_direction : string;
  dd_confidence : number;
  dd_currentPrice : number;
  dd_indicators : Engine.Indicators;
  dd_timeframe : string;
  dd_explanation : string;
  dd_marketContext : MarketContext;
  dd_evaluationHorizon : option number }.

(** What a property read [horizonMap[timeframe]] can yield: an own numeric
    property, a member inherited from [Object.prototype] (a function or an
    object, hence truthy and NaN as a number), or [undefined]. *)
Inductive Property :=
| own_number (n : number)
| inherited_member
| undefined.

Definition Object_prototype_names : list string :=
  [ "constructor"; "hasOwnProperty"; "isPrototypeOf"; "propertyIsEnumerable";
    "toLocaleString"; "toString"; "valueOf"; "__proto__";
    "__defineGetter__"; "__defineSetter__"; "__lookupGetter__";
    "__lookupSetter__" ]%string.

Definition horizonMap (timeframe : string) : Property :=
  if String.eqb timeframe "1m" then own_number 3
  else if String.eqb timeframe "5m" then own_number 15
  else if String.eqb timeframe "15m" then own_number 45
  else if String.eqb timeframe "1h" then own_number 180
  else if existsb (String.eqb timeframe) Object_prototype_names
       then inherited_member
  else undefined.

(** [horizonMap[timeframe] || 5]. *)
Definition getEvaluationHorizon (timeframe : string) : Property :=
  match horizonMap timeframe with
  | own_number n => if truthy n then own_number n else own_number 5
  | inherited_member => inherited_member
  | undefined => own_number 5
  end.

(** ToNumber, as applied by the [*] operator. *)
Definition to_number (p : Property) : number :=
  match p with
  | own_number n => n
  | inherited_member => nan
  | undefined => nan
  end.

(** The object literal bound to [decision] in [recordDecision]. *)
Definition newDecision (decisionData : DecisionData)
           (evaluationHorizon now_id rnd now_ts : number) : Decision :=
  {| id := now_id + rnd;
     timestamp := now_ts;
     direction := dd_direction decisionData;
     confidence := dd_confidence decisionData;
     currentPrice := dd_currentPrice decisionData;
     indicators := dd_indicators decisionData;
     timeframe := dd_timeframe decisionData;
     explanation := dd_explanation decisionData;
     marketContext := dd_marketContext decisionData;
     evaluationHorizon := evaluationHorizon;
     status := pending;
     evaluation := None |}.

Definition recordDecision (decisionData : DecisionData) : M unit :=
  let horizonMinutes := getEvaluationHorizon (dd_timeframe decisionData) in
  let evaluationHorizon :=
    SystemState.number_or (dd_evaluationHorizon decisionData)
                          (to_number horizonMinutes * 60 * 1000) in
  now_id <- Date_now ;;
  rnd <- Math_random ;;
  now_ts <- Date_now ;;
  let decision :=
    newDecision decisionData evaluationHorizon now_id rnd now_ts in
  h <- get_decisionHistory ;;
  let h := h ++ [decision] in
  put_decisionHistory
    (if (1000 <? length h)%nat then slice_last 1000 h else h) ;;
  emit (console_log "Decisao registrada").

Definition isDecisionReady (decision : Decision) (currentTime : number)
  : bool :=
  let timeElapsed := currentTime - timestamp decision in
  ge timeElapsed (evaluationHorizon decision).

Definition status_eqb (a b : Status) : bool :=
  match a, b with
  | pending, pending | ready, ready | evaluated, evaluated => true
  | _, _ => false
  end.

Definition set_status (s : Status) (d : Decision) : Decision :=
  {| id := id d; timestamp := timestamp d; direction := direction d;
     confidence := confidence d; currentPrice := currentPrice d;
     indicators := indicators d; timeframe := timeframe d;
     explanation := explanation d; marketContext := marketContext d;
     evaluationHorizon := evaluationHorizon d;
     status := s; evaluation := evaluation d |}.

Definition set_evaluation (e : option Evaluation) (d : Decision) : Decision :=
  {| id := id d; timestamp := timestamp d; direction := direction d;
     confidence := confidence d; currentPrice := currentPrice d;
     indicators := indicators d; timeframe := timeframe d;
     explanation := explanation d; marketContext := marketContext d;
     evaluationHorizon := evaluationHorizon d;
     status := status d; evaluation := e |}.

(** The body of the [forEach] callback of [updateDecisionStatuses]. *)
Definition advance (now : number) (decision : Decision) : Decision :=
  if status_eqb (status decision) pending && isDecisionReady decision now
  then set_status ready decision
  else decision.

Definition updateDecisionStatuses : M unit :=
  now <- Date_now ;;
  h <- get_decisionHistory ;;
  put_decisionHistory (map (advance now) h).

(** The classification at the heart of [evaluateDecision]. *)
Definition classify (direction : string) (priceChange : number) : EvalResult :=
  let threshold := 0.1 in
  if String.eqb direction "BUY" then
    if gt priceChange threshold then correct
    else if lt priceChange (- threshold) then incorrect
    else neutral
  else if String.eqb direction "SELL" then
    if lt priceChange (- threshold) then correct
    else if gt priceChange threshold then incorrect
    else neutral
  else neutral.

Definition result_eqb (a b : EvalResult) : bool :=
  match a, b with
  | correct, correct | incorrect, incorrect | neutral, neutral => true
  | _, _ => false
  end.

(** [evaluateDecision(decision, futurePrice)] mutates the object it is
    given; the model returns the object after the call next to the result
    ([None] is [null]). *)
Definition evaluateDecision (decision : Decision) (futurePrice : number)
  : M (option EvalResult * Decision) :=
  if negb (status_eqb (status decision) ready) then ret (None, decision)
  else
    let priceChange :=
      ((futurePrice - currentPrice decision) / currentPrice decision) * 100 in
    let result := classify (direction decision) priceChange in
    evaluatedAt <- Date_now ;;
    let decision :=
      set_evaluation
        (Some {| result := result; futurePrice := futurePrice;
                 priceChange := priceChange; evaluatedAt := evaluatedAt |})
        (set_status evaluated decision) in
    emit (console_log "Avaliacao") ;;
    loaded <- get_SystemState_loaded ;;
    (if loaded then
       now <- Date_now ;;
       SystemState.recordDecision
         (Some {| SystemState.data_timeframe := Some (timeframe decision);
                  SystemState.data_direction := Some (direction decision);
                  SystemState.data_success := Some (result_eqb result correct);
                  SystemState.data_return := Some priceChange;
                  SystemState.data_confidence := Some (confidence decision);
                  SystemState.data_timestamp := Some now |}) ;;
       emit (console_log "SystemState atualizado com decisao")
     else emit (console_warn "SystemState nao disponivel")) ;;
    ret (Some result, decision).

(** [arr[i] = x] for an index inside the array. *)
Fixpoint replace_at {A} (i : nat) (x : A) (arr : list A) : list A :=
  match arr, i with
  | [], _ => []
  | _ :: rest, O => x :: rest
  | y :: rest, S i' => y :: replace_at i' x rest
  end.

(** [evaluateDecision] applied to the object stored at position [i] of the
    history: the object is shared, so the history sees the mutation. *)
Definition evaluateStored (i : nat) (futurePrice : number)
  : M (option EvalResult) :=
  h <- get_decisionHistory ;;
  match nth_error h i with
  | None => ret None
  | Some decision =>
      r <- evaluateDecision decision futurePrice ;;
      h <- get_decisionHistory ;;
      put_decisionHistory (replace_at i (snd r) h) ;;
      ret (fst r)
  end.

(** The references collected by [decisionHistory.filter(...)], as the
    positions of the objects in the history. *)
Definition readyDecisions (h : list Decision) : list nat :=
  filter (fun i => match nth_error h i with
                   | Some d => status_eqb (status d) ready
                   | None => false
                   end)
         (seq 0 (length h)).

Fixpoint evaluateEach (refs : list nat) (currentPrice : number)
         (evaluatedCount : nat) : M nat :=
  match refs with
  | [] => ret evaluatedCount
  | i :: rest =>
      r <- evaluateStored i currentPrice ;;
      evaluateEach rest currentPrice
        (match r with Some _ => S evaluatedCount | None => evaluatedCount end)
  end.

Definition evaluatePendingDecisions (currentPrice : number) : M unit :=
  updateDecisionStatuses ;;
  h <- get_decisionHistory ;;
  evaluatedCount <- evaluateEach (readyDecisions h) currentPrice 0 ;;
  if (0 <? evaluatedCount)%nat
  then emit (console_log "Avaliadas decisoes prontas")
  else ret tt.

(** *** Queries *)

Record Stats := {
  st_total : nat;
  st_pending : nat;
  st_ready : nat;
  st_evaluated : nat;
  st_correct : nat;
  st_incorrect : nat;
  st_neutral : nat;
  st_accuracy : number;
  st_winRate : number }.

Definition count_status (s : Status) (h : list Decision) : nat :=
  length (filter (fun d => status_eqb (status d) s) h).

(** [evaluated.filter(d => d.evaluation.result === r).length]; reading
    [.result] of a [null] evaluation throws, which is [None] here. *)
Fixpoint count_result (r : EvalResult) (evaluated : list Decision)
  : option nat :=
  match evaluated with
  | [] => Some 0%nat
  | d :: rest =>
      match evaluation d with
      | None => None
      | Some e =>
          match count_result r rest with
          | None => None
          | Some n => Some (if result_eqb (result e) r then S n else n)
          end
      end
  end.

Definition getPerformanceStats (w : World) : option Stats :=
  let h := decisionHistory w in
  let evaluated := filter (fun d => status_eqb (status d) Host.evaluated) h in
  if (length evaluated =? 0)%nat then
    Some {| st_total := 0;
            st_pending := count_status pending h;
            st_ready := count_status ready h;
            st_evaluated := 0; st_correct := 0; st_incorrect := 0;
            st_neutral := 0; st_accuracy := 0; st_winRate := 0 |}
  else
    match count_result correct evaluated,
          count_result incorrect evaluated,
          count_result neutral evaluated with
    | Some n_correct, Some n_incorrect, Some n_neutral =>
        let decisiveDecisions := (n_correct + n_incorrect)%nat in
        let accuracy :=
          if (0 <? decisiveDecisions)%nat
          then (of_nat n_correct / of_nat decisiveDecisions) * 100 else 0 in
        let winRate := (of_nat n_correct / of_nat (length evaluated)) * 100 in
        Some {| st_total := length h;
                st_pending := count_status pending h;
                st_ready := count_status ready h;
                st_evaluated := length evaluated;
                st_correct := n_correct; st_incorrect := n_incorrect;
                st_neutral := n_neutral;
                st_accuracy := accuracy; st_winRate := winRate |}
    | _, _, _ => None
    end.

Definition getDecisionHistory (limit : nat) (w : World) : list Decision :=
  rev (slice_last limit (decisionHistory w)).

Definition clearHistory : M unit :=
  put_decisionHistory [] ;;
  emit (console_log "Historico de decisoes limpo").

(** *** Statistics per timeframe *)

Record TimeframeStats := {
  tf_total : nat;
  tf_pending : nat;
  tf_ready : nat;
  tf_evaluated : nat;
  tf_correct : nat;
  tf_incorrect : nat;
  tf_neutral : nat;
  tf_accuracy : number }.

Definition tf_zero : TimeframeStats :=
  {| tf_total := 0; tf_pending := 0; tf_ready := 0; tf_evaluated := 0;
     tf_correct := 0; tf_incorrect := 0; tf_neutral := 0; tf_accuracy := 0 |}.

(** The increments the loop applies to [stats[tf]] for one decision whose
    outcome, when it is evaluated, is [r]. *)
Definition tf_count (st : Status) (r : option EvalResult)
           (s : TimeframeStats) : TimeframeStats :=
  {| tf_total := S (tf_total s);
     tf_pending :=
       match st with pending => S (tf_pending s) | _ => tf_pending s end;
     tf_ready :=
       match st with ready => S (tf_ready s) | _ => tf_ready s end;
     tf_evaluated :=
       match st with evaluated => S (tf_evaluated s) | _ => tf_evaluated s end;
     tf_correct :=
       match st, r with
       | evaluated, Some correct => S (tf_correct s)
       | _, _ => tf_correct s
       end;
     tf_incorrect :=
       match st, r with
       | evaluated, Some incorrect => S (tf_incorrect s)
       | _, _ => tf_incorrect s
       end;
     tf_neutral :=
       match st, r with
       | evaluated, Some neutral => S (tf_neutral s)
       | _, _ => tf_neutral s
       end;
     tf_accuracy := tf_accuracy s |}.

(** The own properties of the [stats] object, oldest key first.
    [stats[tf] = f (stats[tf])], creating the zero record first when the
    object has no such key. *)
Fixpoint tf_update (tf : string) (f : TimeframeStats -> TimeframeStats)
         (stats : list (string * TimeframeStats))
  : list (string * TimeframeStats) :=
  match stats with
  | [] => [(tf, f tf_zero)]
  | (k, v) :: rest =>
      if String.eqb k tf then (k, f v) :: rest
      else (k, v) :: tf_update tf f rest
  end.

(** The first loop.  [None] is the TypeError of reading [.result] of a
    [null] evaluation.  For a timeframe that names a member inherited from
    [Object.prototype], [stats[tf]] is that member: no key is created and
    the increments go to the member, not to the result. *)
Fixpoint tf_collect (h : list Decision)
         (stats : list (string * TimeframeStats))
  : option (list (string * TimeframeStats)) :=
  match h with
  | [] => Some stats
  | decision :: rest =>
      let tf := timeframe decision in
      match status decision, evaluation decision with
      | evaluated, None => None
      | st, ev =>
          if existsb (String.eqb tf) Object_prototype_names
          then tf_collect rest stats
          else tf_collect rest
                 (tf_update tf (tf_count st (option_map result ev)) stats)
      end
  end.

(** The second loop: the accuracy of each key. *)
Definition tf_finish (s : TimeframeStats) : TimeframeStats :=
  let decisive := (tf_correct s + tf_incorrect s)%nat in
  {| tf_total := tf_total s; tf_pending := tf_pending s;
     tf_ready := tf_ready s; tf_evaluated := tf_evaluated s;
     tf_correct := tf_correct s; tf_incorrect := tf_incorrect s;
     tf_neutral := tf_neutral s;
     tf_accuracy :=
       if (0 <? decisive)%nat
       then (of_nat (tf_correct s) / of_nat decisive) * 100 else 0 |}.

Definition getTimeframeStats (w : World)
  : option (list (string * TimeframeStats)) :=
  match tf_collect (decisionHistory w) [] with
  | Some stats => Some (map (fun kv => (fst kv, tf_finish (snd kv))) stats)
  | None => None
  end.

(** [stats[tf]] on the returned object, for a key that is not inherited. *)
Fixpoint tf_lookup (tf : string) (stats : list (string * TimeframeStats))
  : option TimeframeStats :=
  match stats with
  | [] => None
  | (k, v) :: rest => if String.eqb k tf then Some v else tf_lookup tf rest
  end.

End DecisionEvaluator.

(* ================================================================== *)
(** ** Performance analysis: report buckets *)
(* ================================================================== *)

Module PerformanceAnalysis.
Import JS Host.
Local Open Scope float_scope.

Record Bucket := {
  label : string;
  total : nat;
  b_correct : nat;
  b_incorrect : nat;
  b_neutral : nat;
  accuracy : number;
  winRate : number }.

Definition initBucket (label : string) : Bucket :=
  {| label := label; total := 0; b_correct := 0; b_incorrect := 0;
     b_neutral := 0; accuracy := 0; winRate := 0 |}.

Definition finalizeBucket (bucket : Bucket) : Bucket :=
  let decisive := (b_correct bucket + b_incorrect bucket)%nat in
  {| label := label bucket; total := total bucket;
     b_correct := b_correct bucket; b_incorrect := b_incorrect bucket;
     b_neutral := b_neutral bucket;
     accuracy :=
       if (0 <? decisive)%nat
       then (of_nat (b_correct bucket) / of_nat decisive) * 100 else 0;
     winRate :=
       if (0 <? total bucket)%nat
       then (of_nat (b_correct bucket) / of_nat (total bucket)) * 100
       else 0 |}.

(** [decision.evaluation?.result]: a missing evaluation counts as neutral. *)
Definition updateBucket (bucket : Bucket) (decision : Decision) : Bucket :=
  let r := option_map result (evaluation decision) in
  {| label := label bucket; total := S (total bucket);
     b_correct :=
       match r with Some correct => S (b_correct bucket)
               | _ => b_correct bucket end;
     b_incorrect :=
       match r with Some incorrect => S (b_incorrect bucket)
               | _ => b_incorrect bucket end;
     b_neutral :=
       match r with Some correct | Some incorrect => b_neutral bucket
               | _ => S (b_neutral bucket) end;
     accuracy := accuracy bucket; winRate := winRate bucket |}.

(** *** Reports *)

(** [evaluator_loaded] tells whether [window.DecisionEvaluator] is defined. *)
Definition getEvaluatedDecisions (evaluator_loaded : bool) (limit : nat)
           (w : World) : list Decision :=
  if negb evaluator_loaded then []
  else
    filter (fun d =>
              DecisionEvaluator.status_eqb (status d) evaluated
              && match evaluation d with Some _ => true | None => false end)
           (DecisionEvaluator.getDecisionHistory limit w).

(** [buckets[i] = f (buckets[i])] for the bucket object at position [i]. *)
Fixpoint update_bucket_at (i : nat) (f : Bucket -> Bucket)
         (buckets : list Bucket) : list Bucket :=
  match buckets, i with
  | [], _ => []
  | b :: rest, O => f b :: rest
  | b :: rest, S i' => b :: update_bucket_at i' f rest
  end.

(** Which object [buckets[key]] is, for the object literal with the keys
    uptrend, downtrend, sideways, unknown (positions 0 to 3): a regime that
    names a member inherited from [Object.prototype] finds that member, and
    [updateBucket] then writes to it instead of to a bucket. *)
Inductive RegimeTarget :=
| regime_bucket (i : nat)
| regime_inherited.

Definition regime_target (marketRegime : string) : RegimeTarget :=
  let regime :=
    if truthy_string marketRegime then marketRegime else "unknown"%string in
  if String.eqb regime "uptrend" then regime_bucket 0
  else if String.eqb regime "downtrend" then regime_bucket 1
  else if String.eqb regime "sideways" then regime_bucket 2
  else if String.eqb regime "unknown" then regime_bucket 3
  else if existsb (String.eqb regime) Engine.inherited_names
       then regime_inherited
  else regime_bucket 3.

Definition getPerformanceByMarketRegime (evaluator_loaded : bool)
           (limit : nat) (w : World) : list Bucket :=
  let evaluated := getEvaluatedDecisions evaluator_loaded limit w in
  let buckets :=
    [ initBucket "uptrend"; initBucket "downtrend"; initBucket "sideways";
      initBucket "unknown" ] in
  let buckets :=
    fold_left
      (fun buckets decision =>
         match regime_target (marketRegime (marketContext decision)) with
         | regime_bucket i =>
             update_bucket_at i (fun b => updateBucket b decision) buckets
         | regime_inherited => buckets
         end)
      evaluated buckets in
  map finalizeBucket buckets.

(** A range of a report; [None] bounds are [null]. *)
Record Range := {
  r_label : string;
  r_bounds : option (number * number) }.

(** [ranges.findIndex(r => r.min !== null && x >= r.min && x < r.max)];
    [None] is [-1]. *)
Fixpoint findIndex_from (i : nat) (ranges : list Range) (x : number)
  : option nat :=
  match ranges with
  | [] => None
  | r :: rest =>
      match r_bounds r with
      | Some (lo, hi) =>
          if ge x lo && lt x hi then Some i
          else findIndex_from (S i) rest x
      | None => findIndex_from (S i) rest x
      end
  end.

(** The bucket a value lands in: the last one (unknown) when the value is
    not finite or no range holds it. *)
Definition bucket_index (ranges : list Range) (x : number) : nat :=
  if Number_isFinite x then
    match findIndex_from 0 ranges x with
    | Some i => i
    | None => length ranges - 1
    end
  else length ranges - 1.

Definition report_by_range (ranges : list Range) (value : Decision -> number)
           (evaluated : list Decision) : list Bucket :=
  let buckets := map (fun r => initBucket (r_label r)) ranges in
  let buckets :=
    fold_left
      (fun buckets decision =>
         update_bucket_at (bucket_index ranges (value decision))
                          (fun b => updateBucket b decision) buckets)
      evaluated buckets in
  map finalizeBucket buckets.

Definition volatility_ranges : list Range :=
  [ {| r_label := "0% - 0.5%"; r_bounds := Some (0, 0.5) |};
    {| r_label := "0.5% - 1%"; r_bounds := Some (0.5, 1) |};
    {| r_label := "1% - 2%"; r_bounds := Some (1, 2) |};
    {| r_label := "2% - 3%"; r_bounds := Some (2, 3) |};
    {| r_label := "> 3%"; r_bounds := Some (3, infinity) |};
    {| r_label := "unknown"; r_bounds := None |} ].

Definition confidence_ranges : list Range :=
  [ {| r_label := "0 - 40"; r_bounds := Some (0, 40) |};
    {| r_label := "40 - 60"; r_bounds := Some (40, 60) |};
    {| r_label := "60 - 80"; r_bounds := Some (60, 80) |};
    {| r_label := "80 - 100"; r_bounds := Some (80, 100) |};
    {| r_label := "unknown"; r_bounds := None |} ].

Definition getPerformanceByVolatilityRange (evaluator_loaded : bool)
           (limit : nat) (w : World) : list Bucket :=
  report_by_range volatility_ranges
    (fun decision => relativeVolatility (marketContext decision))
    (getEvaluatedDecisions evaluator_loaded limit w).

Definition getPerformanceByConfidenceRange (evaluator_loaded : bool)
           (limit : nat) (w : World) : list Bucket :=
  report_by_range confidence_ranges (fun decision => confidence decision)
    (getEvaluatedDecisions evaluator_loaded limit w).

Record Reports := {
  byMarketRegime : list Bucket;
  byVolatilityRange : list Bucket;
  byConfidenceRange : list Bucket }.

Definition getAllPerformanceReports (evaluator_loaded : bool) (limit : nat)
           (w : World) : Reports :=
  {| byMarketRegime := getPerformanceByMarketRegime evaluator_loaded limit w;
     byVolatilityRange :=
       getPerformanceByVolatilityRange evaluator_loaded limit w;
     byConfidenceRange :=
       getPerformanceByConfidenceRange evaluator_loaded limit w |}.

End PerformanceAnalysis.

(* ================================================================== *)
(** ** Strategy insights *)
(* ================================================================== *)

Module StrategyInsights.
Import JS Host PerformanceAnalysis.
Local Open Scope float_scope.

(** The texts pushed by [classifyBucket], as the template used and the
    values interpolated into it (the accuracy is printed with one decimal,
    the prefix of a recommendation in lower case). *)
Inductive Message :=
| good_performance (labelPrefix label : string) (accuracy : number)
| low_performance (labelPrefix label : string) (accuracy : number)
| reduce_exposure (labelPrefix label : string)
| keep_collecting.

Record Insights := {
  summary : string;
  positives : list Message;
  negatives : list Message;
  recommendations : list Message }.

(** The three arrays the closure [classifyBucket] pushes to. *)
Record Lists := {
  l_positives : list Message;
  l_negatives : list Message;
  l_recommendations : list Message }.

Definition classifyBucket (lists : Lists) (bucket : Bucket)
           (labelPrefix : string) : Lists :=
  if (total bucket <? 10)%nat then lists
  else if ge (accuracy bucket) 60 then
    {| l_positives :=
         l_positives lists
         ++ [good_performance labelPrefix (label bucket) (accuracy bucket)];
       l_negatives := l_negatives lists;
       l_recommendations := l_recommendations lists |}
  else if le (accuracy bucket) 40 then
    {| l_positives := l_positives lists;
       l_negatives :=
         l_negatives lists
         ++ [low_performance labelPrefix (label bucket) (accuracy bucket)];
       l_recommendations :=
         l_recommendations lists
         ++ [reduce_exposure labelPrefix (label bucket)] |}
  else lists.

Definition classifyAll (labelPrefix : string) (buckets : list Bucket)
           (lists : Lists) : Lists :=
  fold_left (fun lists b => classifyBucket lists b labelPrefix) buckets lists.

(** [None] is a missing ([null] / [undefined]) [reports] argument. *)
Definition buildInsightsFromReports (reports : option Reports) : Insights :=
  match reports with
  | None =>
      {| summary := "Sem dados para analise.";
         positives := []; negatives := []; recommendations := [] |}
  | Some reports =>
      let lists :=
        {| l_positives := []; l_negatives := []; l_recommendations := [] |} in
      let lists := classifyAll "Regime" (byMarketRegime reports) lists in
      let lists :=
        classifyAll "Volatilidade" (byVolatilityRange reports) lists in
      let lists :=
        classifyAll "Confianca" (byConfidenceRange reports) lists in
      let recommendations :=
        if ((length (l_positives lists) =? 0)
            && (length (l_negatives lists) =? 0))%nat
        then l_recommendations lists ++ [keep_collecting]
        else l_recommendations lists in
      {| summary := "Insights gerados a partir dos relatorios de performance.";
         positives := l_positives lists;
         negatives := l_negatives lists;
         recommendations := recommendations |}
  end.

(** [analysis_loaded] tells whether [window.PerformanceAnalysis] is defined;
    [evaluator_loaded] likewise for [window.DecisionEvaluator]. *)
Definition generateStrategyInsights (analysis_loaded evaluator_loaded : bool)
           (limit : nat) (w : World) : Insights :=
  if negb analysis_loaded then
    {| summary := "PerformanceAnalysis indisponivel.";
       positives := []; negatives := []; recommendations := [] |}
  else
    buildInsightsFromReports
      (Some (getAllPerformanceReports evaluator_loaded limit w)).

End StrategyInsights.

(* ================================================================== *)
(** ** Sample data used by the concrete instances below *)
(* ================================================================== *)

Module Samples.
Import JS Host.
Local Open Scope float_scope.

Definition indicators0 : Engine.Indicators :=
  {| Engine.ind_rsi := 50; Engine.ind_macd := 0; Engine.ind_macd_atr := 0.0001;
     Engine.ind_stochRsi := 50; Engine.ind_mfi := 50;
     Engine.ind_trend := "sideways"; Engine.ind_divergence := None;
     Engine.ind_occ := None; Engine.ind_stcCci := None;
     Engine.ind_ema20 := 100; Engine.ind_ema50 := 100;
     Engine.ind_ema200 := 100; Engine.ind_atr := 0.0001;
     Engine.ind_currentPrice := 100; Engine.ind_volume := 1;
     Engine.ind_avgVolume := 1 |}.

Definition context0 : MarketContext :=
  {| totalScore := 30; marketRegime := "sideways"; relativeVolatility := 0.4 |}.

(** A freshly loaded page at clock reading [t0], ticking 1 ms per read. *)
Definition world0 : World :=
  {| decisionHistory := []; SystemState_loaded := true; decisionWindow := [];
     console := [];
     clock := fun n => 1700000000000 + of_nat n; clockReads := 0;
     rng := fun _ => 0.5; rngDraws := 0 |}.

Definition payload (dir tf : string) (override : option number)
  : DecisionEvaluator.DecisionData :=
  {| DecisionEvaluator.dd_direction := dir;
     DecisionEvaluator.dd_confidence := 60;
     DecisionEvaluator.dd_currentPrice := 100;
     DecisionEvaluator.dd_indicators := indicators0;
     DecisionEvaluator.dd_timeframe := tf;
     DecisionEvaluator.dd_explanation := "sample";
     DecisionEvaluator.dd_marketContext := context0;
     DecisionEvaluator.dd_evaluationHorizon := override |}.

Definition decision0 (dir : string) (st : Status) : Decision :=
  {| id := 1700000000000.5; timestamp := 1700000000000; direction := dir;
     confidence := 60; currentPrice := 100; indicators := indicators0;
     timeframe := "1m"; explanation := "sample"; marketContext := context0;
     evaluationHorizon := 180000; status := st; evaluation := None |}.

(** Sixty closes rising by one from 100. *)
Definition rising : list number := map of_nat (seq 100 60).

Definition balanced : Engine.Config :=
  {| Engine.tradingMode := "balanced"; Engine.backtestThreshold := None;
     Engine.divergenceDetection := true; Engine.trendFilter := false |}.

(** A score set whose only non-zero scores are [a] (MACD) and [b]
    (StochRSI), with the weights of the engine's table. *)
Definition scores (a b : number) (div : option string)
  : Engine.IndicatorScores :=
  {| Engine.rsi := {| Engine.score := 0; Engine.weight := 1.0 |};
     Engine.macd := {| Engine.score := a; Engine.weight := 1.0 |};
     Engine.stochRsi := {| Engine.score := b; Engine.weight := 0.8 |};
     Engine.mfi := {| Engine.score := 0; Engine.weight := 0.8 |};
     Engine.trend := {| Engine.score := 0; Engine.weight := 1.2 |};
     Engine.occ := {| Engine.score := 0; Engine.weight := 1.0 |};
     Engine.stcCci := {| Engine.score := 0; Engine.weight := 1.0 |};
     Engine.divergence :=
       {| Engine.div_value := div; Engine.div_weight := 0 |} |}.

Definition evaluated0 (dir : string) (res : EvalResult) (price change : number)
  : Decision :=
  DecisionEvaluator.set_evaluation
    (Some {| result := res; futurePrice := price; priceChange := change;
             evaluatedAt := 1700000180001 |})
    (decision0 dir evaluated).

(** A ledger holding a correct BUY and a neutral SELL. *)
Definition world_two : World :=
  set_decisionHistory
    [evaluated0 "BUY" correct 105 5; evaluated0 "SELL" neutral 100.05 0.05]
    world0.

Definition entry0 (ok : bool) : Entry :=
  {| e_timeframe := "1m"; e_direction := "BUY"; e_success := ok;
     e_return := 5; e_confidence := 60; e_timestamp := 1700000000000 |}.

(** A monitor that already holds one failed entry. *)
Definition world_one : World := set_decisionWindow [entry0 false] world0.

(** A page whose clock reads [t0] twice (while a decision is recorded),
    then [t0 + 179999], then [t0 + 180001] from there on. *)
Definition world_poll : World :=
  {| decisionHistory := []; SystemState_loaded := true; decisionWindow := [];
     console := [];
     clock := fun n => match n with
                       | 0 | 1 => 1700000000000
                       | 2 => 1700000000000 + 179999
                       | _ => 1700000000000 + 180001
                       end;
     clockReads := 0; rng := fun _ => 0.5; rngDraws := 0 |}.

(** Record a BUY at 100 on "1m", poll at 105 just before the horizon, then
    poll again at 105 just after it. *)
Definition poll_twice : M unit :=
  bind (DecisionEvaluator.recordDecision (payload "BUY" "1m" None))
       (fun _ => bind (DecisionEvaluator.evaluatePendingDecisions 105)
                      (fun _ => DecisionEvaluator.evaluatePendingDecisions 105)).

(** A fresh page on which the monitor script is not loaded. *)
Definition world_offline : World :=
  {| decisionHistory := []; SystemState_loaded := false;
     decisionWindow := []; console := [];
     clock := fun n => 1700000000000 + of_nat n; clockReads := 0;
     rng := fun _ => 0.5; rngDraws := 0 |}.

Definition data_ok : SystemState.Data :=
  {| SystemState.data_timeframe := Some "1m"%string;
     SystemState.data_direction := Some "BUY"%string;
     SystemState.data_success := Some true;
     SystemState.data_return := Some 5;
     SystemState.data_confidence := Some 60;
     SystemState.data_timestamp := Some 1700000000000 |}.

(** A payload with a NaN return, no confidence and an empty direction. *)
Definition data_dirty : SystemState.Data :=
  {| SystemState.data_timeframe := Some "1m"%string;
     SystemState.data_direction := Some ""%string;
     SystemState.data_success := Some false;
     SystemState.data_return := Some nan;
     SystemState.data_confidence := None;
     SystemState.data_timestamp := Some 1700000000000 |}.

Definition entry_of_dirty : Entry :=
  {| e_timeframe := "1m"; e_direction := "NEUTRAL"; e_success := false;
     e_return := 0; e_confidence := 0; e_timestamp := 1700000000000 |}.

Definition filtered : Engine.Config :=
  {| Engine.tradingMode := "balanced"; Engine.backtestThreshold := None;
     Engine.divergenceDetection := true; Engine.trendFilter := true |}.

Definition odd_mode : Engine.Config :=
  {| Engine.tradingMode := "constructor"; Engine.backtestThreshold := None;
     Engine.divergenceDetection := true; Engine.trendFilter := false |}.

Definition aggressive : Engine.Config :=
  {| Engine.tradingMode := "aggressive"; Engine.backtestThreshold := None;
     Engine.divergenceDetection := true; Engine.trendFilter := true |}.

(** Fourteen prices, each one above the last. *)
Definition climb : list JS.number :=
  [100; 101; 102; 103; 104; 105; 106; 107; 108; 109; 110; 111; 112; 113].

(** One closed candle at 100. *)
Definition one_candle : Engine.MarketInfo :=
  {| Engine.mi_closes := [100]; Engine.mi_opens := [99];
     Engine.mi_highs := [101]; Engine.mi_lows := [98];
     Engine.mi_volumes := [10]; Engine.mi_timestamps := [1700000000000];
     Engine.mi_currentPrice := 100.5 |}.

End Samples.

(* ================================================================== *)
(** ** Vocabulary of the properties *)
(* ================================================================== *)

Module Vocabulary.
Import Host.

(** The two moves of a decision's status. *)
Inductive transition : Status -> Status -> Prop :=
| becomes_ready : transition pending ready
| becomes_evaluated : transition ready evaluated.

(** One operation on a decision: its status stays or makes one move. *)
Definition stays_or_moves (s s' : Status) : Prop := s' = s \/ transition s s'.

(** The decision object a call [recordDecision(data)] creates in world [w]:
    its id and timestamp are the next readings of the clock and of the
    random source. *)
Definition created (data : DecisionEvaluator.DecisionData) (w : World)
  : Decision :=
  DecisionEvaluator.newDecision data
    (SystemState.number_or
       (DecisionEvaluator.dd_evaluationHorizon data)
       (DecisionEvaluator.to_number
          (DecisionEvaluator.getEvaluationHorizon
             (DecisionEvaluator.dd_timeframe data)) * 60 * 1000)%float)
    (clock w (clockReads w)) (rng w (rngDraws w)) (clock w (S (clockReads w))).

(** The decisions created by recording the payloads [ds] one after the
    other from world [w], in recording order. *)
Fixpoint recorded (ds : list DecisionEvaluator.DecisionData) (w : World)
  : list Decision :=
  match ds with
  | [] => []
  | data :: rest =>
      created data w
        :: recorded rest (snd (DecisionEvaluator.recordDecision data w))
  end.

(** The last [n] elements of a list, in their order. *)
Definition last_n {A} (n : nat) (l : list A) : list A :=
  skipn (length l - n) l.

(** An evaluated decision whose outcome is [r]. *)
Definition has_outcome (r : EvalResult) (d : Decision) : bool :=
  DecisionEvaluator.status_eqb (status d) evaluated
  && match evaluation d with
     | Some e => DecisionEvaluator.result_eqb (result e) r
     | None => false
     end.

(** How many decisions of a history were evaluated with outcome [r]. *)
Definition count_outcome (r : EvalResult) (h : list Decision) : nat :=
  length (filter (has_outcome r) h).

(** The ledger's invariant: an evaluated decision carries its evaluation. *)
Definition evaluated_have_evaluation (h : list Decision) : Prop :=
  forall d, In d h -> status d = evaluated -> evaluation d <> None.

(** How many successes a window holds. *)
Definition successes (window : list Entry) : nat :=
  length (filter (fun d => e_success d) window).

(** The window after one more entry: the oldest is shifted out once the
    window exceeds 50 entries. *)
Definition pushed (window : list Entry) (e : Entry) : list Entry :=
  if (50 <? length (window ++ [e]))%nat
  then tl (window ++ [e]) else window ++ [e].

(** The streak of a window listed newest first. *)
Definition streak_rev (l : list Entry) : nat :=
  SystemState.current
    (SystemState.consecutive_errors_from l
       {| SystemState.current := 0; SystemState.max := 0 |}).

End Vocabulary.

(* ================================================================== *)
(** ** Sequences of calls *)
(* ================================================================== *)

Module Runs.
Import JS Host.
Local Open Scope js_scope.

(** A call a page can make on the ledger.  [call_evaluateDecision i] is
    [evaluateDecision] applied to the decision object stored at position
    [i] of the history. *)
Inductive Call :=
| call_recordDecision (data : DecisionEvaluator.DecisionData)
| call_updateDecisionStatuses
| call_evaluateDecision (i : nat) (futurePrice : number)
| call_evaluatePendingDecisions (currentPrice : number)
| call_clearHistory.

Definition run_call (c : Call) : M unit :=
  match c with
  | call_recordDecision data => DecisionEvaluator.recordDecision data
  | call_updateDecisionStatuses => DecisionEvaluator.updateDecisionStatuses
  | call_evaluateDecision i futurePrice =>
      DecisionEvaluator.evaluateStored i futurePrice ;; ret tt
  | call_evaluatePendingDecisions currentPrice =>
      DecisionEvaluator.evaluatePendingDecisions currentPrice
  | call_clearHistory => DecisionEvaluator.clearHistory
  end.

Definition run (calls : list Call) : M unit := forEach calls run_call.

(** A decision carries an evaluation exactly when it is evaluated. *)
Definition decision_ok (d : Decision) : Prop :=
  status d = evaluated <-> evaluation d <> None.

Definition ledger_ok (w : World) : Prop :=
  (length (decisionHistory w) <= 1000)%nat /\
  forall d, In d (decisionHistory w) -> decision_ok d.

(** The entry the monitor stores for a payload, given the clock reading it
    would take; [None] when the payload is rejected. *)
Definition accepted (data : option SystemState.Data) (now : number)
  : option Entry :=
  match data with
  | None => None
  | Some data =>
      match SystemState.data_success data with
      | None => None
      | Some success =>
          Some {| e_timeframe :=
                    SystemState.string_or (SystemState.data_timeframe data)
                                          "unknown";
                  e_direction :=
                    SystemState.string_or (SystemState.data_direction data)
                                          "NEUTRAL";
                  e_success := success;
                  e_return :=
                    SystemState.number_or (SystemState.data_return data)
                                          0%float;
                  e_confidence :=
                    SystemState.number_or (SystemState.data_confidence data)
                                          0%float;
                  e_timestamp :=
                    SystemState.number_or (SystemState.data_timestamp data)
                                          now |}
      end
  end.

(** The entries stored by the payloads [ds], recorded one after the other
    from world [w], in recording order. *)
Fixpoint stored (ds : list (option SystemState.Data)) (w : World)
  : list Entry :=
  match ds with
  | [] => []
  | data :: rest =>
      match accepted data (clock w (clockReads w)) with
      | Some e => e :: stored rest (snd (SystemState.recordDecision data w))
      | None => stored rest (snd (SystemState.recordDecision data w))
      end
  end.

(** The sum of the totals of a report. *)
Definition totals (buckets : list PerformanceAnalysis.Bucket) : nat :=
  fold_right (fun b n => (PerformanceAnalysis.total b + n)%nat) 0%nat buckets.

(** A bucket whose counters add up. *)
Definition bucket_ok (b : PerformanceAnalysis.Bucket) : Prop :=
  PerformanceAnalysis.total b =
    (PerformanceAnalysis.b_correct b + PerformanceAnalysis.b_incorrect b
     + PerformanceAnalysis.b_neutral b)%nat.

(** How many decisions of [h] carry the timeframe [tf] and satisfy [p]. *)
Definition count_tf (tf : string) (p : Decision -> bool) (h : list Decision)
  : nat :=
  length (filter (fun d => String.eqb (timeframe d) tf && p d) h).

(** The counters of the timeframe [tf] over the history [h]. *)
Definition tf_tally (tf : string) (h : list Decision)
  : DecisionEvaluator.TimeframeStats :=
  {| DecisionEvaluator.tf_total := count_tf tf (fun _ => true) h;
     DecisionEvaluator.tf_pending :=
       count_tf tf (fun d => DecisionEvaluator.status_eqb (status d) pending) h;
     DecisionEvaluator.tf_ready :=
       count_tf tf (fun d => DecisionEvaluator.status_eqb (status d) ready) h;
     DecisionEvaluator.tf_evaluated :=
       count_tf tf
         (fun d => DecisionEvaluator.status_eqb (status d) evaluated) h;
     DecisionEvaluator.tf_correct :=
       count_tf tf (Vocabulary.has_outcome correct) h;
     DecisionEvaluator.tf_incorrect :=
       count_tf tf (Vocabulary.has_outcome incorrect) h;
     DecisionEvaluator.tf_neutral :=
       count_tf tf (Vocabulary.has_outcome neutral) h;
     DecisionEvaluator.tf_accuracy := 0%float |}.

(** What the [stats] object holds for [tf] after the decisions [done]. *)
Definition tf_expected (tf : string) (done : list Decision)
  : option DecisionEvaluator.TimeframeStats :=
  if existsb (String.eqb tf) DecisionEvaluator.Object_prototype_names
     || (count_tf tf (fun _ => true) done =? 0)%nat
  then None else Some (tf_tally tf done).

End Runs.

(* ================================================================== *)
(** ** Vocabulary of the engine's properties *)
(* ================================================================== *)

Module Rules.
Import JS Engine.
Local Open Scope float_scope.

(** A number that is NaN or lies in [0, 100]. *)
Definition nan_or_percentage (x : number) : Prop :=
  is_nan x = true \/ (le 0 x = true /\ le x 100 = true).

(** How direction and confidence follow from the total score once the
    threshold in force is [t]. *)
Definition direction_rule (totalScore t : number) (config : Config)
           (indicators : Indicators) (r : Direction) : Prop :=
  (dir_direction r = "BUY"%string <->
   gt totalScore t = true /\
   ~ (trendFilter config = true /\
      ind_trend indicators = "downtrend"%string)) /\
  (dir_direction r = "SELL"%string <->
   gt totalScore t = false /\ lt totalScore (- t) = true /\
   ~ (trendFilter config = true /\
      ind_trend indicators = "uptrend"%string)) /\
  (dir_direction r <> "BUY"%string -> dir_direction r <> "SELL"%string ->
   dir_direction r = "NEUTRAL"%string) /\
  dir_confidence r =
    Math_min [100; Math_max [0; (abs totalScore / (t * 2)) * 100]].

(** The threshold of a trading mode when no finite override is given. *)
Definition mode_threshold (mode : string) : number :=
  if String.eqb mode "aggressive" then 10
  else if String.eqb mode "conservative" then 40
  else 25.

(** No finite override: the property is missing or not a finite number. *)
Definition no_override (config : Config) : Prop :=
  forall t, backtestThreshold config = Some t -> Number_isFinite t = false.

(** A magnitude no score other than the MACD's comes near: the RSI, trend,
    OCC and STC-CCI scores are taken from fixed tables and the Stochastic
    RSI and MFI scores are [(v - 50) * 2] for a percentage [v]. *)
Definition score_bound : number := 1e291.

(** A score that is skipped by the sum (not finite) or within the bound. *)
Definition modest (x : number) : bool :=
  negb (Number_isFinite x) || le (abs x) score_bound.

(** A score set whose scores other than the MACD's are modest; the MACD
    score [(macd / atr) * 50] may be any number. *)
Definition receivable (s : IndicatorScores) : bool :=
  forallb (fun f => modest (score (f s)))
          [rsi; stochRsi; mfi; trend; occ; stcCci].

(** The typical price of candle [i], as [calculateMFI] computes it. *)
Definition typical (highs lows closes : list number) (i : nat) : number :=
  (get highs i + get lows i + get closes i) / 3.

(** No candle visited by the loop of [calculateMFI] has a typical price
    below that of the candle before it. *)
Definition never_declines (highs lows closes : list number) (period : nat)
  : bool :=
  forallb (fun i => negb (lt (typical highs lows closes i)
                             (typical highs lows closes (i - 1))))
          (range 1 (Nat.min (period + 1) (length closes))).

(** The three outcomes of [calculateOCC]. *)
Definition occ_outcome (o : Occ) : Prop :=
  (occ_signal o = "BUY"%string /\ occ_value o = 50 /\
   occ_crossover o = true) \/
  (occ_signal o = "SELL"%string /\ occ_value o = -50 /\
   occ_crossover o = true) \/
  (occ_signal o = "NEUTRAL"%string /\ occ_value o = 0 /\
   occ_crossover o = false).

(** The loop body of [calculateEMAArray], for any update [g] of the
    running average. *)
Definition series_step (g : number -> nat -> number)
           (acc : number * list (option number)) (i : nat)
  : number * list (option number) :=
  (g (fst acc) i, array_set (Some nan) i (Some (g (fst acc) i)) (snd acc)).

End Rules.

(* ================================================================== *)
(** ** Vocabulary of the reports and of the insights *)
(* ================================================================== *)

Module Reporting.
Import JS Host PerformanceAnalysis StrategyInsights.
Local Open Scope float_scope.

(** The position of the bucket a decision is counted in by each report;
    [None] when the regime report counts it in no bucket. *)
Definition regime_index (d : Decision) : option nat :=
  match regime_target (marketRegime (marketContext d)) with
  | regime_bucket i => Some i
  | regime_inherited => None
  end.

Definition volatility_index (d : Decision) : option nat :=
  Some (bucket_index volatility_ranges
          (relativeVolatility (marketContext d))).

Definition confidence_index (d : Decision) : option nat :=
  Some (bucket_index confidence_ranges (confidence d)).

Definition counted (index : Decision -> option nat) (d : Decision) : bool :=
  match index d with Some _ => true | None => false end.

(** The decisions of [ev] that [index] sends to position [i]. *)
Definition sent_to (index : Decision -> option nat) (i : nat)
           (ev : list Decision) : list Decision :=
  filter (fun d => match index d with
                   | Some j => Nat.eqb j i
                   | None => false
                   end) ev.

(** A bucket filled with the decisions [l] alone, then finalized. *)
Definition tally (label : string) (l : list Decision) : Bucket :=
  finalizeBucket (fold_left updateBucket l (initBucket label)).

(** The loop shared by the three reports. *)
Definition fill (index : Decision -> option nat) (ev : list Decision)
           (buckets : list Bucket) : list Bucket :=
  fold_left
    (fun bs d =>
       match index d with
       | Some i => update_bucket_at i (fun b => updateBucket b d) bs
       | None => bs
       end) ev buckets.

Definition regime_labels : list string :=
  ["uptrend"; "downtrend"; "sideways"; "unknown"]%string.

(** The buckets of the three reports with the prefix [classifyBucket] is
    called with, in the order of the calls. *)
Definition labelled (reports : Reports) : list (string * Bucket) :=
  map (pair "Regime"%string) (byMarketRegime reports)
  ++ map (pair "Volatilidade"%string) (byVolatilityRange reports)
  ++ map (pair "Confianca"%string) (byConfidenceRange reports).

Definition is_positive (pb : string * Bucket) : bool :=
  (10 <=? total (snd pb))%nat && ge (accuracy (snd pb)) 60.

Definition is_negative (pb : string * Bucket) : bool :=
  (10 <=? total (snd pb))%nat && le (accuracy (snd pb)) 40.

Definition praise (pb : string * Bucket) : Message :=
  good_performance (fst pb) (label (snd pb)) (accuracy (snd pb)).

Definition blame (pb : string * Bucket) : Message :=
  low_performance (fst pb) (label (snd pb)) (accuracy (snd pb)).

Definition advice (pb : string * Bucket) : Message :=
  reduce_exposure (fst pb) (label (snd pb)).

End Reporting.

(* ================================================================== *)
(** ** Facts about binary64 numbers *)
(* ================================================================== *)

Section FloatFacts.
Local Open Scope float_scope.

(** A finite number is a signed zero or a signed mantissa and exponent. *)
Lemma finite_shape (x : float) :
  is_finite x = true ->
  (exists s, Prim2SF x = S754_zero s) \/
  (exists s m e, Prim2SF x = S754_finite s m e).
Proof.
  unfold is_finite, is_nan, is_infinity. intros H.
  apply negb_true_iff, orb_false_iff in H. destruct H as [Hn Hi].
  apply negb_false_iff in Hn.
  rewrite FloatAxioms.eqb_spec in Hn, Hi. rewrite abs_spec in Hi.
  destruct (Prim2SF x) as [s | s | | s m e].
  - left; eauto.
  - exfalso. change (Prim2SF infinity) with (S754_infinity false) in Hi.
    simpl in Hi. discriminate.
  - discriminate.
  - right; eauto.
Qed.

(** [x - x] is [+0] for every finite [x] (it is NaN for an infinity). *)
Lemma sub_diag_finite (x : float) : is_finite x = true -> x - x = 0.
Proof.
  intros H. apply Prim2SF_inj. rewrite sub_spec.
  destruct (finite_shape x H) as [[s E] | [s [m [e E]]]]; rewrite E.
  - destruct s; reflexivity.
  - change (Prim2SF 0) with (S754_zero false).
    unfold SF64sub, SFsub. rewrite Z.sub_diag. reflexivity.
Qed.

(** When [x - x] compares equal to zero it is [+0]; this excludes exactly
    the infinities and NaN, for which [x - x] is NaN. *)
Lemma sub_diag_zero (x : float) : (x - x =? 0) = true -> x - x = 0.
Proof.
  intros H. rewrite FloatAxioms.eqb_spec, sub_spec in H.
  apply Prim2SF_inj. rewrite sub_spec.
  destruct (Prim2SF x) as [s | s | | s m e].
  - destruct s; reflexivity.
  - destruct s; discriminate.
  - discriminate.
  - change (Prim2SF 0) with (S754_zero false).
    unfold SF64sub, SFsub. rewrite Z.sub_diag. reflexivity.
Qed.

(** No number is both above [0.1] and below [-0.1]. *)
Lemma above_not_below (x : float) :
  (0.1 <? x) = true -> (x <? - 0.1) = false.
Proof.
  rewrite !ltb_spec.
  replace (Prim2SF (- 0.1)) with (S754_finite true 7205759403792794 (-56))
    by (vm_compute; reflexivity).
  replace (Prim2SF 0.1) with (S754_finite false 7205759403792794 (-56))
    by (vm_compute; reflexivity).
  destruct (Prim2SF x) as [s | s | | s m e]; try destruct s; simpl;
    try reflexivity; try discriminate.
Qed.

End FloatFacts.

(* ================================================================== *)
(** ** Sums of binary64 numbers that cannot overflow *)
(* ================================================================== *)

Section AdditionFacts.
Local Open Scope Z_scope.

Lemma digits2_pos_bounds (m : positive) :
  2 ^ (Z.pos (digits2_pos m) - 1) <= Z.pos m < 2 ^ Z.pos (digits2_pos m).
Proof.
  induction m as [m IH|m IH|]; cbn [digits2_pos];
    [| |change (1 <= 1 < 2); lia].
  - rewrite Pos2Z.inj_succ, Pos2Z.inj_xI.
    replace (Z.succ (Z.pos (digits2_pos m)) - 1)
      with (Z.succ (Z.pos (digits2_pos m) - 1)) by lia.
    rewrite !Z.pow_succ_r by lia. lia.
  - rewrite Pos2Z.inj_succ, (Pos2Z.inj_xO m).
    replace (Z.succ (Z.pos (digits2_pos m)) - 1)
      with (Z.succ (Z.pos (digits2_pos m) - 1)) by lia.
    rewrite !Z.pow_succ_r by lia. lia.
Qed.

Lemma iter_xO_value (m d : positive) :
  Z.pos (Pos.iter xO m d) = Z.pos m * 2 ^ Z.pos d.
Proof.
  induction d as [|d IH] using Pos.peano_ind.
  - cbn. lia.
  - rewrite Pos.iter_succ, (Pos2Z.inj_xO (Pos.iter xO m d)), IH, Pos2Z.inj_succ,
      Z.pow_succ_r by lia. ring.
Qed.

Lemma shr_1_step (m0 k : Z) (r : shr_record) :
  0 <= m0 -> 0 <= k -> shr_m r = m0 / 2 ^ k ->
  shr_m (shr_1 r) = m0 / 2 ^ (k + 1) /\
  (shr_r (shr_1 r) = true -> 2 ^ (k + 1) <= 2 * (m0 mod 2 ^ (k + 1))).
Proof.
  intros Hm Hk Hr.
  assert (Hp : 0 < 2 ^ k) by (apply Z.pow_pos_nonneg; lia).
  assert (Hq : 0 <= m0 / 2 ^ k) by (apply Z.div_pos; lia).
  assert (Hstep : shr_m (shr_1 r) = shr_m r / 2 /\
                  shr_r (shr_1 r) = Z.odd (shr_m r)).
  { rewrite <- Z.div2_div. rewrite <- Hr in Hq.
    destruct r as [m r s]. cbn [shr_m] in Hq |- *.
    destruct m as [|[p|p|]|p]; try lia; split; reflexivity. }
  destruct Hstep as [H1 H2].
  rewrite Z.pow_add_r, Z.pow_1_r by lia. split.
  - rewrite H1, Hr. apply Z.div_div; lia.
  - intros Ho. rewrite H2, Hr in Ho.
    rewrite Z.rem_mul_r by lia.
    rewrite Zodd_mod in Ho. apply Z.eqb_eq in Ho. rewrite Ho.
    pose proof (Z.mod_pos_bound m0 (2 ^ k) Hp). lia.
Qed.

Lemma iter_shr_1 (m0 : Z) (p : positive) :
  forall (k : Z) (r : shr_record),
    0 <= m0 -> 0 <= k -> shr_m r = m0 / 2 ^ k ->
    shr_m (SpecFloat.iter_pos shr_1 p r) = m0 / 2 ^ (k + Z.pos p) /\
    (shr_r (SpecFloat.iter_pos shr_1 p r) = true ->
     2 ^ (k + Z.pos p) <= 2 * (m0 mod 2 ^ (k + Z.pos p))).
Proof.
  induction p as [p IH|p IH|]; intros k r Hm Hk Hr; cbn [SpecFloat.iter_pos].
  - destruct (shr_1_step m0 k r Hm Hk Hr) as [H1 _].
    destruct (IH (k + 1) (shr_1 r) Hm ltac:(lia) H1) as [H2 _].
    replace (k + Z.pos p~1) with (k + 1 + Z.pos p + Z.pos p) by lia.
    apply IH; [exact Hm|lia|exact H2].
  - destruct (IH k r Hm Hk Hr) as [H2 _].
    replace (k + Z.pos p~0) with (k + Z.pos p + Z.pos p) by lia.
    apply IH; [exact Hm|lia|exact H2].
  - now apply shr_1_step.
Qed.

Lemma round_up_only_on_bit (r : shr_record) :
  round_nearest_even (shr_m r) (loc_of_shr_record r) = shr_m r \/
  (shr_r r = true /\
   round_nearest_even (shr_m r) (loc_of_shr_record r) = shr_m r + 1).
Proof.
  destruct r as [m [|] [|]]; cbn; auto.
  destruct (Z.even m); auto.
Qed.

Lemma pow_lt_exponent (a b : Z) : 0 <= a -> 2 ^ a < 2 ^ b -> a < b.
Proof.
  intros Ha H. destruct (Z.lt_ge_cases a b) as [|Hge]; [assumption|].
  pose proof (Z.pow_le_mono_r 2 b a ltac:(lia) Hge). lia.
Qed.

(** The second shift of [binary_round_aux] cannot overflow below 2^1024. *)
Lemma second_shift_finite (s : bool) (m2 e1 : Z) :
  0 <= m2 -> -1074 <= e1 <= 971 ->
  m2 * 2 ^ (e1 + 1074) < 2 ^ 2098 ->
  match (let '(mrs, e) := shr_fexp prec emax m2 e1 loc_Exact in
         match shr_m mrs with
         | Z0 => S754_zero s
         | Zpos m => if e <=? emax - prec then S754_finite s m e
                     else S754_infinity s
         | Zneg _ => S754_nan
         end) with
  | S754_infinity _ | S754_nan => False
  | _ => True
  end.
Proof.
  intros Hm He Hv. unfold shr_fexp, shr, shr_record_of_loc.
  destruct m2 as [|m|m]; [| |lia].
  - cbn [Zdigits2]. destruct (fexp prec emax (0 + e1) - e1) as [|q|q];
      cbn [shr_m]; try exact I.
    destruct (iter_shr_1 0 q 0 {| shr_m := 0; shr_r := false; shr_s := false |}
                ltac:(lia) ltac:(lia) eq_refl) as [H _].
    rewrite H, Z.div_0_l by (apply Z.pow_nonzero; lia). exact I.
  - cbn [Zdigits2].
    pose proof (digits2_pos_bounds m) as [Hd _].
    assert (Hdig : Z.pos (digits2_pos m) + e1 <= 1024).
    { assert (2 ^ (Z.pos (digits2_pos m) - 1 + (e1 + 1074)) < 2 ^ 2098).
      { rewrite Z.pow_add_r by lia.
        eapply Z.le_lt_trans; [|exact Hv].
        apply Z.mul_le_mono_nonneg_r; [apply Z.pow_nonneg; lia|exact Hd]. }
      apply pow_lt_exponent in H; lia. }
    assert (Hfexp : fexp prec emax (Z.pos (digits2_pos m) + e1) <= 971).
    { unfold fexp, emin, prec, emax. lia. }
    destruct (fexp prec emax (Z.pos (digits2_pos m) + e1) - e1)
      as [|q|q] eqn:Hn; cbn [shr_m].
    + destruct (Z.leb_spec e1 (emax - prec)); [exact I|].
      unfold emax, prec in *; lia.
    + destruct (iter_shr_1 (Z.pos m) q 0
                  {| shr_m := Z.pos m; shr_r := false; shr_s := false |}
                  ltac:(lia) ltac:(lia)) as [H _].
      { cbn [shr_m]. now rewrite Z.pow_0_r, Z.div_1_r. }
      assert (0 <= Z.pos m / 2 ^ (0 + Z.pos q))
        by (apply Z.div_pos; [lia|apply Z.pow_pos_nonneg; lia]).
      destruct (shr_m _) as [|m'|m'] eqn:Hs; [exact I| |lia].
      destruct (Z.leb_spec (e1 + Z.pos q) (emax - prec)); [exact I|].
      unfold emax, prec in *; lia.
    + destruct (Z.leb_spec e1 (emax - prec)); [exact I|].
      unfold emax, prec in *; lia.
Qed.

Lemma round_aux_finite (s : bool) (mz : positive) (ez : Z) :
  -1074 <= ez <= 971 ->
  Z.pos mz * 2 ^ (ez + 1074) < 2 ^ 2098 - 2 ^ 2044 ->
  match binary_round_aux prec emax s (Z.pos mz) ez loc_Exact with
  | S754_infinity _ | S754_nan => False
  | _ => True
  end.
Proof.
  intros He Hv. unfold binary_round_aux.
  pose proof (digits2_pos_bounds mz) as [Hd _].
  assert (HE : 0 < 2 ^ (ez + 1074)) by (apply Z.pow_pos_nonneg; lia).
  assert (Hdig : Z.pos (digits2_pos mz) + ez <= 1024).
  { assert (2 ^ (Z.pos (digits2_pos mz) - 1 + (ez + 1074)) < 2 ^ 2098).
    { rewrite Z.pow_add_r by lia.
      eapply Z.le_lt_trans; [|eapply Z.lt_trans; [exact Hv|lia]].
      apply Z.mul_le_mono_nonneg_r; [lia|exact Hd]. }
    apply pow_lt_exponent in H; lia. }
  unfold shr_fexp at 1. unfold shr, shr_record_of_loc. cbn [Zdigits2].
  destruct (fexp prec emax (Z.pos (digits2_pos mz) + ez) - ez)
    as [|p|p] eqn:Hn.
  - cbn [shr_m loc_of_shr_record round_nearest_even].
    apply second_shift_finite; lia.
  - set (r0 := {| shr_m := Z.pos mz; shr_r := false; shr_s := false |}).
    destruct (iter_shr_1 (Z.pos mz) p 0 r0 ltac:(lia) ltac:(lia)) as [H1 H2].
    { cbn [shr_m r0]. now rewrite Z.pow_0_r, Z.div_1_r. }
    rewrite Z.add_0_l in H1, H2.
    assert (HP : 0 < 2 ^ Z.pos p) by (apply Z.pow_pos_nonneg; lia).
    assert (He1 : ez + Z.pos p <= 971).
    { rewrite <- Hn. unfold fexp, emin, prec, emax in *. lia. }
    pose proof (Z.div_mod (Z.pos mz) (2 ^ Z.pos p) ltac:(lia)) as Hdm.
    pose proof (Z.mod_pos_bound (Z.pos mz) (2 ^ Z.pos p) HP) as Hrem.
    assert (Hq : 0 <= Z.pos mz / 2 ^ Z.pos p) by (apply Z.div_pos; lia).
    assert (Hpow : 2 ^ (ez + Z.pos p + 1074)
                   = 2 ^ Z.pos p * 2 ^ (ez + 1074)).
    { rewrite <- Z.pow_add_r by lia. f_equal. lia. }
    assert (Hbig : 2 ^ (ez + Z.pos p + 1074) <= 2 ^ 2045)
      by (apply Z.pow_le_mono_r; lia).
    apply second_shift_finite; [| lia |].
    + destruct (round_up_only_on_bit (SpecFloat.iter_pos shr_1 p r0)) as [E|[_ E]];
        rewrite E, H1; lia.
    + rewrite Hpow in *.
      set (P := 2 ^ Z.pos p) in *. set (E := 2 ^ (ez + 1074)) in *.
      set (q := Z.pos mz / P) in *. set (rem := Z.pos mz mod P) in *.
      destruct (round_up_only_on_bit (SpecFloat.iter_pos shr_1 p r0)) as [E'|[Hb E']];
        rewrite E', H1.
      * assert (q * (P * E) <= Z.pos mz * E) by nia. lia.
      * specialize (H2 Hb).
        assert (2 * ((q + 1) * (P * E)) <= 2 * (Z.pos mz * E) + P * E)
          by nia.
        lia.
  - cbn [shr_m loc_of_shr_record round_nearest_even].
    apply second_shift_finite; lia.
Qed.

Lemma binary_round_finite (s : bool) (m : positive) (e : Z) :
  -1074 <= e <= 971 ->
  Z.pos m * 2 ^ (e + 1074) < 2 ^ 2098 - 2 ^ 2044 ->
  match binary_round prec emax s m e with
  | S754_infinity _ | S754_nan => False
  | _ => True
  end.
Proof.
  intros He Hv. unfold binary_round, shl_align.
  assert (Hf : -1074 <= fexp prec emax (Z.pos (digits2_pos m) + e))
    by (unfold fexp, emin, prec, emax; lia).
  destruct (fexp prec emax (Z.pos (digits2_pos m) + e) - e) as [|d|d] eqn:Hd.
  - now apply round_aux_finite.
  - now apply round_aux_finite.
  - apply round_aux_finite; [lia|].
    rewrite iter_xO_value, <- Z.mul_assoc, <- Z.pow_add_r by lia.
    replace (Z.pos d + (fexp prec emax (Z.pos (digits2_pos m) + e) + 1074))
      with (e + 1074) by lia.
    exact Hv.
Qed.

Lemma shl_align_value (m : positive) (e ez : Z) :
  -1074 <= ez <= e ->
  Z.pos (fst (shl_align m e ez)) * 2 ^ (ez + 1074)
    = Z.pos m * 2 ^ (e + 1074).
Proof.
  intros H. unfold shl_align.
  destruct (ez - e) as [|d|d] eqn:Hd; cbn [fst].
  - f_equal. f_equal. lia.
  - lia.
  - rewrite iter_xO_value, <- Z.mul_assoc, <- Z.pow_add_r by lia.
    f_equal. f_equal. lia.
Qed.

Lemma SFadd_finite (sx : bool) (mx : positive) (ex : Z)
      (sy : bool) (my : positive) (ey : Z) :
  -1074 <= ex <= 971 -> -1074 <= ey <= 971 ->
  Z.pos mx * 2 ^ (ex + 1074) + Z.pos my * 2 ^ (ey + 1074)
    < 2 ^ 2098 - 2 ^ 2044 ->
  match SFadd prec emax (S754_finite sx mx ex) (S754_finite sy my ey) with
  | S754_infinity _ | S754_nan => False
  | _ => True
  end.
Proof.
  intros Hx Hy Hv. cbn [SFadd]. cbv zeta.
  pose proof (shl_align_value mx ex (Z.min ex ey) ltac:(lia)) as Ha.
  pose proof (shl_align_value my ey (Z.min ex ey) ltac:(lia)) as Hb.
  set (A := Z.pos (fst (shl_align mx ex (Z.min ex ey)))) in *.
  set (B := Z.pos (fst (shl_align my ey (Z.min ex ey)))) in *.
  assert (HE : 0 < 2 ^ (Z.min ex ey + 1074))
    by (apply Z.pow_pos_nonneg; lia).
  assert (HA : 0 < A) by (unfold A; lia).
  assert (HB : 0 < B) by (unfold B; lia).
  unfold binary_normalize.
  destruct (cond_Zopp sx A + cond_Zopp sy B) as [|m|m] eqn:HM; [exact I| |].
  - apply binary_round_finite; [lia|].
    assert (Z.pos m <= A + B) by (destruct sx, sy; cbn [cond_Zopp] in HM; lia).
    assert (Z.pos m * 2 ^ (Z.min ex ey + 1074)
            <= (A + B) * 2 ^ (Z.min ex ey + 1074))
      by (apply Z.mul_le_mono_nonneg_r; lia).
    lia.
  - apply binary_round_finite; [lia|].
    assert (Z.pos m <= A + B) by (destruct sx, sy; cbn [cond_Zopp] in HM; lia).
    assert (Z.pos m * 2 ^ (Z.min ex ey + 1074)
            <= (A + B) * 2 ^ (Z.min ex ey + 1074))
      by (apply Z.mul_le_mono_nonneg_r; lia).
    lia.
Qed.

Local Open Scope float_scope.

Lemma is_finite_shape (x : float) :
  is_finite x = match Prim2SF x with
                | S754_zero _ | S754_finite _ _ _ => true
                | _ => false
                end.
Proof.
  unfold is_finite, is_nan, is_infinity.
  rewrite !FloatAxioms.eqb_spec, abs_spec.
  change (Prim2SF infinity) with (S754_infinity false).
  destruct (Prim2SF x) as [s|s| |s m e]; try destruct s; try reflexivity;
    unfold SFeqb, SFabs, SFcompare;
    rewrite Z.compare_refl, Pos.compare_cont_refl; reflexivity.
Qed.

(** The exponent and mantissa of a binary64 number are in range. *)
Lemma valid_finite (x : float) (s : bool) (m : positive) (e : Z) :
  Prim2SF x = S754_finite s m e ->
  (-1074 <= e <= 971)%Z /\ (Z.pos m < 2 ^ 53)%Z.
Proof.
  intros E. pose proof (Prim2SF_valid x) as H. rewrite E in H.
  unfold valid_binary, bounded, canonical_mantissa in H.
  apply andb_true_iff in H as [H1 H2].
  apply Z.eqb_eq in H1. apply Z.leb_le in H2.
  unfold fexp, emin, prec, emax in *.
  pose proof (digits2_pos_bounds m) as [_ Hd].
  split; [lia|].
  eapply Z.lt_le_trans; [exact Hd|]. apply Z.pow_le_mono_r; lia.
Qed.

(** A number of magnitude at most 1e291 is below 2^970. *)
Lemma small_finite (x : float) (s : bool) (m : positive) (e : Z) :
  Prim2SF x = S754_finite s m e -> (abs x <=? 1e291) = true ->
  (Z.pos m * 2 ^ (e + 1074) < 2 ^ 2044)%Z.
Proof.
  intros E H. destruct (valid_finite x s m e E) as [He Hm].
  rewrite leb_spec, abs_spec, E in H.
  replace (Prim2SF 1e291) with (S754_finite false 7220777503459318 914)
    in H by (vm_compute; reflexivity).
  unfold SFleb, SFabs, SFcompare in H.
  assert (Hexp : (e <= 914)%Z).
  { destruct (Z.compare_spec e 914); [lia|lia|discriminate]. }
  assert (Hpow : (2 ^ (e + 1074) <= 2 ^ 1988)%Z)
    by (apply Z.pow_le_mono_r; lia).
  assert (0 < 2 ^ (e + 1074))%Z by (apply Z.pow_pos_nonneg; lia).
  assert (Hlow : (Z.pos m * 2 ^ (e + 1074) <= Z.pos m * 2 ^ 1988)%Z)
    by (apply Z.mul_le_mono_nonneg_l; lia).
  assert (Hhigh : (Z.pos m * 2 ^ 1988 < 2 ^ 53 * 2 ^ 1988)%Z)
    by (apply Z.mul_lt_mono_pos_r; lia).
  eapply Z.le_lt_trans; [exact Hlow|].
  eapply Z.lt_le_trans; [exact Hhigh|].
  rewrite <- Z.pow_add_r by lia. apply Z.pow_le_mono_r; lia.
Qed.

Lemma any_finite (x : float) (s : bool) (m : positive) (e : Z) :
  Prim2SF x = S754_finite s m e ->
  (Z.pos m * 2 ^ (e + 1074) <= 2 ^ 2098 - 2 ^ 2045)%Z.
Proof.
  intros E. destruct (valid_finite x s m e E) as [He Hm].
  assert (Hpow : (2 ^ (e + 1074) <= 2 ^ 2045)%Z)
    by (apply Z.pow_le_mono_r; lia).
  assert (0 < 2 ^ (e + 1074))%Z by (apply Z.pow_pos_nonneg; lia).
  assert (Hle : (Z.pos m * 2 ^ (e + 1074) <= (2 ^ 53 - 1) * 2 ^ 2045)%Z).
  { apply Z.mul_le_mono_nonneg; lia. }
  eapply Z.le_trans; [exact Hle|].
  replace (2 ^ 2098)%Z with (2 ^ 53 * 2 ^ 2045)%Z
    by (rewrite <- Z.pow_add_r by lia; reflexivity).
  lia.
Qed.

(** A sum of two finite numbers, one of them of magnitude at most 1e291,
    never overflows: the other is at most the largest binary64 number, and
    less than half a unit in the last place (2^970) is added to it. *)
Lemma add_small_finite (a b : float) :
  is_finite a = true -> is_finite b = true ->
  (abs a <=? 1e291) = true \/ (abs b <=? 1e291) = true ->
  is_finite (a + b) = true.
Proof.
  rewrite !is_finite_shape, add_spec. intros Ha Hb Hsmall.
  destruct (Prim2SF a) as [sa|sa| |sa ma ea] eqn:Ea; try discriminate;
    destruct (Prim2SF b) as [sb|sb| |sb mb eb] eqn:Eb; try discriminate.
  - destruct sa, sb; reflexivity.
  - reflexivity.
  - reflexivity.
  - destruct (valid_finite a sa ma ea Ea) as [Hea _].
    destruct (valid_finite b sb mb eb Eb) as [Heb _].
    pose proof (any_finite a sa ma ea Ea) as Ba.
    pose proof (any_finite b sb mb eb Eb) as Bb.
    assert (Hv : (Z.pos ma * 2 ^ (ea + 1074) + Z.pos mb * 2 ^ (eb + 1074)
                  < 2 ^ 2098 - 2 ^ 2044)%Z).
    { assert (2 ^ 2045 = 2 * 2 ^ 2044)%Z by reflexivity.
      destruct Hsmall as [Hs|Hs].
      - pose proof (small_finite a sa ma ea Ea Hs). lia.
      - pose proof (small_finite b sb mb eb Eb Hs). lia. }
    pose proof (SFadd_finite sa ma ea sb mb eb Hea Heb Hv) as H.
    unfold SF64add. destruct (SFadd prec emax _ _); auto.
Qed.

(** Adding to [+0] keeps a number within the bound. *)
Lemma zero_add_small (x : float) :
  is_finite x = true -> (abs x <=? 1e291) = true ->
  is_finite (0 + x) = true /\ (abs (0 + x) <=? 1e291) = true.
Proof.
  rewrite !is_finite_shape, !leb_spec, !abs_spec, add_spec.
  change (Prim2SF 0) with (S754_zero false).
  replace (Prim2SF 1e291) with (S754_finite false 7220777503459318 914)
    by (vm_compute; reflexivity).
  destruct (Prim2SF x) as [s|s| |s m e]; try discriminate.
  - intros _ _. destruct s; split; reflexivity.
  - intros _ H. split; [reflexivity|exact H].
Qed.

End AdditionFacts.

(* ================================================================== *)
(** ** Evaluation of a ready decision *)
(* ================================================================== *)

Section EvaluateDecision.
Import JS Host DecisionEvaluator.
Local Open Scope float_scope.

Lemma classify_buy (pc : number) :
  (classify "BUY" pc = correct <-> gt pc 0.1 = true) /\
  (classify "BUY" pc = incorrect <-> lt pc (- 0.1) = true) /\
  (classify "BUY" pc = neutral <->
     gt pc 0.1 = false /\ lt pc (- 0.1) = false).
Proof.
  unfold classify, gt, lt; simpl.
  pose proof (above_not_below pc) as Hex.
  destruct (0.1 <? pc) eqn:Ha; destruct (pc <? - 0.1) eqn:Hb;
    try (specialize (Hex eq_refl); discriminate);
    repeat split; intros; try discriminate; try reflexivity;
    try (destruct H; discriminate); auto.
Qed.

Lemma classify_sell (pc : number) :
  (classify "SELL" pc = correct <-> lt pc (- 0.1) = true) /\
  (classify "SELL" pc = incorrect <-> gt pc 0.1 = true) /\
  (classify "SELL" pc = neutral <->
     gt pc 0.1 = false /\ lt pc (- 0.1) = false).
Proof.
  unfold classify, gt, lt; simpl.
  pose proof (above_not_below pc) as Hex.
  destruct (0.1 <? pc) eqn:Ha; destruct (pc <? - 0.1) eqn:Hb;
    try (specialize (Hex eq_refl); discriminate);
    repeat split; intros; try discriminate; try reflexivity;
    try (destruct H; discriminate); auto.
Qed.

Lemma classify_other (dir : string) (pc : number) :
  dir <> "BUY"%string -> dir <> "SELL"%string -> classify dir pc = neutral.
Proof.
  intros Hb Hs. unfold classify.
  apply String.eqb_neq in Hb, Hs. rewrite Hb, Hs. reflexivity.
Qed.

(** What a call on a ready decision returns and leaves behind. *)
Lemma evaluateDecision_ready (d : Decision) (futurePrice : number) (w : World) :
  status d = ready ->
  exists w',
    evaluateDecision d futurePrice w =
      (Some (classify (direction d)
                      (((futurePrice - currentPrice d) / currentPrice d) * 100)),
       set_evaluation
         (Some {| result := classify (direction d)
                     (((futurePrice - currentPrice d) / currentPrice d) * 100);
                  futurePrice := futurePrice;
                  priceChange :=
                    ((futurePrice - currentPrice d) / currentPrice d) * 100;
                  evaluatedAt := clock w (clockReads w) |})
         (set_status evaluated d),
       w').
Proof.
  intros Hs. unfold evaluateDecision. rewrite Hs.
  cbn -[SystemState.recordDecision classify].
  unfold bind, ret, emit, Date_now, get_SystemState_loaded.
  cbn -[SystemState.recordDecision classify].
  destruct (SystemState_loaded w); cbn -[SystemState.recordDecision classify].
  - match goal with |- context [SystemState.recordDecision ?a ?b] =>
      destruct (SystemState.recordDecision a b) as [u w1] end.
    eexists; reflexivity.
  - eexists; reflexivity.
Qed.

(** C1: evaluating a ready decision returns a result, stores
    priceChange = (futurePrice - currentPrice) / currentPrice * 100 and
    classifies it with strict comparisons against 0.1: BUY is correct iff
    the change is above 0.1, incorrect iff it is below -0.1, neutral
    otherwise; SELL is mirrored; any other direction (NEUTRAL) is neutral;
    a change of exactly 0.1 is neutral for BUY and for SELL. *)
Theorem evaluateDecision_classification :
  forall (d : Decision) (futurePrice : number) (w : World),
    status d = ready ->
    let pc := ((futurePrice - currentPrice d) / currentPrice d) * 100 in
    exists res d' w' t,
      evaluateDecision d futurePrice w = (Some res, d', w') /\
      status d' = evaluated /\
      evaluation d' =
        Some {| result := res; futurePrice := futurePrice;
                priceChange := pc; evaluatedAt := t |} /\
      (direction d = "BUY"%string ->
         (res = correct <-> gt pc 0.1 = true) /\
         (res = incorrect <-> lt pc (- 0.1) = true) /\
         (res = neutral <-> gt pc 0.1 = false /\ lt pc (- 0.1) = false)) /\
      (direction d = "SELL"%string ->
         (res = correct <-> lt pc (- 0.1) = true) /\
         (res = incorrect <-> gt pc 0.1 = true) /\
         (res = neutral <-> gt pc 0.1 = false /\ lt pc (- 0.1) = false)) /\
      (direction d <> "BUY"%string -> direction d <> "SELL"%string ->
         res = neutral) /\
      (pc = 0.1 -> res = neutral).
Proof.
  intros d futurePrice w Hs pc.
  destruct (evaluateDecision_ready d futurePrice w Hs) as [w' E].
  fold pc in E.
  eexists (classify (direction d) pc), _, w', (clock w (clockReads w)).
  split; [exact E|]. split; [reflexivity|]. split; [reflexivity|].
  split; [|split; [|split]].
  - intros ->. apply classify_buy.
  - intros ->. apply classify_sell.
  - apply classify_other.
  - intros ->. unfold classify, gt, lt.
    destruct (String.eqb (direction d) "BUY");
      [|destruct (String.eqb (direction d) "SELL")]; reflexivity.
Qed.

(** Instance: a ready BUY recorded at 100 and evaluated at 105. *)
Lemma evaluateDecision_classification_witness :
  status (Samples.decision0 "BUY" ready) = ready /\
  fst (fst (evaluateDecision (Samples.decision0 "BUY" ready) 105
                             Samples.world0)) = Some correct.
Proof.
  split; [reflexivity|].
  destruct (evaluateDecision_classification
              (Samples.decision0 "BUY" ready) 105 Samples.world0 eq_refl)
    as (res & d' & w' & t & E & _ & _ & Hbuy & _).
  rewrite E. simpl. f_equal.
  apply (proj1 (Hbuy eq_refl)). reflexivity.
Defined.

End EvaluateDecision.

(* ================================================================== *)
(** ** Recording: horizon and bounded history *)
(* ================================================================== *)

Section Recording.
Import JS Host DecisionEvaluator Vocabulary.
Local Open Scope float_scope.

Lemma recordDecision_history (data : DecisionData) (w : World) :
  decisionHistory (snd (recordDecision data w)) =
    last_n 1000 (decisionHistory w ++ [created data w]).
Proof.
  unfold recordDecision, bind, Date_now, Math_random, get_decisionHistory,
    put_decisionHistory, emit, created, last_n.
  cbn -[Nat.ltb skipn Nat.sub newDecision getEvaluationHorizon].
  destruct (Nat.ltb_spec 1000
              (length (decisionHistory w ++
                 [newDecision data
                    (SystemState.number_or (dd_evaluationHorizon data)
                       (to_number (getEvaluationHorizon (dd_timeframe data))
                        * 60 * 1000))
                    (clock w (clockReads w)) (rng w (rngDraws w))
                    (clock w (S (clockReads w)))]))) as [Hlt|Hle].
  - reflexivity.
  - replace (_ - 1000)%nat with 0%nat by lia. reflexivity.
Qed.

Lemma last_n_length {A} (n : nat) (l : list A) :
  length (last_n n l) = Nat.min n (length l).
Proof. unfold last_n. rewrite length_skipn. lia. Qed.

Lemma last_n_app_last_n {A} (n : nat) (l r : list A) :
  last_n n (last_n n l ++ r) = last_n n (l ++ r).
Proof.
  unfold last_n.
  destruct (Nat.le_gt_cases (length l) n) as [Hle|Hgt].
  - replace (length l - n)%nat with 0%nat by lia. reflexivity.
  - rewrite !length_app, length_skipn.
    rewrite !skipn_app, skipn_skipn, length_skipn.
    f_equal; f_equal; lia.
Qed.

Lemma last_n_snoc {A} (n : nat) (l : list A) (x : A) :
  (0 < n)%nat -> exists older, last_n n (l ++ [x]) = older ++ [x].
Proof.
  intros Hn. unfold last_n. rewrite skipn_app, length_app. cbn [length].
  exists (skipn (length l + 1 - n) l).
  replace (length l + 1 - n - length l)%nat with 0%nat by lia. reflexivity.
Qed.

Lemma last_n_In {A} (n : nat) (l : list A) (x : A) :
  In x (last_n n l) -> In x l.
Proof.
  unfold last_n. intros H.
  rewrite <- (firstn_skipn (length l - n) l). apply in_or_app. now right.
Qed.

(** Recording touches no stored decision: what the history holds afterwards
    was there before or is the decision just created. *)
Lemma recordDecision_In (data : DecisionData) (w : World) (d : Decision) :
  In d (decisionHistory (snd (recordDecision data w))) ->
  In d (decisionHistory w) \/ d = created data w.
Proof.
  rewrite recordDecision_history. intros H. apply last_n_In in H.
  apply in_app_or in H. destruct H as [H|[H|[]]]; [now left|now right].
Qed.

Lemma not_inherited (tf : string) :
  ~ In tf Object_prototype_names ->
  existsb (String.eqb tf) Object_prototype_names = false.
Proof.
  intros Hn. destruct (existsb _ _) eqn:E; [|reflexivity].
  apply existsb_exists in E. destruct E as (x & Hin & Hx).
  apply String.eqb_eq in Hx. subst x. contradiction.
Qed.

Lemma created_horizon (data : DecisionData) (w : World) :
  evaluationHorizon (created data w) =
    SystemState.number_or (dd_evaluationHorizon data)
      (to_number (getEvaluationHorizon (dd_timeframe data)) * 60 * 1000).
Proof. reflexivity. Qed.

(** C4, as the code has it: the decision appended by [recordDecision] is
    pending and its horizon is the override when the payload carries one
    that is truthy (neither 0 nor NaN); otherwise it is the timeframe lookup
    1m: 180000, 5m: 900000, 15m: 2700000, 1h: 10800000, and 300000 for any
    other timeframe that is not the name of a member every object inherits
    (for such a name the horizon is NaN). *)
Theorem recorded_horizon :
  forall (data : DecisionData) (w : World),
  exists older d,
    decisionHistory (snd (recordDecision data w)) = older ++ [d] /\
    status d = pending /\
    (forall o, dd_evaluationHorizon data = Some o -> truthy o = true ->
       evaluationHorizon d = o) /\
    ((forall o, dd_evaluationHorizon data = Some o -> truthy o = false) ->
       (dd_timeframe data = "1m"%string -> evaluationHorizon d = 180000) /\
       (dd_timeframe data = "5m"%string -> evaluationHorizon d = 900000) /\
       (dd_timeframe data = "15m"%string -> evaluationHorizon d = 2700000) /\
       (dd_timeframe data = "1h"%string -> evaluationHorizon d = 10800000) /\
       (dd_timeframe data <> "1m"%string ->
        dd_timeframe data <> "5m"%string ->
        dd_timeframe data <> "15m"%string ->
        dd_timeframe data <> "1h"%string ->
        ~ In (dd_timeframe data) Object_prototype_names ->
        evaluationHorizon d = 300000) /\
       (In (dd_timeframe data) Object_prototype_names ->
        is_nan (evaluationHorizon d) = true)).
Proof.
  intros data w.
  destruct (last_n_snoc 1000 (decisionHistory w) (created data w)
              ltac:(lia)) as [older Hold].
  exists older, (created data w).
  split; [rewrite recordDecision_history; exact Hold|].
  split; [reflexivity|].
  rewrite created_horizon. split.
  - intros o Ho Ht. rewrite Ho. cbn. now rewrite Ht.
  - intros Hfalsy.
    assert (Hdef : forall x,
               SystemState.number_or (dd_evaluationHorizon data) x = x).
    { intros x. destruct (dd_evaluationHorizon data) as [o|] eqn:Ho;
        [cbn; now rewrite (Hfalsy o eq_refl)|reflexivity]. }
    rewrite Hdef. repeat apply conj.
    + intros ->. vm_compute. reflexivity.
    + intros ->. vm_compute. reflexivity.
    + intros ->. vm_compute. reflexivity.
    + intros ->. vm_compute. reflexivity.
    + intros H1 H5 H15 H60 Hn. unfold getEvaluationHorizon, horizonMap.
      apply String.eqb_neq in H1, H5, H15, H60.
      rewrite H1, H5, H15, H60, (not_inherited _ Hn).
      vm_compute. reflexivity.
    + intros Hin. cbn in Hin.
      repeat (destruct Hin as [<-|Hin]; [vm_compute; reflexivity|]).
      contradiction.
Qed.

(** Instance: timeframe "5m" with no override stores exactly 900000 ms. *)
Lemma recorded_horizon_witness :
  map evaluationHorizon
      (decisionHistory
         (snd (recordDecision (Samples.payload "BUY" "5m" None)
                              Samples.world0)))
    = [900000].
Proof.
  destruct (recorded_horizon (Samples.payload "BUY" "5m" None) Samples.world0)
    as (older & d & Hh & _ & _ & Htable).
  destruct (Htable ltac:(discriminate)) as (_ & H5 & _).
  specialize (H5 eq_refl).
  assert (Hold : older = []).
  { apply (f_equal (@length Decision)) in Hh.
    rewrite length_app in Hh. cbn in Hh.
    destruct older; [reflexivity|cbn in Hh; lia]. }
  rewrite Hh, Hold. cbn [map app]. now rewrite H5.
Defined.

(** C4 as stated fails twice: an explicit override of 0 ms is replaced by
    the timeframe lookup, and the timeframe "constructor" (found on the
    lookup object through its prototype) stores NaN, not 300000. *)
Lemma recorded_horizon_counterexample :
  map evaluationHorizon
      (decisionHistory
         (snd (recordDecision (Samples.payload "BUY" "5m" (Some 0))
                              Samples.world0)))
    = [900000] /\
  strict_eq 900000 0 = false /\
  map (fun d => strict_eq (evaluationHorizon d) 300000)
      (decisionHistory
         (snd (recordDecision (Samples.payload "BUY" "constructor" None)
                              Samples.world0)))
    = [false].
Proof. vm_compute. repeat split. Qed.

Lemma recorded_length (ds : list DecisionData) (w : World) :
  length (recorded ds w) = length ds.
Proof.
  revert w; induction ds as [|data rest IH]; intros w; cbn;
    [reflexivity|now rewrite IH].
Qed.

Lemma forEach_recordDecision_history (ds : list DecisionData) (w : World) :
  (length (decisionHistory w) <= 1000)%nat ->
  decisionHistory (snd (forEach ds recordDecision w)) =
    last_n 1000 (decisionHistory w ++ recorded ds w).
Proof.
  revert w; induction ds as [|data rest IH]; intros w Hlen.
  - cbn [forEach recorded]. unfold ret. cbn [snd].
    rewrite app_nil_r. unfold last_n.
    replace (_ - 1000)%nat with 0%nat by lia. reflexivity.
  - cbn [forEach recorded]. unfold bind.
    pose proof (recordDecision_history data w) as Hh.
    destruct (recordDecision data w) as [u w1]. cbn [snd] in *.
    rewrite IH by (rewrite Hh, last_n_length; lia).
    rewrite Hh, last_n_app_last_n, <- app_assoc. reflexivity.
Qed.

(** C5: recording any sequence of payloads, from a history within the
    bound, leaves at most 1000 entries: exactly the last 1000 of the earlier
    history followed by the newly created decisions, in recording order
    (all of them when there are at most 1000); the new decisions are the
    payloads in order, each pending; the call always returns. *)
Theorem history_bounded_fifo :
  forall (ds : list DecisionData) (w : World),
    (length (decisionHistory w) <= 1000)%nat ->
    let h' := decisionHistory (snd (forEach ds recordDecision w)) in
    let all := decisionHistory w ++ recorded ds w in
    (length h' <= 1000)%nat /\
    h' = skipn (length all - 1000) all /\
    (length all <= 1000 -> h' = all)%nat /\
    (1000 <= length all -> length h' = 1000)%nat /\
    length (recorded ds w) = length ds /\
    (forall i data,
       nth_error ds i = Some data ->
       exists d,
         nth_error (recorded ds w) i = Some d /\
         direction d = dd_direction data /\
         confidence d = dd_confidence data /\
         currentPrice d = dd_currentPrice data /\
         timeframe d = dd_timeframe data /\
         status d = pending /\ evaluation d = None).
Proof.
  intros ds w Hlen h' all.
  assert (Hh : h' = last_n 1000 all).
  { unfold h', all. now apply forEach_recordDecision_history. }
  split; [rewrite Hh, last_n_length; lia|].
  split; [exact Hh|].
  split; [intros Hle; rewrite Hh; unfold last_n;
          replace (_ - 1000)%nat with 0%nat by lia; reflexivity|].
  split; [intros Hge; rewrite Hh, last_n_length; lia|].
  split; [apply recorded_length|].
  clear. revert w. induction ds as [|data0 rest IH]; intros w i data Hi.
  - destruct i; discriminate.
  - destruct i as [|i]; cbn in Hi |- *.
    + injection Hi as <-. eexists; split; [reflexivity|].
      repeat split.
    + apply IH. exact Hi.
Qed.

(** Instance: 1003 recordings on a fresh page keep the last 1000. *)
Lemma history_bounded_fifo_witness :
  length (decisionHistory
            (snd (forEach (repeat (Samples.payload "BUY" "1m" None) 1003)
                          recordDecision Samples.world0))) = 1000%nat.
Proof.
  destruct (history_bounded_fifo
              (repeat (Samples.payload "BUY" "1m" None) 1003) Samples.world0
              ltac:(cbn; lia)) as (_ & _ & _ & Hfull & Hrec & _).
  apply Hfull. rewrite length_app, Hrec, repeat_length. cbn. lia.
Defined.

End Recording.

(* ================================================================== *)
(** ** The status lifecycle *)
(* ================================================================== *)

Section StatusLifecycle.
Import JS Host DecisionEvaluator Vocabulary.
Local Open Scope float_scope.

Lemma status_eqb_eq (a b : Status) : status_eqb a b = true <-> a = b.
Proof. destruct a, b; simpl; split; intros; congruence. Qed.

Lemma advance_status (now : number) (d : Decision) :
  status (advance now d) =
    if status_eqb (status d) pending && isDecisionReady d now
    then ready else status d.
Proof.
  unfold advance.
  destruct (status_eqb (status d) pending && isDecisionReady d now);
    reflexivity.
Qed.

Lemma advance_evaluation (now : number) (d : Decision) :
  evaluation (advance now d) = evaluation d.
Proof.
  unfold advance.
  destruct (status_eqb (status d) pending && isDecisionReady d now);
    reflexivity.
Qed.

Lemma updateDecisionStatuses_history (w : World) :
  decisionHistory (snd (updateDecisionStatuses w)) =
    map (advance (clock w (clockReads w))) (decisionHistory w).
Proof. reflexivity. Qed.

Lemma evaluateDecision_not_ready (d : Decision) (fp : number) (w : World) :
  status d <> ready -> evaluateDecision d fp w = (None, d, w).
Proof.
  intros H. unfold evaluateDecision.
  destruct (status d); try congruence; reflexivity.
Qed.

Lemma SystemState_recordDecision_history (data : option SystemState.Data)
      (w : World) :
  decisionHistory (snd (SystemState.recordDecision data w)) = decisionHistory w.
Proof.
  unfold SystemState.recordDecision.
  destruct data as [data|]; [|reflexivity].
  destruct (SystemState.data_success data); [|reflexivity].
  destruct (SystemState.data_timestamp data) as [t|];
    [destruct (truthy t)|]; reflexivity.
Qed.

Lemma evaluateDecision_history (d : Decision) (fp : number) (w : World) :
  decisionHistory (snd (evaluateDecision d fp w)) = decisionHistory w.
Proof.
  unfold evaluateDecision.
  destruct (negb (status_eqb (status d) ready)); [reflexivity|].
  unfold bind, ret, emit, Date_now, get_SystemState_loaded.
  cbn -[SystemState.recordDecision classify].
  destruct (SystemState_loaded w); [|reflexivity].
  match goal with |- context [SystemState.recordDecision ?a ?b] =>
    pose proof (SystemState_recordDecision_history a b) as Hh;
    destruct (SystemState.recordDecision a b) as [u w1] end.
  cbn in *. exact Hh.
Qed.

Lemma evaluateDecision_status (d : Decision) (fp : number) (w : World) :
  status d = ready ->
  status (snd (fst (evaluateDecision d fp w))) = evaluated /\
  evaluation (snd (fst (evaluateDecision d fp w))) <> None /\
  fst (fst (evaluateDecision d fp w)) <> None.
Proof.
  intros Hs. destruct (evaluateDecision_ready d fp w Hs) as [w' E].
  rewrite E. cbn. repeat split; discriminate.
Qed.

Lemma replace_at_same {A} (i : nat) (x y : A) (l : list A) :
  nth_error l i = Some y -> nth_error (replace_at i x l) i = Some x.
Proof.
  revert i; induction l as [|a l IH]; intros [|i] H; simpl in *;
    try discriminate; auto.
Qed.

Lemma replace_at_other {A} (i j : nat) (x : A) (l : list A) :
  i <> j -> nth_error (replace_at i x l) j = nth_error l j.
Proof.
  revert i j; induction l as [|a l IH]; intros [|i] [|j] H; simpl;
    try reflexivity; try congruence.
  apply IH. congruence.
Qed.

Lemma evaluateStored_history (i : nat) (fp : number) (w : World) :
  decisionHistory (snd (evaluateStored i fp w)) =
    match nth_error (decisionHistory w) i with
    | None => decisionHistory w
    | Some d =>
        replace_at i (snd (fst (evaluateDecision d fp w))) (decisionHistory w)
    end.
Proof.
  unfold evaluateStored, bind, get_decisionHistory, put_decisionHistory, ret.
  destruct (nth_error (decisionHistory w) i) as [d|]; [|reflexivity].
  pose proof (evaluateDecision_history d fp w) as Hh.
  destruct (evaluateDecision d fp w) as [[r d'] w1]. cbn in *.
  now rewrite Hh.
Qed.

(** The loop of [evaluatePendingDecisions]: every referenced decision that
    is ready ends evaluated, every other stored decision is left as it was. *)
Lemma evaluateEach_history (refs : list nat) (fp : number) :
  NoDup refs ->
  forall (n : nat) (w : World) (i : nat) (d : Decision),
    nth_error (decisionHistory w) i = Some d ->
    exists d',
      nth_error (decisionHistory (snd (evaluateEach refs fp n w))) i = Some d' /\
      (In i refs -> status d = ready ->
         status d' = evaluated /\ evaluation d' <> None) /\
      (~ In i refs \/ status d <> ready -> d' = d).
Proof.
  induction refs as [|j rest IH]; intros Hnd n w i d Hi.
  - exists d. cbn. split; [exact Hi|]. split; [intros []|reflexivity].
  - inversion Hnd as [|? ? Hnotin Hnd']; subst.
    cbn [evaluateEach]. unfold bind at 1.
    pose proof (evaluateStored_history j fp w) as Hst.
    destruct (evaluateStored j fp w) as [r w1]. cbn [snd] in Hst.
    destruct (Nat.eq_dec j i) as [->|Hne].
    + rewrite Hi in Hst.
      assert (H1 : nth_error (decisionHistory w1) i
                   = Some (snd (fst (evaluateDecision d fp w)))).
      { rewrite Hst. eapply replace_at_same; eauto. }
      destruct (IH Hnd'
                  (match r with Some _ => S n | None => n end) w1 i _ H1)
        as (d' & Hd' & _ & Hsame).
      exists d'. split; [exact Hd'|].
      rewrite (Hsame (or_introl Hnotin)).
      split.
      * intros _ Hs. pose proof (evaluateDecision_status d fp w Hs). tauto.
      * intros [Hn|Hs]; [exfalso; apply Hn; now left|].
        now rewrite (evaluateDecision_not_ready d fp w Hs).
    + assert (H1 : nth_error (decisionHistory w1) i = Some d).
      { rewrite Hst. destruct (nth_error (decisionHistory w) j);
          [rewrite replace_at_other by exact Hne|]; exact Hi. }
      destruct (IH Hnd'
                  (match r with Some _ => S n | None => n end) w1 i d H1)
        as (d' & Hd' & Hev & Hsame).
      exists d'. split; [exact Hd'|]. split.
      * intros [Heq|Hin]; [congruence|]. now apply Hev.
      * intros [Hn|Hs]; apply Hsame; [left|now right].
        intros Hin. apply Hn. now right.
Qed.

Lemma readyDecisions_NoDup (h : list Decision) : NoDup (readyDecisions h).
Proof. apply NoDup_filter, seq_NoDup. Qed.

Lemma readyDecisions_In (h : list Decision) (i : nat) (d : Decision) :
  nth_error h i = Some d ->
  (In i (readyDecisions h) <-> status d = ready).
Proof.
  intros Hi. unfold readyDecisions. rewrite filter_In, Hi, status_eqb_eq.
  rewrite in_seq. split; [tauto|]. intros Hs. split; [|exact Hs].
  split; [lia|]. apply nth_error_Some. congruence.
Qed.

(** One poll: every stored decision is first advanced with the clock
    reading, then evaluated if that leaves it ready. *)
Lemma evaluatePendingDecisions_history (price : number) (w : World)
      (i : nat) (d : Decision) :
  nth_error (decisionHistory w) i = Some d ->
  exists d',
    nth_error (decisionHistory (snd (evaluatePendingDecisions price w))) i
      = Some d' /\
    (status (advance (clock w (clockReads w)) d) = ready ->
       status d' = evaluated /\ evaluation d' <> None) /\
    (status (advance (clock w (clockReads w)) d) <> ready ->
       d' = advance (clock w (clockReads w)) d).
Proof.
  intros Hi. unfold evaluatePendingDecisions. unfold bind at 1.
  pose proof (updateDecisionStatuses_history w) as Hu.
  destruct (updateDecisionStatuses w) as [u w1]. cbn [snd] in Hu.
  unfold bind at 1. unfold get_decisionHistory at 1.
  set (now := clock w (clockReads w)) in *.
  assert (H1 : nth_error (decisionHistory w1) i = Some (advance now d)).
  { rewrite Hu, nth_error_map, Hi. reflexivity. }
  destruct (evaluateEach_history (readyDecisions (decisionHistory w1)) price
              (readyDecisions_NoDup _) 0 w1 i _ H1)
    as (d' & Hd' & Hev & Hsame).
  pose proof (readyDecisions_In _ _ _ H1) as Hin.
  exists d'. split.
  - unfold bind.
    destruct (evaluateEach (readyDecisions (decisionHistory w1)) price 0 w1)
      as [cnt w2]. cbn [snd] in Hd'.
    destruct (0 <? cnt)%nat; cbn; exact Hd'.
  - split.
    + intros Hs. apply Hev; [apply Hin|]; exact Hs.
    + intros Hs. apply Hsame. now right.
Qed.

Lemma replace_at_length {A} (i : nat) (x : A) (l : list A) :
  length (replace_at i x l) = length l.
Proof.
  revert i; induction l as [|a l IH]; intros [|i]; cbn; auto.
Qed.

Lemma evaluateEach_length (refs : list nat) (fp : number) (n : nat)
      (w : World) :
  length (decisionHistory (snd (evaluateEach refs fp n w)))
    = length (decisionHistory w).
Proof.
  revert n w; induction refs as [|j rest IH]; intros n w; [reflexivity|].
  cbn [evaluateEach]. unfold bind at 1.
  pose proof (evaluateStored_history j fp w) as Hst.
  destruct (evaluateStored j fp w) as [r w1]. cbn [snd] in Hst.
  rewrite IH, Hst.
  destruct (nth_error (decisionHistory w) j);
    [apply replace_at_length|reflexivity].
Qed.

Lemma evaluatePendingDecisions_length (price : number) (w : World) :
  length (decisionHistory (snd (evaluatePendingDecisions price w)))
    = length (decisionHistory w).
Proof.
  unfold evaluatePendingDecisions. unfold bind at 1.
  pose proof (updateDecisionStatuses_history w) as Hu.
  destruct (updateDecisionStatuses w) as [u w1]. cbn [snd] in Hu.
  unfold bind at 1. unfold get_decisionHistory at 1. unfold bind.
  pose proof (evaluateEach_length (readyDecisions (decisionHistory w1))
                price 0 w1) as He.
  destruct (evaluateEach (readyDecisions (decisionHistory w1)) price 0 w1)
    as [cnt w2]. cbn [snd] in He.
  assert (Hl : length (decisionHistory w2) = length (decisionHistory w)).
  { rewrite He, Hu. apply length_map. }
  destruct (0 <? cnt)%nat; cbn; exact Hl.
Qed.

(** The ledger's invariant, "an evaluated decision carries its evaluation",
    survives recording and polling. *)
Lemma ledger_keeps_evaluations (w : World) :
  evaluated_have_evaluation (decisionHistory w) ->
  (forall data,
     evaluated_have_evaluation
       (decisionHistory (snd (recordDecision data w)))) /\
  (forall price,
     evaluated_have_evaluation
       (decisionHistory (snd (evaluatePendingDecisions price w)))).
Proof.
  intros Hwf. split.
  - intros data d Hin Hs.
    destruct (recordDecision_In data w d Hin) as [H| ->];
      [now apply Hwf|discriminate].
  - intros price d' Hin Hs.
    destruct (In_nth_error _ _ Hin) as [i Hi].
    assert (Hlt : (i < length (decisionHistory w))%nat).
    { rewrite <- (evaluatePendingDecisions_length price w).
      apply nth_error_Some. congruence. }
    destruct (nth_error (decisionHistory w) i) as [d|] eqn:Hd;
      [|apply nth_error_None in Hd; lia].
    destruct (evaluatePendingDecisions_history price w i d Hd)
      as (d'' & Hd'' & Hev & Hsame).
    assert (d'' = d') by congruence. subst d''.
    destruct (status (advance (clock w (clockReads w)) d)) eqn:Ha.
    + rewrite (Hsame ltac:(congruence)) in Hs. congruence.
    + now destruct (Hev eq_refl).
    + rewrite (Hsame ltac:(congruence)), advance_evaluation.
      apply (Hwf d (nth_error_In _ _ Hd)).
      rewrite advance_status in Ha.
      destruct (status_eqb (status d) pending
                && isDecisionReady d (clock w (clockReads w)));
        congruence.
Qed.

(** C2: a status only moves pending -> ready -> evaluated.  Advancing
    turns a pending decision ready exactly when the elapsed time reaches its
    horizon and touches nothing else; evaluating turns a ready decision
    evaluated and returns a result; evaluating a decision that is not ready
    returns null and changes neither the decision nor anything else; a poll
    takes every stored decision through these two moves in order; recording
    leaves the stored decisions alone and adds a pending one; and the moves
    never skip ready, never go back and never leave evaluated. *)
Theorem status_lifecycle :
  (forall (now : number) (d : Decision),
     stays_or_moves (status d) (status (advance now d)) /\
     evaluation (advance now d) = evaluation d /\
     (status d = pending ->
        (status (advance now d) = ready <->
         ge (now - timestamp d) (evaluationHorizon d) = true) /\
        (status (advance now d) = pending <->
         ge (now - timestamp d) (evaluationHorizon d) = false)) /\
     (status d <> pending -> advance now d = d)) /\
  (forall w : World,
     decisionHistory (snd (updateDecisionStatuses w)) =
       map (advance (clock w (clockReads w))) (decisionHistory w)) /\
  (forall (d : Decision) (futurePrice : number) (w : World),
     status d = ready ->
     fst (fst (evaluateDecision d futurePrice w)) <> None /\
     status (snd (fst (evaluateDecision d futurePrice w))) = evaluated /\
     evaluation (snd (fst (evaluateDecision d futurePrice w))) <> None) /\
  (forall (d : Decision) (futurePrice : number) (w : World),
     status d <> ready ->
     evaluateDecision d futurePrice w = (None, d, w)) /\
  (forall (price : number) (w : World) (i : nat) (d : Decision),
     nth_error (decisionHistory w) i = Some d ->
     exists d1 d',
       d1 = advance (clock w (clockReads w)) d /\
       nth_error (decisionHistory (snd (evaluatePendingDecisions price w))) i
         = Some d' /\
       stays_or_moves (status d) (status d1) /\
       stays_or_moves (status d1) (status d') /\
       (status d1 = ready <-> status d' = evaluated /\ status d <> evaluated))
  /\
  (forall (data : DecisionData) (w : World) (d : Decision),
     In d (decisionHistory (snd (recordDecision data w))) ->
     In d (decisionHistory w) \/
     (status d = pending /\ evaluation d = None)) /\
  (forall s s' : Status,
     transition s s' ->
     s <> evaluated /\ s' <> pending /\ s <> s' /\ ~ transition s' s /\
     ~ (s = pending /\ s' = evaluated)).
Proof.
  assert (Hadv : forall now d,
             stays_or_moves (status d) (status (advance now d))).
  { intros now d. rewrite advance_status.
    destruct (status d) eqn:Hs; cbn [status_eqb andb]; try (now left).
    destruct (isDecisionReady d now); [right; constructor|now left]. }
  repeat apply conj.
  - intros now d. split; [apply Hadv|]. split; [apply advance_evaluation|].
    split.
    + intros Hs. rewrite advance_status, Hs. cbn [status_eqb andb].
      unfold isDecisionReady.
      destruct (ge (now - timestamp d) (evaluationHorizon d));
        split; split; intros; congruence.
    + intros Hs. unfold advance.
      destruct (status d); try congruence; reflexivity.
  - apply updateDecisionStatuses_history.
  - intros d fp w Hs. pose proof (evaluateDecision_status d fp w Hs). tauto.
  - apply evaluateDecision_not_ready.
  - intros price w i d Hi.
    destruct (evaluatePendingDecisions_history price w i d Hi)
      as (d' & Hd' & Hev & Hsame).
    exists (advance (clock w (clockReads w)) d), d'.
    split; [reflexivity|]. split; [exact Hd'|]. split; [apply Hadv|].
    pose proof (Hadv (clock w (clockReads w)) d) as Ha.
    set (d1 := advance (clock w (clockReads w)) d) in *.
    destruct (status d1) eqn:Hs1.
    + rewrite (Hsame ltac:(congruence)), Hs1.
      split; [now left|]. split; [congruence|]. intros [H _]. congruence.
    + destruct (Hev eq_refl) as [He _]. rewrite He.
      split; [right; constructor|]. split; [|reflexivity].
      intros _. split; [reflexivity|].
      intros Hd. rewrite Hd in Ha. destruct Ha as [Ha|Ha];
        [congruence|inversion Ha].
    + rewrite (Hsame ltac:(congruence)), Hs1.
      split; [now left|]. split; [congruence|].
      intros [_ Hne]. exfalso. apply Hne.
      subst d1. rewrite advance_status in Hs1.
      destruct (status_eqb (status d) pending
                && isDecisionReady d (clock w (clockReads w)));
        congruence.
  - intros data w d Hin.
    destruct (recordDecision_In data w d Hin) as [H| ->];
      [now left|right; split; reflexivity].
  - intros s s' Ht. inversion Ht; subst; repeat split;
      try congruence; intros H; inversion H; congruence.
Qed.

(** Instance (the "1m" scenario): a BUY recorded at 100 with a horizon of
    180000 ms is still pending when polled after 179999 ms and is evaluated
    as correct, through ready, when polled at 105 after 180001 ms. *)
Lemma status_lifecycle_witness :
  status (advance (1700000000000 + 179999)
                  (Samples.decision0 "BUY" pending)) = pending /\
  status (advance (1700000000000 + 180001)
                  (Samples.decision0 "BUY" pending)) = ready /\
  evaluateDecision (Samples.decision0 "BUY" pending) 105 Samples.world0
    = (None, Samples.decision0 "BUY" pending, Samples.world0).
Proof.
  destruct status_lifecycle as (Hadv & _ & _ & Hnot & _).
  split; [|split].
  - destruct (Hadv (1700000000000 + 179999)
                   (Samples.decision0 "BUY" pending)) as (_ & _ & Hp & _).
    apply (Hp eq_refl). reflexivity.
  - destruct (Hadv (1700000000000 + 180001)
                   (Samples.decision0 "BUY" pending)) as (_ & _ & Hp & _).
    apply (Hp eq_refl). reflexivity.
  - apply Hnot. discriminate.
Defined.

(** The "1m" scenario run end to end: pending after the first poll,
    evaluated as correct with a change of exactly 5 after the second, and
    forwarded to the monitor as a success. *)
Example poll_scenario :
  map status
      (decisionHistory
         (snd (bind (recordDecision (Samples.payload "BUY" "1m" None))
                    (fun _ => evaluatePendingDecisions 105)
                    Samples.world_poll))) = [pending] /\
  map (fun d => (status d,
                 option_map result (evaluation d),
                 option_map priceChange (evaluation d)))
      (decisionHistory (snd (Samples.poll_twice Samples.world_poll)))
    = [(evaluated, Some correct, Some 5)] /\
  map e_success (decisionWindow (snd (Samples.poll_twice Samples.world_poll)))
    = [true].
Proof. vm_compute. repeat split. Qed.

End StatusLifecycle.

(* ================================================================== *)
(** ** RSI on a flat series *)
(* ================================================================== *)

Section FlatRSI.
Import JS Engine.
Local Open Scope float_scope.

Lemma fold_left_fixed {A B} (f : A -> B -> A) (l : list B) (s : A) :
  (forall i, In i l -> f s i = s) -> fold_left f l s = s.
Proof.
  induction l as [|i l IH]; intros H; cbn; [reflexivity|].
  rewrite (H i (or_introl eq_refl)). apply IH.
  intros j Hj. apply H. now right.
Qed.

Lemma get_repeat (c : number) (n i : nat) :
  (i < n)%nat -> get (repeat c n) i = c.
Proof.
  intros H. unfold get. apply nth_repeat_lt. exact H.
Qed.

(** Every change of a flat series is [+0]: neither loop moves the pair of
    sums away from (0, 0), and the [avgLoss === 0] test succeeds. *)
Lemma rsi_flat (c : number) (n : nat) :
  strict_eq (c - c) 0 = true -> (15 <= n)%nat ->
  calculateRSI (repeat c n) 14 = 100.
Proof.
  intros Hc Hn. unfold calculateRSI. rewrite repeat_length.
  destruct (Nat.ltb_spec n (14 + 1)) as [Hlt|_]; [lia|].
  assert (Hchange : forall i, (1 <= i < n)%nat ->
            get (repeat c n) i - get (repeat c n) (i - 1) = 0).
  { intros i Hi. rewrite !get_repeat by lia. now apply sub_diag_zero. }
  rewrite (fold_left_fixed _ (range 1 (14 + 1)) (0, 0)).
  2: { intros i Hi. unfold range in Hi. apply in_seq in Hi.
       rewrite Hchange by lia. reflexivity. }
  cbv beta iota zeta.
  change (0 / of_nat 14) with 0.
  rewrite (fold_left_fixed _ (range (14 + 1) n) (0, 0)).
  2: { intros i Hi. unfold range in Hi. apply in_seq in Hi.
       rewrite Hchange by lia. reflexivity. }
  reflexivity.
Qed.

(** Every finite price gives a flat series without gain or loss. *)
Lemma finite_no_change (c : number) :
  is_finite c = true -> strict_eq (c - c) 0 = true.
Proof. intros H. now rewrite (sub_diag_finite c H). Qed.

(** C7: with period 14, a series of at least 15 closes that all equal one
    price [c], with no gain and no loss from one close to the next (the
    change [c - c] is zero, as it is for every finite price), has RSI
    exactly 100, not 50; a series of fewer than 15 closes has RSI 50. *)
Theorem rsi_flat_series :
  (forall (prices : list number) (c : number),
     (forall x, In x prices -> x = c) ->
     strict_eq (c - c) 0 = true ->
     (14 + 1 <= length prices)%nat ->
     calculateRSI prices 14 = 100 /\
     strict_eq (calculateRSI prices 14) 50 = false) /\
  (forall prices : list number,
     (length prices < 14 + 1)%nat -> calculateRSI prices 14 = 50).
Proof.
  split.
  - intros prices c Hall Hc Hlen.
    assert (Hrep : prices = repeat c (length prices)).
    { apply Forall_eq_repeat, Forall_forall. intros x Hx.
      symmetry. now apply Hall. }
    rewrite Hrep, rsi_flat by (try exact Hc; lia).
    split; reflexivity.
  - intros prices Hlen. unfold calculateRSI.
    destruct (Nat.ltb_spec (length prices) (14 + 1)); [reflexivity|lia].
Qed.

(** Instance: twenty closes at 42.5, and fourteen closes at 42.5. *)
Lemma rsi_flat_series_witness :
  calculateRSI (repeat 42.5 20) 14 = 100 /\
  calculateRSI (repeat 42.5 14) 14 = 50.
Proof.
  destruct rsi_flat_series as [Hflat Hshort]. split.
  - apply (Hflat (repeat 42.5 20) 42.5).
    + intros x Hx. now apply repeat_spec in Hx.
    + reflexivity.
    + cbn. lia.
  - apply Hshort. cbn. lia.
Defined.

End FlatRSI.

(* ================================================================== *)
(** ** The STC-CCI composite *)
(* ================================================================== *)

Section StcCciVotes.
Import JS Engine.
Local Open Scope float_scope.

(** C6: with at least 50 closes the composite scores +30 with signal BUY
    when at least two of the votes STC > 50, CCI > 0, priceChange > 0 hold,
    and -30 with signal SELL when at most one holds, so it is never 0 /
    NEUTRAL there; with fewer than 50 closes it is the neutral zero record. *)
Theorem stcCci_votes :
  forall (highs lows closes : list number) (period : nat),
    let r := calculateSTCCCI highs lows closes period in
    ((50 <= length closes)%nat ->
     let stc := calculateSchaffTrendCycle closes 23 50 10 in
     let cci := calculateCCI highs lows closes period in
     let recentCloses := slice_last 5 closes in
     let priceChange :=
       ((get recentCloses (length recentCloses - 1) - get recentCloses 0)
        / get recentCloses 0) * 100 in
     let stcBullish := gt stc 50 in
     let cciBullish := gt cci 0 in
     let priceMovingUp := gt priceChange 0 in
     let votes :=
       (Nat.b2n stcBullish + Nat.b2n cciBullish + Nat.b2n priceMovingUp)%nat in
     ((2 <= votes)%nat -> stc_value r = 30 /\ stc_signal r = "BUY"%string) /\
     ((votes <= 1)%nat ->
      stc_value r = -30 /\ stc_signal r = "SELL"%string) /\
     strict_eq (stc_value r) 0 = false /\
     stc_signal r <> "NEUTRAL"%string /\
     stc_strength r = 30 /\
     stc_stc r = Some stc /\ stc_cci r = Some cci /\
     stc_priceChange r = Some priceChange) /\
    ((length closes < 50)%nat ->
     r = {| stc_value := 0; stc_signal := "NEUTRAL"; stc_strength := 0;
            stc_stc := None; stc_cci := None; stc_priceChange := None |}).
Proof.
  intros highs lows closes period r. subst r. unfold calculateSTCCCI.
  split.
  - intros Hlen.
    destruct (Nat.ltb_spec (length closes) 50) as [Hlt|_]; [lia|].
    cbv zeta.
    destruct (gt (calculateSchaffTrendCycle closes 23 50 10) 50);
      destruct (gt (calculateCCI highs lows closes period) 0);
      destruct (gt _ 0); cbn;
      repeat split; intros; try lia; try discriminate; reflexivity.
  - intros Hlen.
    destruct (Nat.ltb_spec (length closes) 50) as [_|Hge]; [reflexivity|lia].
Qed.

(** Instance: sixty rising closes get two bullish votes (CCI and price
    change; the STC is exactly 50), hence BUY with score +30. *)
Lemma stcCci_votes_witness :
  stc_value (calculateSTCCCI Samples.rising Samples.rising Samples.rising 20)
    = 30 /\
  stc_signal (calculateSTCCCI Samples.rising Samples.rising Samples.rising 20)
    = "BUY"%string.
Proof.
  destruct (stcCci_votes Samples.rising Samples.rising Samples.rising 20)
    as [Hlong _].
  destruct (Hlong ltac:(vm_compute; lia)) as (Hbuy & _).
  apply Hbuy. vm_compute. lia.
Defined.

End StcCciVotes.

(* ================================================================== *)
(** ** The total score *)
(* ================================================================== *)

Section TotalScore.
Import JS Engine Rules.
Local Open Scope float_scope.

Lemma modest_small (x : number) :
  modest x = true -> is_finite x = true -> (abs x <=? 1e291) = true.
Proof.
  unfold modest, Number_isFinite, le, score_bound. intros H Hf.
  rewrite Hf in H. exact H.
Qed.

(** Adding a modest score keeps a finite running total finite. *)
Lemma plus_modest (total x : number) :
  is_finite total = true -> modest x = true ->
  is_finite (if Number_isFinite x then total + x else total) = true.
Proof.
  intros Ht Hx. unfold Number_isFinite.
  destruct (is_finite x) eqn:Hf; [|exact Ht].
  apply add_small_finite; [exact Ht|exact Hf|].
  right. now apply modest_small.
Qed.

(** Adding any score to a running total within the bound keeps it finite. *)
Lemma plus_to_small (total x : number) :
  is_finite total = true -> (abs total <=? 1e291) = true ->
  is_finite (if Number_isFinite x then total + x else total) = true.
Proof.
  intros Ht Hs. unfold Number_isFinite.
  destruct (is_finite x) eqn:Hf; [|exact Ht].
  apply add_small_finite; [exact Ht|exact Hf|now left].
Qed.

Lemma plus_first (x : number) :
  modest x = true ->
  is_finite (if Number_isFinite x then 0 + x else 0) = true /\
  (abs (if Number_isFinite x then 0 + x else 0) <=? 1e291) = true.
Proof.
  intros Hx. unfold Number_isFinite.
  destruct (is_finite x) eqn:Hf; [|split; reflexivity].
  apply zero_add_small; [exact Hf|now apply modest_small].
Qed.

(** The sum of the finite scores of a receivable score set is finite: the
    guard [if (!Number.isFinite(totalScore)) totalScore = 0] never fires on
    it. *)
Lemma receivable_sum_finite (s : IndicatorScores) :
  receivable s = true ->
  let plus := fun total x =>
                if Number_isFinite x then total + x else total in
  Number_isFinite
    (plus (plus (plus (plus (plus (plus (plus 0
       (score (rsi s))) (score (macd s))) (score (stochRsi s)))
       (score (mfi s))) (score (trend s))) (score (occ s)))
       (score (stcCci s))) = true.
Proof.
  unfold receivable. cbn [forallb]. intros H.
  repeat (apply andb_true_iff in H; destruct H as [? H]).
  cbv zeta. unfold Number_isFinite at 1.
  repeat (apply plus_modest; [|assumption]).
  destruct (plus_first (score (rsi s))) as [Hf Hs]; [assumption|].
  now apply plus_to_small.
Qed.

(** C3: for every score set whose scores other than the MACD's are modest
    (skipped by the sum, or of magnitude at most 1e291, as are all scores
    that [calculateIndicatorScores] takes from its tables), and whatever
    the MACD score, the total is the unweighted sum of the finite scores,
    taken in property order; then scaled by the trading mode (aggressive
    x0.8, conservative x1.5, any other mode unchanged); and only then
    moved by +20 / -20 for a bullish / bearish divergence when detection
    is on, so that the adjustment is never scaled.  The total depends on
    the scores and the divergence flag alone: the weights attached by
    [calculateIndicatorScores] are those of the table and play no part in
    it.  The RSI and trend scores it computes are modest for every
    input, and so are the OCC and STC-CCI scores of an analysed market:
    there the score set is receivable as soon as the Stochastic RSI and
    MFI scores are modest. *)
Theorem total_score_composition :
  (forall (s : IndicatorScores) (config : Config),
     receivable s = true ->
     let plus := fun total x =>
                   if Number_isFinite x then total + x else total in
     let sum :=
       plus (plus (plus (plus (plus (plus (plus 0
         (score (rsi s))) (score (macd s))) (score (stochRsi s)))
         (score (mfi s))) (score (trend s))) (score (occ s)))
         (score (stcCci s)) in
     let scaled :=
       if String.eqb (tradingMode config) "aggressive" then sum * 0.8
       else if String.eqb (tradingMode config) "conservative" then sum * 1.5
       else sum in
     calculateTotalScore s config =
       if divergenceDetection config then
         match div_value (divergence s) with
         | Some v =>
             if String.eqb v "bullish" then scaled + 20
             else if String.eqb v "bearish" then scaled - 20
             else scaled
         | None => scaled
         end
       else scaled) /\
  (forall (s s' : IndicatorScores) (config : Config),
     map (fun f => score (f s)) [rsi; macd; stochRsi; mfi; trend; occ; stcCci]
       = map (fun f => score (f s'))
             [rsi; macd; stochRsi; mfi; trend; occ; stcCci] ->
     div_value (divergence s) = div_value (divergence s') ->
     calculateTotalScore s config = calculateTotalScore s' config) /\
  (forall (indicators : Indicators) (config : Config),
     map (fun f => weight (f (calculateIndicatorScores indicators config)))
         [rsi; macd; stochRsi; mfi; trend; occ; stcCci]
       = [1.0; 1.0; 0.8; 0.8; 1.2; 1.0; 1.0] /\
     modest (score (rsi (calculateIndicatorScores indicators config)))
       = true /\
     modest (score (trend (calculateIndicatorScores indicators config)))
       = true) /\
  (forall (marketInfo : MarketInfo) (config : Config),
     let s := calculateIndicatorScores
                (calculateTechnicalIndicators marketInfo) config in
     modest (score (occ s)) = true /\
     modest (score (stcCci s)) = true /\
     (modest (score (stochRsi s)) = true ->
      modest (score (mfi s)) = true -> receivable s = true)).
Proof.
  split; [|split; [|split]].
  - intros s config Hrec. cbv zeta.
    pose proof (receivable_sum_finite s Hrec) as Hfin. cbv zeta in Hfin.
    unfold calculateTotalScore, score_properties, is_divergence,
      adjustScoreByMode.
    cbn [fold_left]. rewrite Hfin. cbn [negb].
    destruct (divergenceDetection config); cbn [andb]; [|reflexivity].
    destruct (div_value (divergence s)) as [v|]; [|reflexivity].
    destruct (String.eqb v "bullish") eqn:Hb; [|reflexivity].
    apply String.eqb_eq in Hb; subst v; reflexivity.
  - intros s s' config Hs Hd. cbn in Hs.
    injection Hs as H1 H2 H3 H4 H5 H6 H7.
    unfold calculateTotalScore, score_properties, is_divergence.
    now rewrite H1, H2, H3, H4, H5, H6, H7, Hd.
  - intros indicators config. split; [reflexivity|].
    unfold calculateIndicatorScores. cbn [score rsi trend]. split.
    + unfold calculateRSIScore.
      repeat match goal with
             | |- context [if ?c then _ else _] => destruct c
             end; reflexivity.
    + repeat match goal with
             | |- context [if ?c then _ else _] => destruct c
             end; reflexivity.
  - intros marketInfo config s.
    assert (Hrsi : modest (score (rsi s)) = true).
    { subst s. unfold calculateIndicatorScores. cbn [score rsi].
      unfold calculateRSIScore.
      repeat match goal with
             | |- context [if ?c then _ else _] => destruct c
             end; reflexivity. }
    assert (Htrend : modest (score (trend s)) = true).
    { subst s. unfold calculateIndicatorScores. cbn [score trend].
      repeat match goal with
             | |- context [if ?c then _ else _] => destruct c
             end; reflexivity. }
    assert (Hocc : modest (score (occ s)) = true).
    { subst s. unfold calculateIndicatorScores, calculateTechnicalIndicators.
      cbn [score occ ind_occ option_map]. unfold calculateOCC.
      repeat match goal with
             | |- context [if ?c then _ else _] => destruct c
             end; reflexivity. }
    assert (Hstc : modest (score (stcCci s)) = true).
    { subst s. unfold calculateIndicatorScores, calculateTechnicalIndicators.
      cbn [score stcCci ind_stcCci option_map]. unfold calculateSTCCCI.
      repeat match goal with
             | |- context [if ?c then _ else _] => destruct c
             end; reflexivity. }
    split; [exact Hocc|]. split; [exact Hstc|].
    intros Hstoch Hmfi. unfold receivable. cbn [forallb].
    now rewrite Hrsi, Hstoch, Hmfi, Htrend, Hocc, Hstc.
Qed.

(** Instance: a StochRSI score of 10 with weight 0.8 and a bullish
    divergence in conservative mode give 10 x 1.5 + 20 = 35. *)
Lemma total_score_composition_witness :
  calculateTotalScore
    (Samples.scores 0 10 (Some "bullish"%string))
    {| tradingMode := "conservative"; backtestThreshold := None;
       divergenceDetection := true; trendFilter := false |} = 35.
Proof.
  rewrite (proj1 total_score_composition); reflexivity.
Defined.

(** Outside the receivable score sets the guard can fire: two scores of
    1.7e308 are finite, their sum is +Infinity, and the total is 0.  Such a
    set needs a Stochastic RSI score of 1.7e308, where the engine computes
    [(v - 50) * 2] from the oscillator value [v]. *)
Example overflow_guard_outside_domain :
  receivable (Samples.scores 1.7e308 1.7e308 None) = false /\
  Number_isFinite 1.7e308 = true /\
  sum (map (fun f => score (f (Samples.scores 1.7e308 1.7e308 None)))
           [rsi; macd; stochRsi; mfi; trend; occ; stcCci]) = infinity /\
  calculateTotalScore (Samples.scores 1.7e308 1.7e308 None) Samples.balanced
    = 0.
Proof. vm_compute. repeat split. Qed.

End TotalScore.

(* ================================================================== *)
(** ** Accuracy and win rate *)
(* ================================================================== *)

Section Ratios.
Import JS Host DecisionEvaluator PerformanceAnalysis Vocabulary.
Local Open Scope float_scope.

Lemma has_outcome_evaluated (r : EvalResult) (d : Decision) (e : Evaluation) :
  status d = evaluated -> evaluation d = Some e ->
  has_outcome r d = result_eqb (result e) r.
Proof. intros Hs He. unfold has_outcome. now rewrite Hs, He. Qed.

Lemma has_outcome_other (r : EvalResult) (d : Decision) :
  status_eqb (status d) evaluated = false -> has_outcome r d = false.
Proof. intros Hs. unfold has_outcome. now rewrite Hs. Qed.

Lemma count_result_filter (r : EvalResult) (h : list Decision) :
  evaluated_have_evaluation h ->
  count_result r (filter (fun d => status_eqb (status d) evaluated) h)
    = Some (count_outcome r h).
Proof.
  unfold count_outcome.
  induction h as [|d h IH]; intros Hwf; [reflexivity|].
  assert (Hwf' : evaluated_have_evaluation h).
  { intros x Hx. apply Hwf. now right. }
  specialize (IH Hwf'). cbn [filter].
  destruct (status_eqb (status d) evaluated) eqn:Hs.
  - apply status_eqb_eq in Hs.
    pose proof (Hwf d (or_introl eq_refl) Hs) as He.
    destruct (evaluation d) as [e|] eqn:Hev; [|congruence].
    rewrite (has_outcome_evaluated r d e Hs Hev).
    cbn [count_result]. rewrite Hev, IH.
    destruct (result_eqb (result e) r); reflexivity.
  - rewrite (has_outcome_other r d Hs). exact IH.
Qed.

Lemma evaluated_split (h : list Decision) :
  evaluated_have_evaluation h ->
  length (filter (fun d => status_eqb (status d) evaluated) h) =
    (count_outcome correct h + count_outcome incorrect h
     + count_outcome neutral h)%nat.
Proof.
  unfold count_outcome.
  induction h as [|d h IH]; intros Hwf; [reflexivity|].
  assert (Hwf' : evaluated_have_evaluation h).
  { intros x Hx. apply Hwf. now right. }
  specialize (IH Hwf'). cbn [filter].
  destruct (status_eqb (status d) evaluated) eqn:Hs.
  - apply status_eqb_eq in Hs.
    pose proof (Hwf d (or_introl eq_refl) Hs) as He.
    destruct (evaluation d) as [e|] eqn:Hev; [|congruence].
    rewrite !(has_outcome_evaluated _ d e Hs Hev).
    destruct (result e); cbn [result_eqb length]; rewrite IH; lia.
  - rewrite !(has_outcome_other _ d Hs). exact IH.
Qed.

(** C8: over a history whose evaluated decisions carry their evaluation,
    the overall stats are returned with accuracy = correct / (correct +
    incorrect) x 100 (0 without decisive outcomes) and winRate = correct /
    (correct + incorrect + neutral) x 100, the denominator being the count
    of all evaluated decisions (0 without evaluated decisions); a finalized
    report bucket uses the same accuracy formula on its own counts, and its
    win rate divides by its total. *)
Theorem stats_ratios :
  (forall w : World,
     evaluated_have_evaluation (decisionHistory w) ->
     let nc := count_outcome correct (decisionHistory w) in
     let ni := count_outcome incorrect (decisionHistory w) in
     let nn := count_outcome neutral (decisionHistory w) in
     exists st,
       getPerformanceStats w = Some st /\
       st_correct st = nc /\ st_incorrect st = ni /\ st_neutral st = nn /\
       st_evaluated st = (nc + ni + nn)%nat /\
       st_accuracy st =
         (if (0 <? nc + ni)%nat
          then (of_nat nc / of_nat (nc + ni)) * 100 else 0) /\
       st_winRate st =
         (if (0 <? nc + ni + nn)%nat
          then (of_nat nc / of_nat (nc + ni + nn)) * 100 else 0)) /\
  (forall b : Bucket,
     accuracy (finalizeBucket b) =
       (if (0 <? b_correct b + b_incorrect b)%nat
        then (of_nat (b_correct b) / of_nat (b_correct b + b_incorrect b))
             * 100
        else 0) /\
     winRate (finalizeBucket b) =
       (if (0 <? total b)%nat
        then (of_nat (b_correct b) / of_nat (total b)) * 100 else 0)).
Proof.
  split.
  - intros w Hwf nc ni nn.
    unfold getPerformanceStats.
    rewrite !count_result_filter by exact Hwf.
    rewrite (evaluated_split _ Hwf). fold nc ni nn.
    destruct (nc + ni + nn =? 0)%nat eqn:Hz.
    + apply Nat.eqb_eq in Hz.
      assert (nc = 0 /\ ni = 0 /\ nn = 0)%nat as (Hc & Hi & Hn) by lia.
      eexists. split; [reflexivity|]. cbn. rewrite Hc, Hi, Hn.
      repeat split.
    + apply Nat.eqb_neq in Hz.
      eexists. split; [reflexivity|].
      cbn [st_correct st_incorrect st_neutral st_evaluated st_accuracy
           st_winRate].
      destruct (Nat.ltb_spec 0 (nc + ni + nn)); [|lia].
      repeat split.
  - intros b. split; reflexivity.
Qed.

(** Instance: one correct and one neutral evaluated decision give an
    accuracy of 100 and a win rate of 50: the denominators differ. *)
Lemma stats_ratios_witness :
  evaluated_have_evaluation (decisionHistory Samples.world_two) /\
  option_map st_accuracy (getPerformanceStats Samples.world_two) = Some 100 /\
  option_map st_winRate (getPerformanceStats Samples.world_two) = Some 50.
Proof.
  assert (Hwf : evaluated_have_evaluation (decisionHistory Samples.world_two)).
  { intros d [<-|[<-|[]]] _; discriminate. }
  split; [exact Hwf|].
  destruct (proj1 stats_ratios Samples.world_two Hwf)
    as (st & Hst & _ & _ & _ & _ & Hacc & Hwin).
  rewrite Hst. cbn [option_map]. rewrite Hacc, Hwin.
  split; vm_compute; reflexivity.
Defined.

End Ratios.

(* ================================================================== *)
(** ** The monitor: invalid payloads and forwarded outcomes *)
(* ================================================================== *)

Section Monitor.
Import JS Host DecisionEvaluator Vocabulary.
Local Open Scope float_scope.

(** C9: a [SystemState.recordDecision] call whose payload is absent or
    lacks the [success] field returns normally, writes one warning to the
    console and changes nothing else: the window, the ledger's history and
    the clock are as before. *)
Theorem invalid_payload_noop :
  forall (data : option SystemState.Data) (w : World),
    (data = None \/
     exists d, data = Some d /\ SystemState.data_success d = None) ->
    let w' := snd (SystemState.recordDecision data w) in
    decisionWindow w' = decisionWindow w /\
    decisionHistory w' = decisionHistory w /\
    console w' = console w ++ [SystemState.invalid_warning] /\
    (exists msg, SystemState.invalid_warning = console_warn msg) /\
    clockReads w' = clockReads w /\
    rngDraws w' = rngDraws w /\
    SystemState_loaded w' = SystemState_loaded w.
Proof.
  intros data w H w'. subst w'.
  assert (E : SystemState.recordDecision data w
              = emit SystemState.invalid_warning w).
  { destruct H as [->|(d & -> & Hd)]; [reflexivity|].
    unfold SystemState.recordDecision. now rewrite Hd. }
  rewrite E. cbn. repeat split. eexists. reflexivity.
Qed.

(** Instance: a payload without [success] on a window holding one entry. *)
Lemma invalid_payload_noop_witness :
  decisionWindow
    (snd (SystemState.recordDecision
            (Some {| SystemState.data_timeframe := Some "1m"%string;
                     SystemState.data_direction := Some "BUY"%string;
                     SystemState.data_success := None;
                     SystemState.data_return := Some 5;
                     SystemState.data_confidence := Some 60;
                     SystemState.data_timestamp := None |})
            Samples.world_one))
    = decisionWindow Samples.world_one.
Proof.
  apply (invalid_payload_noop _ Samples.world_one).
  right. eexists. split; reflexivity.
Defined.

Lemma SystemState_recordDecision_window (data : SystemState.Data)
      (success : bool) (w : World) :
  SystemState.data_success data = Some success ->
  exists e,
    decisionWindow (snd (SystemState.recordDecision (Some data) w))
      = pushed (decisionWindow w) e /\
    e_success e = success /\
    e_return e = SystemState.number_or (SystemState.data_return data) 0.
Proof.
  intros Hs. unfold SystemState.recordDecision. rewrite Hs.
  destruct (SystemState.data_timestamp data) as [t|];
    [destruct (truthy t)|];
    (eexists; split; [reflexivity|split; reflexivity]).
Qed.

Lemma evaluateDecision_forwards (d : Decision) (fp : number) (w : World) :
  status d = ready -> SystemState_loaded w = true ->
  exists e,
    decisionWindow (snd (evaluateDecision d fp w))
      = pushed (decisionWindow w) e /\
    e_success e =
      result_eqb
        (classify (direction d)
                  (((fp - currentPrice d) / currentPrice d) * 100))
        correct.
Proof.
  intros Hs Hl. unfold evaluateDecision. rewrite Hs.
  cbn -[SystemState.recordDecision classify].
  unfold bind, ret, emit, Date_now, get_SystemState_loaded.
  cbn -[SystemState.recordDecision classify]. rewrite Hl.
  match goal with |- context [SystemState.recordDecision (Some ?a) ?b] =>
    destruct (SystemState_recordDecision_window a _ b eq_refl)
      as (e & He & Hsucc & _);
    destruct (SystemState.recordDecision (Some a) b) as [u w1] end.
  cbn in He |- *. exists e. split; [exact He|exact Hsucc].
Qed.

(** *** The error streak *)

Lemma consecutive_errors_current (l : list Entry) (acc : SystemState.Errors) :
  SystemState.current (SystemState.consecutive_errors_from l acc) =
    (SystemState.current acc
     + SystemState.current
         (SystemState.consecutive_errors_from l
            {| SystemState.current := 0; SystemState.max := 0 |}))%nat.
Proof.
  revert acc; induction l as [|d l IH]; intros acc; cbn; [lia|].
  destruct (e_success d); cbn; [lia|].
  rewrite IH. rewrite (IH {| SystemState.current := 1; SystemState.max := _ |}).
  cbn. lia.
Qed.

Lemma streak_rev_cons (d : Entry) (l : list Entry) :
  streak_rev (d :: l) = if e_success d then 0%nat else S (streak_rev l).
Proof.
  unfold streak_rev. cbn. destruct (e_success d); cbn; [reflexivity|].
  now rewrite consecutive_errors_current.
Qed.

Lemma streak_rev_removelast (l : list Entry) :
  streak_rev (removelast l) = Nat.min (streak_rev l) (length l - 1).
Proof.
  induction l as [|d l IH]; [reflexivity|].
  destruct l as [|d' l'].
  - cbn [removelast length]. rewrite streak_rev_cons.
    destruct (e_success d); reflexivity.
  - change (removelast (d :: d' :: l')) with (d :: removelast (d' :: l')).
    rewrite (streak_rev_cons d (removelast (d' :: l'))),
      (streak_rev_cons d (d' :: l')), IH.
    destruct (e_success d); cbn [length]; lia.
Qed.

Lemma rev_tl {A} (l : list A) : rev (tl l) = removelast (rev l).
Proof.
  destruct l as [|a l]; [reflexivity|]. cbn.
  now rewrite removelast_last.
Qed.

Lemma streak_pushed_failure (window : list Entry) (e : Entry) :
  e_success e = false ->
  SystemState.current
    (SystemState.calculateConsecutiveErrors (pushed window e)) =
    Nat.min
      (S (SystemState.current (SystemState.calculateConsecutiveErrors window)))
      (length (pushed window e)).
Proof.
  intros He. unfold SystemState.calculateConsecutiveErrors, pushed.
  fold (streak_rev (rev window)).
  assert (Hfull : streak_rev (rev (window ++ [e]))
                  = S (streak_rev (rev window))).
  { rewrite rev_app_distr. cbn [rev app]. now rewrite streak_rev_cons, He. }
  assert (Hbound : forall l, (streak_rev l <= length l)%nat).
  { induction l as [|d l IH]; [cbn; lia|].
    rewrite streak_rev_cons. destruct (e_success d); cbn [length]; lia. }
  pose proof (Hbound (rev window)) as Hb. rewrite length_rev in Hb.
  destruct (Nat.ltb_spec 50 (length (window ++ [e]))) as [Hlt|Hle].
  - fold (streak_rev (rev (tl (window ++ [e])))).
    rewrite rev_tl, streak_rev_removelast, Hfull, length_rev.
    rewrite length_app in *. cbn [length] in *.
    assert (Hl : length (tl (window ++ [e])) = length window).
    { destruct window; cbn; [reflexivity|].
      rewrite length_app. cbn. lia. }
    rewrite Hl. lia.
  - fold (streak_rev (rev (window ++ [e]))). rewrite Hfull.
    rewrite length_app. cbn [length]. lia.
Qed.

Lemma successes_pushed_failure (window : list Entry) (e : Entry) :
  e_success e = false ->
  (successes (pushed window e) <= successes window)%nat /\
  ((length window < 50)%nat ->
   successes (pushed window e) = successes window /\
   length (pushed window e) = S (length window)).
Proof.
  intros He. unfold pushed, successes.
  assert (Happ : filter (fun d => e_success d) (window ++ [e])
                 = filter (fun d => e_success d) window).
  { rewrite filter_app. cbn. rewrite He. apply app_nil_r. }
  destruct (Nat.ltb_spec 50 (length (window ++ [e]))) as [Hlt|Hle].
  - split.
    + rewrite <- Happ. destruct (window ++ [e]) as [|a l]; [cbn; lia|].
      cbn. destruct (e_success a); cbn; lia.
    + rewrite length_app in Hlt. cbn in Hlt. lia.
  - rewrite Happ. split; [lia|]. intros _. split; [reflexivity|].
    rewrite length_app. cbn. lia.
Qed.

(** C10: when the monitor is loaded, evaluating a ready decision pushes
    one entry whose [success] is true iff the result is correct.  A neutral
    result is therefore pushed with [success = false], exactly as an
    incorrect one: the window's success count does not grow while its
    length does (so the accuracy ratio counts the entry as a failure), and
    the consecutive-error streak is extended by one (capped by the window
    length once the oldest entry is shifted out). *)
Theorem forwarded_success :
  forall (d : Decision) (futurePrice : number) (w : World),
    status d = ready ->
    SystemState_loaded w = true ->
    let res :=
      classify (direction d)
               (((futurePrice - currentPrice d) / currentPrice d) * 100) in
    let win := decisionWindow w in
    let win' := decisionWindow (snd (evaluateDecision d futurePrice w)) in
    fst (fst (evaluateDecision d futurePrice w)) = Some res /\
    exists e,
      win' = pushed win e /\
      (e_success e = true <-> res = correct) /\
      (res = neutral -> e_success e = false) /\
      (res = incorrect -> e_success e = false) /\
      (res <> correct ->
         (successes win' <= successes win)%nat /\
         ((length win < 50)%nat ->
            successes win' = successes win /\
            length win' = S (length win) /\
            SystemState.calculateAccuracy win' =
              (of_nat (successes win) / of_nat (S (length win))) * 100) /\
         SystemState.current (SystemState.calculateConsecutiveErrors win') =
           Nat.min
             (S (SystemState.current
                   (SystemState.calculateConsecutiveErrors win)))
             (length win')).
Proof.
  intros d fp w Hs Hl res win win'.
  destruct (evaluateDecision_ready d fp w Hs) as [w1 E].
  split; [rewrite E; reflexivity|].
  destruct (evaluateDecision_forwards d fp w Hs Hl) as (e & Hwin & Hsucc).
  fold res in Hsucc. fold win win' in Hwin.
  exists e. split; [exact Hwin|].
  split; [|split; [|split]].
  - rewrite Hsucc. destruct res; cbn; split; congruence.
  - intros Hr. rewrite Hsucc, Hr. reflexivity.
  - intros Hr. rewrite Hsucc, Hr. reflexivity.
  - intros Hr.
    assert (He : e_success e = false).
    { rewrite Hsucc. destruct res; cbn; congruence. }
    rewrite Hwin.
    destruct (successes_pushed_failure win e He) as [Hle Hsmall].
    split; [exact Hle|]. split.
    + intros Hlen. destruct (Hsmall Hlen) as [Hs1 Hs2].
      split; [exact Hs1|]. split; [exact Hs2|].
      unfold SystemState.calculateAccuracy. rewrite Hs2. cbn [Nat.eqb].
      fold (successes (pushed win e)). now rewrite Hs1.
    + now apply streak_pushed_failure.
Qed.

(** Instance (the "1h" scenario): a ready SELL recorded at 100 and polled
    at 100.05 is neutral; it reaches a monitor holding one failed entry as
    a second failure: the streak is 2 and the accuracy stays 0. *)
Lemma forwarded_success_witness :
  fst (fst (evaluateDecision (Samples.decision0 "SELL" ready) 100.05
                             Samples.world_one)) = Some neutral /\
  map e_success
      (decisionWindow
         (snd (evaluateDecision (Samples.decision0 "SELL" ready) 100.05
                                Samples.world_one))) = [false; false] /\
  SystemState.current
    (SystemState.calculateConsecutiveErrors
       (decisionWindow
          (snd (evaluateDecision (Samples.decision0 "SELL" ready) 100.05
                                 Samples.world_one)))) = 2%nat.
Proof.
  destruct (forwarded_success (Samples.decision0 "SELL" ready) 100.05
              Samples.world_one eq_refl eq_refl)
    as (Hres & e & Hwin & _ & Hneutral & _ & Hfail).
  split; [exact Hres|].
  specialize (Hneutral eq_refl).
  destruct (Hfail ltac:(discriminate)) as (_ & _ & Hstreak).
  split.
  - rewrite Hwin. cbn. now rewrite Hneutral.
  - rewrite Hstreak, Hwin. reflexivity.
Defined.

End Monitor.

(* ================================================================== *)
(** ** The ledger over any sequence of calls *)
(* ================================================================== *)

Section LedgerRuns.
Import JS Host DecisionEvaluator Vocabulary Runs.
Local Open Scope float_scope.

Lemma replace_at_In {A} (i : nat) (x y : A) (l : list A) :
  In y (replace_at i x l) -> y = x \/ In y l.
Proof.
  revert i; induction l as [|a l IH]; intros [|i] H; cbn in *;
    try contradiction.
  - destruct H as [H|H]; [now left|right; now right].
  - destruct H as [H|H]; [right; now left|].
    destruct (IH i H) as [E|E]; [now left|right; now right].
Qed.

Lemma evaluateDecision_ok (d : Decision) (fp : number) (w : World) :
  decision_ok d -> decision_ok (snd (fst (evaluateDecision d fp w))).
Proof.
  intros Hok. destruct (status d) eqn:Hs.
  - now rewrite evaluateDecision_not_ready by congruence.
  - destruct (evaluateDecision_status d fp w Hs) as (H1 & H2 & _).
    split; intros _; assumption.
  - now rewrite evaluateDecision_not_ready by congruence.
Qed.

Lemma advance_ok (now : number) (d : Decision) :
  decision_ok d -> decision_ok (advance now d).
Proof.
  unfold decision_ok. rewrite advance_status, advance_evaluation.
  destruct (status d) eqn:Hs; cbn [status_eqb andb]; try tauto.
  destruct (isDecisionReady d now); [|tauto].
  intros [H1 H2]. split; [discriminate|].
  intros He. specialize (H2 He). discriminate.
Qed.

Lemma run_call_ok (c : Call) (w : World) :
  ledger_ok w -> ledger_ok (snd (run_call c w)).
Proof.
  intros [Hlen Hok]. unfold ledger_ok.
  destruct c as [data| |i fp|price|]; cbn [run_call].
  - split.
    + rewrite recordDecision_history, last_n_length. lia.
    + intros d Hin. destruct (recordDecision_In data w d Hin) as [H| ->];
        [now apply Hok|].
      split; [discriminate|]. intros H. now elim H.
  - rewrite updateDecisionStatuses_history. split.
    + now rewrite length_map.
    + intros d Hin. apply in_map_iff in Hin.
      destruct Hin as (d0 & <- & Hin). apply advance_ok. now apply Hok.
  - unfold bind, ret.
    pose proof (evaluateStored_history i fp w) as Hst.
    destruct (evaluateStored i fp w) as [r w1]. cbn [snd] in *.
    rewrite Hst.
    destruct (nth_error (decisionHistory w) i) as [d|] eqn:Hd;
      [|now split].
    split; [now rewrite replace_at_length|].
    intros d' Hin. apply replace_at_In in Hin. destruct Hin as [-> | Hin].
    + apply evaluateDecision_ok, Hok. eapply nth_error_In; eauto.
    + now apply Hok.
  - split; [now rewrite evaluatePendingDecisions_length|].
    intros d' Hin.
    destruct (In_nth_error _ _ Hin) as [i Hi].
    assert (Hlt : (i < length (decisionHistory w))%nat).
    { rewrite <- (evaluatePendingDecisions_length price w).
      apply nth_error_Some. congruence. }
    destruct (nth_error (decisionHistory w) i) as [d|] eqn:Hd;
      [|apply nth_error_None in Hd; lia].
    destruct (evaluatePendingDecisions_history price w i d Hd)
      as (d'' & Hd'' & Hev & Hsame).
    assert (d'' = d') by congruence. subst d''.
    destruct (status (advance (clock w (clockReads w)) d)) eqn:Ha.
    + rewrite (Hsame ltac:(congruence)).
      apply advance_ok, Hok. eapply nth_error_In; eauto.
    + destruct (Hev eq_refl). split; intros _; assumption.
    + rewrite (Hsame ltac:(congruence)).
      apply advance_ok, Hok. eapply nth_error_In; eauto.
  - split; [cbn; lia|]. intros d [].
Qed.

Lemma run_ok (calls : list Call) (w : World) :
  ledger_ok w -> ledger_ok (snd (run calls w)).
Proof.
  revert w; induction calls as [|c calls IH]; intros w Hok; [exact Hok|].
  unfold run in *. cbn [forEach]. unfold bind.
  pose proof (run_call_ok c w Hok) as H1.
  destruct (run_call c w) as [u w1]. cbn [snd] in H1. now apply IH.
Qed.

Lemma ledger_ok_evaluations (w : World) :
  ledger_ok w -> evaluated_have_evaluation (decisionHistory w).
Proof. intros [_ Hok] d Hin Hs. now apply (Hok d Hin). Qed.

Lemma getPerformanceStats_returns (w : World) :
  evaluated_have_evaluation (decisionHistory w) ->
  getPerformanceStats w <> None.
Proof.
  intros Hwf. unfold getPerformanceStats.
  rewrite !count_result_filter by exact Hwf.
  destruct (length _ =? 0)%nat; discriminate.
Qed.

Lemma tf_collect_returns (h : list Decision)
      (stats : list (string * TimeframeStats)) :
  evaluated_have_evaluation h -> tf_collect h stats <> None.
Proof.
  revert stats; induction h as [|d h IH]; intros stats Hwf; [discriminate|].
  assert (Hwf' : evaluated_have_evaluation h).
  { intros x Hx. apply Hwf. now right. }
  cbn [tf_collect].
  pose proof (Hwf d (or_introl eq_refl)) as Hd.
  destruct (status d); destruct (evaluation d);
    try (exfalso; now apply Hd);
    destruct (existsb _ _); now apply IH.
Qed.

(** X1: on a ledger whose stored decisions carry an evaluation exactly when
    they are evaluated and which holds at most 1000 of them (a fresh page,
    for one), any sequence of recordDecision, updateDecisionStatuses,
    evaluateDecision on a stored decision, evaluatePendingDecisions and
    clearHistory calls keeps both facts, and the two statistics queries
    then return without a TypeError. *)
Theorem ledger_ok_after_any_calls :
  forall (calls : list Call) (w : World),
    ledger_ok w ->
    ledger_ok (snd (run calls w)) /\
    getPerformanceStats (snd (run calls w)) <> None /\
    getTimeframeStats (snd (run calls w)) <> None.
Proof.
  intros calls w Hok. pose proof (run_ok calls w Hok) as H.
  split; [exact H|]. apply ledger_ok_evaluations in H. split.
  - now apply getPerformanceStats_returns.
  - unfold getTimeframeStats.
    pose proof (tf_collect_returns _ [] H) as Ht.
    destruct (tf_collect _ _); [discriminate|congruence].
Qed.

(** Instance: a fresh page, one recording and two polls. *)
Lemma ledger_ok_after_any_calls_witness :
  ledger_ok Samples.world_poll /\
  getPerformanceStats
    (snd (run [ call_recordDecision (Samples.payload "BUY" "1m" None);
                call_evaluatePendingDecisions 105;
                call_evaluatePendingDecisions 105 ] Samples.world_poll))
    <> None.
Proof.
  assert (H : ledger_ok Samples.world_poll).
  { split; [cbn; lia|]. intros d []. }
  split; [exact H|].
  apply (ledger_ok_after_any_calls _ Samples.world_poll H).
Defined.

(** X2: a poll leaves no stored decision ready, keeps the length of the
    history, and leaves every decision that was already evaluated exactly
    as it was (an evaluation is written once). *)
Theorem poll_settles :
  forall (price : number) (w : World),
    let h' := decisionHistory (snd (evaluatePendingDecisions price w)) in
    length h' = length (decisionHistory w) /\
    (forall d', In d' h' -> status d' <> ready) /\
    (forall i d,
       nth_error (decisionHistory w) i = Some d ->
       status d = evaluated -> nth_error h' i = Some d).
Proof.
  intros price w h'. subst h'.
  split; [apply evaluatePendingDecisions_length|]. split.
  - intros d' Hin.
    destruct (In_nth_error _ _ Hin) as [i Hi].
    assert (Hlt : (i < length (decisionHistory w))%nat).
    { rewrite <- (evaluatePendingDecisions_length price w).
      apply nth_error_Some. congruence. }
    destruct (nth_error (decisionHistory w) i) as [d|] eqn:Hd;
      [|apply nth_error_None in Hd; lia].
    destruct (evaluatePendingDecisions_history price w i d Hd)
      as (d'' & Hd'' & Hev & Hsame).
    assert (d'' = d') by congruence. subst d''.
    destruct (status (advance (clock w (clockReads w)) d)) eqn:Ha.
    + rewrite (Hsame ltac:(congruence)). congruence.
    + destruct (Hev eq_refl). congruence.
    + rewrite (Hsame ltac:(congruence)). congruence.
  - intros i d Hd Hs.
    destruct (evaluatePendingDecisions_history price w i d Hd)
      as (d' & Hd' & _ & Hsame).
    assert (Ha : advance (clock w (clockReads w)) d = d).
    { unfold advance. now rewrite Hs. }
    rewrite Ha in Hsame. rewrite Hd'. f_equal. apply Hsame. congruence.
Qed.

(** X3: getDecisionHistory returns the newest [limit] decisions, newest
    first, when [limit] is at least 1; with a limit of 0 it returns the
    whole history (slice(-0) is slice(0)), newest first. *)
Theorem getDecisionHistory_newest_first :
  forall (limit : nat) (w : World),
    ((1 <= limit)%nat ->
     getDecisionHistory limit w = firstn limit (rev (decisionHistory w)) /\
     length (getDecisionHistory limit w)
       = Nat.min limit (length (decisionHistory w))) /\
    getDecisionHistory 0 w = rev (decisionHistory w).
Proof.
  intros limit w. split; [|reflexivity].
  intros Hl. unfold getDecisionHistory, slice_last.
  destruct limit as [|n]; [lia|].
  rewrite firstn_rev. split; [reflexivity|].
  rewrite length_rev, length_skipn. lia.
Qed.

Lemma count_status_partition (h : list Decision) :
  (count_status pending h + count_status ready h
   + count_status evaluated h)%nat = length h.
Proof.
  unfold count_status. induction h as [|d h IH]; [reflexivity|].
  cbn [filter length]. destruct (status d); cbn [status_eqb length]; lia.
Qed.

(** X4: whenever getPerformanceStats returns, its pending, ready and
    evaluated counts add up to the number of stored decisions; its [total]
    is that number only when some decision is evaluated, and is 0 (with
    accuracy and win rate 0) when none is, however many are stored. *)
Theorem stats_counts :
  forall (w : World) (st : Stats),
    getPerformanceStats w = Some st ->
    (st_pending st + st_ready st + st_evaluated st)%nat
      = length (decisionHistory w) /\
    st_evaluated st = count_status evaluated (decisionHistory w) /\
    (st_evaluated st = 0%nat ->
     st_total st = 0%nat /\ st_accuracy st = 0 /\ st_winRate st = 0) /\
    (st_evaluated st <> 0%nat -> st_total st = length (decisionHistory w)).
Proof.
  intros w st. unfold getPerformanceStats.
  pose proof (count_status_partition (decisionHistory w)) as Hp.
  fold (count_status evaluated (decisionHistory w)).
  destruct (count_status evaluated (decisionHistory w) =? 0)%nat eqn:Hz.
  - apply Nat.eqb_eq in Hz. intros [= <-]. cbn. repeat split; lia.
  - apply Nat.eqb_neq in Hz.
    destruct (count_result correct _); [|discriminate].
    destruct (count_result incorrect _); [|discriminate].
    destruct (count_result neutral _); [|discriminate].
    intros [= <-]. cbn. repeat split; try lia.
Qed.

(** Instance: two pending decisions, none evaluated: [total] is 0. *)
Lemma stats_counts_witness :
  option_map st_total
    (getPerformanceStats
       (set_decisionHistory [Samples.decision0 "BUY" pending;
                             Samples.decision0 "SELL" pending]
                            Samples.world0)) = Some 0%nat.
Proof.
  destruct (getPerformanceStats
              (set_decisionHistory [Samples.decision0 "BUY" pending;
                                    Samples.decision0 "SELL" pending]
                                   Samples.world0)) as [st|] eqn:E;
    [|discriminate E].
  destruct (stats_counts _ st E) as (_ & He & Hzero & _).
  cbn [option_map]. f_equal. apply Hzero. rewrite He. reflexivity.
Defined.

(** X5: when the monitor is not loaded, evaluating a ready decision still
    evaluates it and returns the result; nothing reaches the rolling window
    and the console gets the evaluation line followed by one warning. *)
Theorem evaluate_without_monitor :
  forall (d : Decision) (futurePrice : number) (w : World),
    status d = ready ->
    SystemState_loaded w = false ->
    let r := evaluateDecision d futurePrice w in
    fst (fst r) <> None /\
    status (snd (fst r)) = evaluated /\
    decisionWindow (snd r) = decisionWindow w /\
    decisionHistory (snd r) = decisionHistory w /\
    console (snd r) =
      console w ++ [console_log "Avaliacao";
                    console_warn "SystemState nao disponivel"].
Proof.
  intros d fp w Hs Hl r. subst r.
  unfold evaluateDecision. rewrite Hs.
  cbn -[SystemState.recordDecision classify].
  unfold bind, ret, emit, Date_now, get_SystemState_loaded.
  cbn -[SystemState.recordDecision classify]. rewrite Hl.
  cbn -[classify]. rewrite <- app_assoc.
  repeat split. discriminate.
Qed.

(** Instance: the sample SELL on a page without the monitor. *)
Lemma evaluate_without_monitor_witness :
  decisionWindow
    (snd (evaluateDecision (Samples.decision0 "SELL" ready) 100.05
            Samples.world_offline)) = [].
Proof.
  apply (evaluate_without_monitor (Samples.decision0 "SELL" ready) 100.05
           Samples.world_offline eq_refl eq_refl).
Defined.

End LedgerRuns.

(* ================================================================== *)
(** ** Statistics per timeframe *)
(* ================================================================== *)

Section TimeframeStatistics.
Import JS Host DecisionEvaluator Vocabulary Runs.
Local Open Scope float_scope.

Lemma count_tf_snoc (tf : string) (p : Decision -> bool) (h : list Decision)
      (d : Decision) :
  count_tf tf p (h ++ [d]) =
    (count_tf tf p h
     + Nat.b2n (String.eqb (timeframe d) tf && p d))%nat.
Proof.
  unfold count_tf. rewrite filter_app, length_app. cbn [filter].
  destruct (String.eqb (timeframe d) tf && p d); reflexivity.
Qed.

Lemma count_tf_le (tf : string) (p : Decision -> bool) (h : list Decision) :
  (count_tf tf p h <= count_tf tf (fun _ => true) h)%nat.
Proof.
  unfold count_tf. induction h as [|d h IH]; [cbn; lia|].
  cbn [filter]. destruct (String.eqb (timeframe d) tf); cbn [andb];
    [destruct (p d)|]; cbn [length]; lia.
Qed.

Lemma tf_tally_empty (tf : string) (h : list Decision) :
  count_tf tf (fun _ => true) h = 0%nat -> tf_tally tf h = tf_zero.
Proof.
  intros Hz. unfold tf_tally, tf_zero.
  pose proof (fun p => count_tf_le tf p h) as Hle.
  f_equal;
    match goal with |- count_tf tf ?p h = _ => specialize (Hle p); lia end.
Qed.

Lemma tf_lookup_update (tf tf' : string)
      (f : TimeframeStats -> TimeframeStats)
      (stats : list (string * TimeframeStats)) :
  tf_lookup tf' (tf_update tf f stats) =
    if String.eqb tf tf'
    then Some (f (match tf_lookup tf stats with
                  | Some v => v
                  | None => tf_zero
                  end))
    else tf_lookup tf' stats.
Proof.
  induction stats as [|[k v] rest IH]; cbn.
  - destruct (String.eqb tf tf'); reflexivity.
  - destruct (String.eqb k tf) eqn:Hk; cbn.
    + apply String.eqb_eq in Hk. subst k.
      destruct (String.eqb tf tf'); reflexivity.
    + rewrite IH.
      destruct (String.eqb tf tf') eqn:Ht.
      * apply String.eqb_eq in Ht. subst tf'. now rewrite Hk.
      * reflexivity.
Qed.

Lemma tf_count_tally (tf : string) (done : list Decision) (d : Decision) :
  timeframe d = tf ->
  (status d = evaluated -> evaluation d <> None) ->
  tf_count (status d) (option_map result (evaluation d)) (tf_tally tf done)
    = tf_tally tf (done ++ [d]).
Proof.
  intros Htf Hev. unfold tf_count, tf_tally.
  rewrite !count_tf_snoc, Htf, String.eqb_refl. cbn [andb].
  unfold has_outcome.
  cbn [tf_total tf_pending tf_ready tf_evaluated tf_correct tf_incorrect
       tf_neutral tf_accuracy].
  destruct (status d) eqn:Hs; cbn [status_eqb andb Nat.b2n].
  1,2: f_equal; lia.
  destruct (evaluation d) as [e|]; [|now elim (Hev eq_refl)].
  cbn [option_map]. destruct (result e); cbn [result_eqb Nat.b2n];
    f_equal; lia.
Qed.

Lemma tf_tally_other (tf : string) (done : list Decision) (d : Decision) :
  String.eqb (timeframe d) tf = false ->
  tf_tally tf (done ++ [d]) = tf_tally tf done.
Proof.
  intros Hne. unfold tf_tally. rewrite !count_tf_snoc, Hne. cbn.
  f_equal; lia.
Qed.

Lemma tf_collect_expected (h done : list Decision)
      (stats res : list (string * TimeframeStats)) :
  (forall tf, tf_lookup tf stats = tf_expected tf done) ->
  tf_collect h stats = Some res ->
  forall tf, tf_lookup tf res = tf_expected tf (done ++ h).
Proof.
  revert done stats; induction h as [|d h IH]; intros done stats Hinv Hres tf.
  - injection Hres as <-. now rewrite app_nil_r.
  - cbn [tf_collect] in Hres.
    assert (Hev : status d = evaluated -> evaluation d <> None).
    { intros Hs He. rewrite Hs, He in Hres. discriminate. }
    assert (Hstep :
      tf_collect h
        (if existsb (String.eqb (timeframe d)) Object_prototype_names
         then stats
         else tf_update (timeframe d)
                (tf_count (status d) (option_map result (evaluation d)))
                stats) = Some res).
    { destruct (status d) eqn:Hs; destruct (evaluation d) eqn:He;
        try (now elim (Hev eq_refl));
        destruct (existsb _ _); exact Hres. }
    clear Hres.
    replace (done ++ d :: h) with ((done ++ [d]) ++ h)
      by (rewrite <- app_assoc; reflexivity).
    eapply IH; [|exact Hstep].
    clear Hstep IH tf. intros tf. unfold tf_expected.
    rewrite count_tf_snoc. cbn [andb].
    destruct (existsb (String.eqb (timeframe d)) Object_prototype_names)
      eqn:Hinh.
    + rewrite Hinv. unfold tf_expected.
      destruct (String.eqb (timeframe d) tf) eqn:Ht.
      * apply String.eqb_eq in Ht. subst tf. now rewrite Hinh.
      * rewrite (tf_tally_other tf done d Ht). cbn [andb Nat.b2n].
        now rewrite Nat.add_0_r.
    + rewrite tf_lookup_update.
      destruct (String.eqb (timeframe d) tf) eqn:Ht.
      * apply String.eqb_eq in Ht. subst tf. rewrite Hinh.
        cbn [orb andb Nat.b2n].
        replace (count_tf (timeframe d) (fun _ => true) done + 1 =? 0)%nat
          with false by (symmetry; apply Nat.eqb_neq; lia).
        f_equal. rewrite <- (tf_count_tally _ done d eq_refl Hev).
        f_equal. rewrite Hinv. unfold tf_expected. rewrite Hinh.
        cbn [orb].
        destruct (count_tf (timeframe d) (fun _ => true) done =? 0)%nat
          eqn:Hz; [|reflexivity].
        apply Nat.eqb_eq in Hz. symmetry. now apply tf_tally_empty.
      * rewrite Hinv. unfold tf_expected.
        rewrite (tf_tally_other tf done d Ht). cbn [andb Nat.b2n].
        now rewrite Nat.add_0_r.
Qed.

Lemma tf_lookup_map (tf : string) (f : TimeframeStats -> TimeframeStats)
      (stats : list (string * TimeframeStats)) :
  tf_lookup tf (map (fun kv => (fst kv, f (snd kv))) stats)
    = option_map f (tf_lookup tf stats).
Proof.
  induction stats as [|[k v] rest IH]; [reflexivity|]. cbn.
  destruct (String.eqb k tf); [reflexivity|exact IH].
Qed.

Lemma tf_collect_evaluations (h : list Decision)
      (stats res : list (string * TimeframeStats)) :
  tf_collect h stats = Some res -> evaluated_have_evaluation h.
Proof.
  revert stats; induction h as [|d h IH]; intros stats Hres x Hin Hs He;
    [contradiction|].
  cbn [tf_collect] in Hres. destruct Hin as [<-|Hin].
  - rewrite Hs, He in Hres. discriminate.
  - destruct (status d); destruct (evaluation d); try discriminate;
      destruct (existsb _ _); eapply IH; eauto.
Qed.

Lemma count_tf_status_partition (tf : string) (h : list Decision) :
  count_tf tf (fun _ => true) h =
    (count_tf tf (fun d => status_eqb (status d) pending) h
     + count_tf tf (fun d => status_eqb (status d) ready) h
     + count_tf tf (fun d => status_eqb (status d) evaluated) h)%nat.
Proof.
  unfold count_tf. induction h as [|d h IH]; [reflexivity|].
  cbn [filter]. destruct (String.eqb (timeframe d) tf); cbn [andb];
    [|exact IH].
  destruct (status d); cbn [status_eqb length]; lia.
Qed.

Lemma count_tf_outcome_partition (tf : string) (h : list Decision) :
  evaluated_have_evaluation h ->
  count_tf tf (fun d => status_eqb (status d) evaluated) h =
    (count_tf tf (has_outcome correct) h
     + count_tf tf (has_outcome incorrect) h
     + count_tf tf (has_outcome neutral) h)%nat.
Proof.
  unfold count_tf. induction h as [|d h IH]; intros Hwf; [reflexivity|].
  assert (Hwf' : evaluated_have_evaluation h).
  { intros x Hx. apply Hwf. now right. }
  specialize (IH Hwf'). cbn [filter].
  destruct (String.eqb (timeframe d) tf); cbn [andb]; [|exact IH].
  destruct (status_eqb (status d) evaluated) eqn:Hs.
  - apply status_eqb_eq in Hs.
    pose proof (Hwf d (or_introl eq_refl) Hs) as He.
    destruct (evaluation d) as [e|] eqn:Hev; [|congruence].
    rewrite !(has_outcome_evaluated _ d e Hs Hev).
    destruct (result e); cbn [result_eqb length]; lia.
  - rewrite !(has_outcome_other _ d Hs). exact IH.
Qed.

(** X6: when getTimeframeStats returns, the entry of a timeframe counts
    exactly the stored decisions with that timeframe: total, pending, ready,
    evaluated, and the three outcomes; the counters add up; its accuracy is
    correct / (correct + incorrect) x 100 (0 without decisive outcomes).
    There is no entry for a timeframe that no stored decision carries, nor
    for one that names a member every object inherits. *)
Theorem timeframe_stats_counts :
  forall (w : World) (stats : list (string * TimeframeStats)),
    getTimeframeStats w = Some stats ->
    forall tf : string,
      let h := decisionHistory w in
      match tf_lookup tf stats with
      | None =>
          In tf Object_prototype_names \/
          count_tf tf (fun _ => true) h = 0%nat
      | Some s =>
          ~ In tf Object_prototype_names /\
          (1 <= tf_total s)%nat /\
          tf_total s = count_tf tf (fun _ => true) h /\
          tf_pending s =
            count_tf tf (fun d => status_eqb (status d) pending) h /\
          tf_ready s = count_tf tf (fun d => status_eqb (status d) ready) h /\
          tf_evaluated s =
            count_tf tf (fun d => status_eqb (status d) evaluated) h /\
          tf_correct s = count_tf tf (has_outcome correct) h /\
          tf_incorrect s = count_tf tf (has_outcome incorrect) h /\
          tf_neutral s = count_tf tf (has_outcome neutral) h /\
          tf_total s = (tf_pending s + tf_ready s + tf_evaluated s)%nat /\
          tf_evaluated s
            = (tf_correct s + tf_incorrect s + tf_neutral s)%nat /\
          tf_accuracy s =
            (if (0 <? tf_correct s + tf_incorrect s)%nat
             then (of_nat (tf_correct s)
                   / of_nat (tf_correct s + tf_incorrect s)) * 100
             else 0)
      end.
Proof.
  intros w stats Hget tf h. unfold getTimeframeStats in Hget.
  destruct (tf_collect (decisionHistory w) []) as [raw|] eqn:Hraw;
    [|discriminate].
  injection Hget as <-.
  pose proof (tf_collect_expected (decisionHistory w) [] [] raw) as Hexp.
  cbn [app] in Hexp.
  assert (H0 : forall tf, tf_lookup tf [] = tf_expected tf []).
  { intros t. unfold tf_expected. cbn. now rewrite orb_true_r. }
  specialize (Hexp H0 Hraw tf). rewrite tf_lookup_map, Hexp.
  fold h. unfold tf_expected.
  destruct (existsb (String.eqb tf) Object_prototype_names) eqn:Hinh.
  - cbn. left. apply existsb_exists in Hinh.
    destruct Hinh as (x & Hin & Hx). apply String.eqb_eq in Hx. now subst x.
  - cbn [orb].
    destruct (count_tf tf (fun _ => true) h =? 0)%nat eqn:Hz.
    + cbn. right. now apply Nat.eqb_eq.
    + apply Nat.eqb_neq in Hz. cbn [option_map].
      assert (Hn : ~ In tf Object_prototype_names).
      { intros Hin.
        assert (existsb (String.eqb tf) Object_prototype_names = true).
        { apply existsb_exists. exists tf. split; [exact Hin|].
          apply String.eqb_refl. }
        congruence. }
      pose proof (count_tf_status_partition tf h) as Hp1.
      pose proof (count_tf_outcome_partition tf h
                    (tf_collect_evaluations _ _ _ Hraw)) as Hp2.
      unfold tf_finish, tf_tally.
      cbn [tf_total tf_pending tf_ready tf_evaluated tf_correct tf_incorrect
           tf_neutral tf_accuracy].
      repeat split; try assumption; try lia.
Qed.

(** Instance: the ledger holding a correct BUY and a neutral SELL, both on
    "1m": two decisions, both evaluated, one correct, accuracy 100. *)
Lemma timeframe_stats_counts_witness :
  option_map (tf_lookup "1m")
             (getTimeframeStats Samples.world_two)
    = Some (Some {| tf_total := 2; tf_pending := 0; tf_ready := 0;
                    tf_evaluated := 2; tf_correct := 1; tf_incorrect := 0;
                    tf_neutral := 1; tf_accuracy := 100 |}) /\
  option_map (tf_lookup "5m") (getTimeframeStats Samples.world_two)
    = Some None.
Proof.
  destruct (getTimeframeStats Samples.world_two) as [stats|] eqn:E;
    [|discriminate E].
  pose proof (timeframe_stats_counts Samples.world_two stats E "1m") as H1.
  pose proof (timeframe_stats_counts Samples.world_two stats E "5m") as H5.
  cbv zeta in H1, H5. cbn [option_map]. split.
  - destruct (tf_lookup "1m" stats) as [s|];
      [|destruct H1 as [H1|H1]; vm_compute in H1; [|discriminate H1];
        repeat (destruct H1 as [H1|H1]; [discriminate H1|]); contradiction].
    destruct H1 as (_ & _ & Ht & Hp & Hr & He & Hc & Hi & Hn & _ & _ & Ha).
    destruct s. cbn in *. subst. vm_compute. reflexivity.
  - destruct (tf_lookup "5m" stats) as [s|]; [|reflexivity].
    destruct H5 as (_ & Hpos & Ht & _). rewrite Ht in Hpos.
    vm_compute in Hpos. lia.
Defined.
End TimeframeStatistics.

(* ================================================================== *)
(** ** The monitor over any sequence of recordings *)
(* ================================================================== *)

Section MonitorRuns.
Import JS Host Vocabulary Runs.
Local Open Scope float_scope.

Lemma pushed_last_n (window : list Entry) (e : Entry) :
  (length window <= 50)%nat -> pushed window e = last_n 50 (window ++ [e]).
Proof.
  intros Hlen. unfold pushed, last_n. rewrite length_app. cbn [length].
  destruct (Nat.ltb_spec 50 (length window + 1)) as [Hlt|Hle].
  - replace (length window + 1 - 50)%nat with 1%nat by lia.
    destruct (window ++ [e]); reflexivity.
  - replace (length window + 1 - 50)%nat with 0%nat by lia. reflexivity.
Qed.

Lemma SystemState_recordDecision_effect (data : option SystemState.Data)
      (w : World) :
  decisionWindow (snd (SystemState.recordDecision data w)) =
    match accepted data (clock w (clockReads w)) with
    | Some e => pushed (decisionWindow w) e
    | None => decisionWindow w
    end.
Proof.
  unfold SystemState.recordDecision, accepted.
  destruct data as [data|]; [|reflexivity].
  destruct (SystemState.data_success data); [|reflexivity].
  destruct (SystemState.data_timestamp data) as [t|];
    [cbn [SystemState.number_or]; destruct (truthy t)|]; reflexivity.
Qed.

Lemma forEach_SystemState_recordDecision
      (ds : list (option SystemState.Data)) (w : World) :
  (length (decisionWindow w) <= 50)%nat ->
  decisionWindow (snd (forEach ds SystemState.recordDecision w)) =
    last_n 50 (decisionWindow w ++ stored ds w).
Proof.
  revert w; induction ds as [|data rest IH]; intros w Hlen.
  - cbn [forEach stored]. unfold ret. cbn [snd].
    rewrite app_nil_r. unfold last_n.
    replace (_ - 50)%nat with 0%nat by lia. reflexivity.
  - cbn [forEach stored]. unfold bind.
    pose proof (SystemState_recordDecision_effect data w) as He.
    destruct (SystemState.recordDecision data w) as [u w1].
    cbn [snd] in *.
    destruct (accepted data (clock w (clockReads w))) as [e|].
    + rewrite pushed_last_n in He by exact Hlen.
      rewrite IH by (rewrite He, last_n_length; lia).
      rewrite He, last_n_app_last_n, <- app_assoc. reflexivity.
    + rewrite IH by (rewrite He; exact Hlen). now rewrite He.
Qed.

(** X7: after any sequence of SystemState.recordDecision calls, from a
    window within its bound, the window is exactly the last 50 of the
    earlier entries followed by the entries of the valid payloads, in
    recording order; payloads without [success] leave no trace in it; and
    the ledger's history is never touched. *)
Theorem window_bounded_fifo :
  forall (ds : list (option SystemState.Data)) (w : World),
    (length (decisionWindow w) <= 50)%nat ->
    let w' := snd (forEach ds SystemState.recordDecision w) in
    let all := decisionWindow w ++ stored ds w in
    decisionWindow w' = skipn (length all - 50) all /\
    (length (decisionWindow w') <= 50)%nat /\
    (length all <= 50 -> decisionWindow w' = all)%nat /\
    (length (stored ds w) <= length ds)%nat /\
    decisionHistory w' = decisionHistory w.
Proof.
  intros ds w Hlen w' all. subst w' all.
  pose proof (forEach_SystemState_recordDecision ds w Hlen) as H.
  split; [exact H|]. split; [rewrite H, last_n_length; lia|].
  split; [intros Hle; rewrite H; unfold last_n;
          replace (_ - 50)%nat with 0%nat by lia; reflexivity|].
  split.
  - clear. revert w. induction ds as [|d rest IH]; intros w; cbn; [lia|].
    destruct (accepted d _); cbn;
      specialize (IH (snd (SystemState.recordDecision d w))); lia.
  - clear. revert w. induction ds as [|d rest IH]; intros w; [reflexivity|].
    cbn [forEach]. unfold bind.
    pose proof (SystemState_recordDecision_history d w) as Hh.
    destruct (SystemState.recordDecision d w) as [u w1]. cbn [snd] in *.
    now rewrite IH.
Qed.

(** Instance: sixty valid payloads on a fresh page fill the window. *)
Lemma window_bounded_fifo_witness :
  length (decisionWindow
            (snd (forEach (repeat (Some Samples.data_ok) 60)
                          SystemState.recordDecision Samples.world0)))
    = 50%nat.
Proof.
  destruct (window_bounded_fifo (repeat (Some Samples.data_ok) 60)
              Samples.world0 ltac:(cbn; lia)) as (H & _).
  rewrite H. vm_compute. reflexivity.
Defined.

(** X8: an entry added by SystemState.recordDecision never carries a NaN
    return or confidence (NaN, like 0 and a missing value, is stored as 0)
    nor an empty timeframe or direction (stored as "unknown" and
    "NEUTRAL"). *)
Theorem stored_entries_sanitized :
  forall (data : option SystemState.Data) (w : World) (e : Entry),
    In e (decisionWindow (snd (SystemState.recordDecision data w))) ->
    In e (decisionWindow w) \/
    (is_nan (e_return e) = false /\
     is_nan (e_confidence e) = false /\
     e_timeframe e <> ""%string /\
     e_direction e <> ""%string /\
     exists d, data = Some d /\
               SystemState.data_success d = Some (e_success e)).
Proof.
  intros data w e. rewrite SystemState_recordDecision_effect.
  unfold accepted.
  destruct data as [d|]; [|now left].
  destruct (SystemState.data_success d) as [b|] eqn:Hb; [|now left].
  unfold pushed. intros Hin.
  assert (Hin' : In e (decisionWindow w ++
                       [ {| e_timeframe :=
                              SystemState.string_or
                                (SystemState.data_timeframe d) "unknown";
                            e_direction :=
                              SystemState.string_or
                                (SystemState.data_direction d) "NEUTRAL";
                            e_success := b;
                            e_return :=
                              SystemState.number_or
                                (SystemState.data_return d) 0;
                            e_confidence :=
                              SystemState.number_or
                                (SystemState.data_confidence d) 0;
                            e_timestamp :=
                              SystemState.number_or
                                (SystemState.data_timestamp d)
                                (clock w (clockReads w)) |} ])).
  { destruct (_ <? _)%nat; [|exact Hin].
    destruct (decisionWindow w ++ _); [contradiction|now right]. }
  apply in_app_or in Hin'. destruct Hin' as [H|[<-|[]]]; [now left|right].
  assert (Hnum : forall x, is_nan (SystemState.number_or x 0) = false).
  { intros [v|]; [|reflexivity]. cbn. unfold truthy.
    destruct (is_zero v); [reflexivity|]. cbn.
    destruct (is_nan v) eqn:Hn; [reflexivity|exact Hn]. }
  assert (Hstr : forall x dflt, dflt <> ""%string ->
                                SystemState.string_or x dflt <> ""%string).
  { intros [v|] dflt Hd; [|exact Hd]. cbn. unfold truthy_string.
    destruct (String.eqb v "") eqn:Hv; [exact Hd|].
    now apply String.eqb_neq. }
  cbn. repeat split; try apply Hnum; try (apply Hstr; discriminate).
  exists d. now split.
Qed.

(** Instance: a payload with a NaN return and an empty direction. *)
Lemma stored_entries_sanitized_witness :
  map (fun e => (e_return e, e_direction e))
      (decisionWindow
         (snd (SystemState.recordDecision (Some Samples.data_dirty)
                                          Samples.world0)))
    = [(0, "NEUTRAL"%string)].
Proof.
  assert (Hin : In (Samples.entry_of_dirty)
                   (decisionWindow
                      (snd (SystemState.recordDecision
                              (Some Samples.data_dirty) Samples.world0)))).
  { left. reflexivity. }
  destruct (stored_entries_sanitized _ _ _ Hin) as [[]|_].
  reflexivity.
Defined.

Lemma consecutive_errors_max (l : list Entry) (acc : SystemState.Errors) :
  SystemState.max acc = SystemState.current acc ->
  SystemState.max (SystemState.consecutive_errors_from l acc) =
    SystemState.current (SystemState.consecutive_errors_from l acc).
Proof.
  revert acc; induction l as [|d l IH]; intros acc Hacc; [exact Hacc|].
  cbn. destruct (e_success d); cbn; [exact Hacc|].
  apply IH. cbn. lia.
Qed.

Lemma streak_rev_failures (fails rest : list Entry) :
  (forall x, In x fails -> e_success x = false) ->
  streak_rev (fails ++ rest) = (length fails + streak_rev rest)%nat.
Proof.
  induction fails as [|d l IH]; intros Hall; [reflexivity|].
  cbn [app length]. rewrite streak_rev_cons.
  rewrite (Hall d (or_introl eq_refl)). rewrite IH; [lia|].
  intros x Hx. apply Hall. now right.
Qed.

(** X9: calculateConsecutiveErrors counts the failures at the newest end of
    the window, back to the newest success: its [current] is the length of
    that run (0 when the newest entry is a success or the window is empty,
    the window length when nothing succeeded), and its [max] is always the
    same number, not a maximum over older runs. *)
Theorem consecutive_errors_shape :
  forall window : list Entry,
    let errors := SystemState.calculateConsecutiveErrors window in
    SystemState.max errors = SystemState.current errors /\
    (SystemState.current errors <= length window)%nat /\
    (forall older d fails,
       window = older ++ d :: fails ->
       e_success d = true ->
       (forall x, In x fails -> e_success x = false) ->
       SystemState.current errors = length fails) /\
    ((forall x, In x window -> e_success x = false) ->
     SystemState.current errors = length window).
Proof.
  intros window errors. subst errors.
  unfold SystemState.calculateConsecutiveErrors.
  fold (streak_rev (rev window)).
  split; [now apply consecutive_errors_max|].
  assert (Hbound : forall l, (streak_rev l <= length l)%nat).
  { induction l as [|d l IH]; [cbn; lia|].
    rewrite streak_rev_cons. destruct (e_success d); cbn [length]; lia. }
  split; [rewrite <- length_rev; apply Hbound|]. split.
  - intros older d fails -> Hd Hf.
    rewrite rev_app_distr. cbn [rev]. rewrite <- app_assoc. cbn [app].
    rewrite streak_rev_failures
      by (intros x Hx; apply Hf; now apply in_rev).
    rewrite streak_rev_cons, Hd, length_rev. lia.
  - intros Hall.
    rewrite <- (app_nil_r (rev window)).
    rewrite streak_rev_failures
      by (intros x Hx; apply Hall; now apply in_rev).
    rewrite length_rev. cbn. lia.
Qed.

(** X10: getRecentMetrics reads the window without changing anything.  For
    a size of at least 1 all four of its fields (size, accuracy, win rate,
    average confidence) are computed over the newest [windowSize] entries,
    over all entries when fewer are stored; for a size of 0 they are
    computed over the whole window, not over none. *)
Theorem recent_metrics_window :
  forall (windowSize : nat) (w : World),
    let m := fst (SystemState.getRecentMetrics windowSize w) in
    let win := decisionWindow w in
    let over := fun recent : list Entry =>
      {| SystemState.rm_windowSize := length recent;
         SystemState.rm_accuracy := SystemState.calculateAccuracy recent;
         SystemState.rm_winRate := SystemState.calculateWinRate recent;
         SystemState.rm_avgConfidence :=
           SystemState.calculateAvgConfidence recent |} in
    snd (SystemState.getRecentMetrics windowSize w) = w /\
    ((1 <= windowSize)%nat ->
     m = over (last_n windowSize win) /\
     SystemState.rm_windowSize m = Nat.min windowSize (length win)) /\
    (windowSize = 0%nat -> m = over win).
Proof.
  intros n w m win over. subst m win over.
  unfold SystemState.getRecentMetrics, bind, get_decisionWindow, ret.
  assert (Hslice : forall k, (1 <= k)%nat ->
            slice_last k (decisionWindow w) = last_n k (decisionWindow w)).
  { intros [|k] Hk; [lia|reflexivity]. }
  assert (Hzero : forall l : list Entry, length l = 0%nat ->
            SystemState.calculateAccuracy l = 0 /\
            SystemState.calculateWinRate l = 0 /\
            SystemState.calculateAvgConfidence l = 0).
  { intros l Hl. unfold SystemState.calculateAccuracy,
      SystemState.calculateWinRate, SystemState.calculateAvgConfidence.
    now rewrite Hl. }
  split; [destruct (length _ =? 0)%nat; reflexivity|]. split.
  - intros Hn. rewrite (Hslice n Hn).
    destruct (length (last_n n (decisionWindow w)) =? 0)%nat eqn:Hz.
    + apply Nat.eqb_eq in Hz. destruct (Hzero _ Hz) as (Ha & Hw & Hc).
      cbn [fst SystemState.rm_windowSize]. rewrite Ha, Hw, Hc, Hz.
      split; [reflexivity|]. rewrite last_n_length in Hz. lia.
    + cbn [fst SystemState.rm_windowSize]. rewrite last_n_length.
      split; reflexivity.
  - intros ->. cbn [slice_last].
    destruct (length (decisionWindow w) =? 0)%nat eqn:Hz.
    + apply Nat.eqb_eq in Hz. destruct (Hzero _ Hz) as (Ha & Hw & Hc).
      cbn [fst]. now rewrite Ha, Hw, Hc, Hz.
    + reflexivity.
Qed.

End MonitorRuns.

(* ================================================================== *)
(** ** More facts about binary64 numbers *)
(* ================================================================== *)

Section MoreFloatFacts.
Local Open Scope float_scope.

Lemma ltb_leb (a b : float) : (a <? b) = true -> (a <=? b) = true.
Proof.
  rewrite ltb_spec, leb_spec. unfold SFltb, SFleb.
  destruct (SFcompare (Prim2SF a) (Prim2SF b)) as [[ | | ]|];
    intros; congruence.
Qed.

Lemma ltb_irrefl (a : float) : (a <? a) = false.
Proof.
  rewrite ltb_spec. unfold SFltb.
  destruct (Prim2SF a) as [s | s | | s m e]; try destruct s; cbn;
    try reflexivity;
    rewrite Z.compare_refl, Pos.compare_cont_refl; reflexivity.
Qed.

Lemma leb_refl_finite (a : float) : is_finite a = true -> (a <=? a) = true.
Proof.
  intros H. rewrite leb_spec. unfold SFleb.
  destruct (finite_shape a H) as [[s E] | [s [m [e E]]]]; rewrite E.
  - reflexivity.
  - destruct s; cbn; rewrite Z.compare_refl, Pos.compare_cont_refl;
      reflexivity.
Qed.

Lemma finite_below_infinity (a : float) :
  is_finite a = true -> (a <? infinity) = true /\ (neg_infinity <? a) = true.
Proof.
  intros H. rewrite !ltb_spec.
  change (Prim2SF infinity) with (S754_infinity false).
  change (Prim2SF neg_infinity) with (S754_infinity true).
  destruct (finite_shape a H) as [[s E] | [s [m [e E]]]]; rewrite E;
    split; reflexivity.
Qed.

Lemma finite_not_nan (a : float) : is_finite a = true -> is_nan a = false.
Proof.
  unfold is_finite. intros H. apply negb_true_iff, orb_false_iff in H.
  tauto.
Qed.

(** A number above zero is not NaN and has no sign bit. *)
Lemma positive_facts (x : float) :
  (0 <? x) = true ->
  is_nan x = false /\ get_sign x = false /\ (x <? 0) = false.
Proof.
  unfold get_sign, is_zero, is_nan.
  rewrite !FloatAxioms.eqb_spec, !ltb_spec.
  change (Prim2SF 0) with (S754_zero false).
  change (Prim2SF zero) with (S754_zero false).
  intros H.
  assert (Hz : SFeqb (Prim2SF x) (S754_zero false) = false).
  { destruct (Prim2SF x) as [s | s | | s m e]; try destruct s;
      cbn in *; congruence. }
  rewrite Hz.
  destruct (Prim2SF x) as [s | s | | s m e]; try destruct s; cbn in *;
    try discriminate; repeat split;
    rewrite ?Z.compare_refl, ?Pos.compare_cont_refl; reflexivity.
Qed.

(** Zero divided by a finite positive number is [+0]. *)
Lemma zero_div_positive (a : float) :
  is_finite a = true -> (0 <? a) = true -> 0 / a = 0.
Proof.
  intros Hf Hp. apply Prim2SF_inj. rewrite div_spec.
  rewrite ltb_spec in Hp.
  change (Prim2SF 0) with (S754_zero false) in *.
  destruct (finite_shape a Hf) as [[s E] | [s [m [e E]]]]; rewrite E in *.
  - discriminate.
  - destruct s; [discriminate|reflexivity].
Qed.

End MoreFloatFacts.

(* ================================================================== *)
(** ** Direction and confidence *)
(* ================================================================== *)

Section DirectionAndConfidence.
Import JS Engine Rules.
Local Open Scope float_scope.

Lemma max2_zero (x : number) :
  max2 0 x = nan \/ max2 0 x = 0 \/
  (max2 0 x = x /\ (0 <? x) = true /\ is_nan x = false).
Proof.
  unfold max2. change (is_nan 0) with false. cbn [orb].
  destruct (is_nan x) eqn:Hn; [now left|].
  destruct (0 <? x) eqn:Hp; [right; right; repeat split|].
  right; left. destruct (x <? 0); [reflexivity|].
  change (get_sign 0) with false. reflexivity.
Qed.

(** [Math.min(100, Math.max(0, x))] is NaN or within [0, 100]. *)
Lemma clamp_percentage (x : number) :
  nan_or_percentage (Math_min [100; Math_max [0; x]]).
Proof.
  unfold nan_or_percentage, Math_min, Math_max, le. cbn [fold_left].
  change (min2 infinity 100) with 100.
  change (max2 neg_infinity 0) with 0.
  destruct (max2_zero x) as [-> | [-> | (-> & Hp & Hn)]].
  - left. reflexivity.
  - right. split; reflexivity.
  - destruct (positive_facts x Hp) as (_ & Hsign & _).
    unfold min2. change (is_nan 100) with false. rewrite Hn. cbn [orb].
    destruct (x <? 100) eqn:Hlt.
    + right. split; now apply ltb_leb.
    + destruct (100 <? x); [right; split; reflexivity|].
      rewrite Hsign. right; split; reflexivity.
Qed.

(** X11: the confidence returned by determineDirection is never below 0
    nor above 100: it is a number of [0, 100], or NaN (as for a threshold
    of 0 with a total of 0). *)
Theorem confidence_bounded :
  forall (totalScore : number) (config : Config) (indicators : Indicators),
    nan_or_percentage
      (dir_confidence (determineDirection totalScore config indicators)).
Proof.
  intros totalScore config indicators. unfold determineDirection.
  cbn [dir_confidence]. apply clamp_percentage.
Qed.

Lemma direction_rule_holds (totalScore t : number) (config : Config)
      (indicators : Indicators) (r : Direction) :
  dir_direction r =
    (let direction :=
       if gt totalScore t then "BUY"%string
       else if lt totalScore (- t) then "SELL"%string
       else "NEUTRAL"%string in
     if trendFilter config then
       let direction :=
         if String.eqb direction "BUY"
            && String.eqb (ind_trend indicators) "downtrend"
         then "NEUTRAL"%string else direction in
       if String.eqb direction "SELL"
          && String.eqb (ind_trend indicators) "uptrend"
       then "NEUTRAL"%string else direction
     else direction) ->
  dir_confidence r =
    Math_min [100; Math_max [0; (abs totalScore / (t * 2)) * 100]] ->
  direction_rule totalScore t config indicators r.
Proof.
  intros Hd Hc. unfold direction_rule. rewrite Hd. clear Hd.
  split; [|split; [|split; [|exact Hc]]]; cbv zeta.
  all: destruct (gt totalScore t); destruct (lt totalScore (- t));
    destruct (trendFilter config);
    destruct (String.eqb_spec (ind_trend indicators) "downtrend") as [Hd|Hd];
    destruct (String.eqb_spec (ind_trend indicators) "uptrend") as [Hu|Hu];
    cbn; intuition (try discriminate; try congruence).
Qed.

Lemma nan_comparisons (x : float) :
  (nan <? x) = false /\ (x <? nan) = false /\ x / nan = nan.
Proof.
  repeat split.
  - rewrite ltb_spec. reflexivity.
  - rewrite ltb_spec. change (Prim2SF nan) with S754_nan.
    unfold SFltb. destruct (Prim2SF x); reflexivity.
  - apply Prim2SF_inj. rewrite div_spec.
    change (Prim2SF nan) with S754_nan.
    destruct (Prim2SF x); reflexivity.
Qed.

Lemma inherited_mode (mode : string) :
  In mode inherited_names -> THRESHOLDS mode = threshold_inherited.
Proof.
  intros Hin. cbn in Hin.
  repeat (destruct Hin as [<-|Hin]; [reflexivity|]). contradiction.
Qed.

Lemma plain_mode (mode : string) :
  ~ In mode inherited_names ->
  match THRESHOLDS mode with
  | threshold_number n => if truthy n then n else 25
  | threshold_inherited => nan
  | threshold_undefined => 25
  end = mode_threshold mode.
Proof.
  intros Hn. unfold THRESHOLDS, mode_threshold.
  destruct (String.eqb mode "aggressive"); [reflexivity|].
  destruct (String.eqb_spec mode "balanced") as [->|Hb]; [reflexivity|].
  destruct (String.eqb mode "conservative"); [reflexivity|].
  destruct (existsb (String.eqb mode) inherited_names) eqn:E;
    [|reflexivity].
  exfalso. apply Hn. apply existsb_exists in E.
  destruct E as (x & Hin & Hx). apply String.eqb_eq in Hx. now subst x.
Qed.

(** X12: with a finite override [t], determineDirection says BUY exactly
    when the total is above [t] and the trend filter does not veto it (on,
    with a downtrend), SELL exactly when the total is not above [t], is
    below [-t] and the filter does not veto it (on, with an uptrend), and
    NEUTRAL otherwise; the confidence is |total| / (2 t) x 100 clamped to
    [0, 100].  Without a finite override the threshold is 10 (aggressive),
    40 (conservative) and 25 for every other mode, except that a mode
    naming a member every object inherits gives NEUTRAL with a NaN
    confidence, whatever the total. *)
Theorem direction_by_threshold :
  forall (totalScore : number) (config : Config) (indicators : Indicators),
    let r := determineDirection totalScore config indicators in
    (forall t,
       backtestThreshold config = Some t -> Number_isFinite t = true ->
       direction_rule totalScore t config indicators r) /\
    (no_override config -> ~ In (tradingMode config) inherited_names ->
     direction_rule totalScore (mode_threshold (tradingMode config))
                    config indicators r) /\
    (no_override config -> In (tradingMode config) inherited_names ->
     dir_direction r = "NEUTRAL"%string /\
     is_nan (dir_confidence r) = true).
Proof.
  intros totalScore config indicators r. subst r. split; [|split].
  - intros t Ht Hfin. apply direction_rule_holds;
      unfold determineDirection; rewrite Ht, Hfin; reflexivity.
  - intros Hno Hplain.
    assert (Hthr : match backtestThreshold config with
                   | Some t => if Number_isFinite t then t
                               else mode_threshold (tradingMode config)
                   | None => mode_threshold (tradingMode config)
                   end = mode_threshold (tradingMode config)).
    { destruct (backtestThreshold config) as [t|] eqn:Hb; [|reflexivity].
      now rewrite (Hno t Hb). }
    apply direction_rule_holds; unfold determineDirection;
      rewrite (plain_mode _ Hplain), Hthr; reflexivity.
  - intros Hno Hinh. unfold determineDirection.
    rewrite (inherited_mode _ Hinh).
    assert (Hthr : match backtestThreshold config with
                   | Some t => if Number_isFinite t then t else nan
                   | None => nan
                   end = nan).
    { destruct (backtestThreshold config) as [t|] eqn:Hb; [|reflexivity].
      now rewrite (Hno t Hb). }
    rewrite Hthr. cbn [dir_direction dir_confidence]. unfold gt, lt.
    change (- nan) with nan. change (nan * 2) with nan.
    destruct (nan_comparisons totalScore) as (H1 & H2 & _).
    destruct (nan_comparisons (abs totalScore)) as (_ & _ & H3).
    rewrite H1, H2, H3. split.
    + destruct (trendFilter config); reflexivity.
    + reflexivity.
Qed.

(** Instance: a total of 30 in balanced mode with the filter on: BUY on a
    sideways market; and the mode "constructor": NEUTRAL. *)
Lemma direction_by_threshold_witness :
  dir_direction
    (determineDirection 30 Samples.filtered Samples.indicators0)
    = "BUY"%string /\
  dir_direction
    (determineDirection 30 Samples.odd_mode Samples.indicators0)
    = "NEUTRAL"%string.
Proof.
  split.
  - destruct (direction_by_threshold 30 Samples.filtered
                Samples.indicators0) as (_ & H & _).
    assert (Hno : no_override Samples.filtered) by (intros t Ht; discriminate).
    assert (Hplain : ~ In (tradingMode Samples.filtered) inherited_names).
    { cbn. intros H'.
      repeat (destruct H' as [H'|H']; [discriminate H'|]). exact H'. }
    destruct (H Hno Hplain) as (Hbuy & _). apply Hbuy. split.
    + reflexivity.
    + intros [_ Hd]. discriminate Hd.
  - destruct (direction_by_threshold 30 Samples.odd_mode
                Samples.indicators0) as (_ & _ & H).
    apply H.
    + intros t Ht. discriminate.
    + cbn. now left.
Defined.

End DirectionAndConfidence.

(* ================================================================== *)
(** ** The EMA series and the MACD histogram *)
(* ================================================================== *)

Section EmaSeries.
Import JS Engine Rules.
Local Open Scope float_scope.

Lemma array_set_length {A} (hole : A) (i : nat) (x : A) (arr : list A) :
  (i < length arr)%nat -> length (array_set hole i x arr) = length arr.
Proof.
  revert i; induction arr as [|a arr IH]; intros [|i] H; cbn in *;
    try lia; auto with arith.
Qed.

Lemma array_set_same {A} (hole : A) (i : nat) (x : A) (arr : list A) :
  (i < length arr)%nat -> nth_error (array_set hole i x arr) i = Some x.
Proof.
  revert i; induction arr as [|a arr IH]; intros [|i] H; cbn in *;
    try lia; auto with arith.
Qed.

Lemma array_set_other {A} (hole : A) (i j : nat) (x : A) (arr : list A) :
  (i < length arr)%nat -> i <> j ->
  nth_error (array_set hole i x arr) j = nth_error arr j.
Proof.
  revert i j; induction arr as [|a arr IH]; intros [|i] [|j] H Hne;
    cbn in *; try lia; try reflexivity.
  apply IH; lia.
Qed.

Lemma series_fst (g : number -> nat -> number) (l : list nat)
      (e : number) (a : list (option number)) :
  fst (fold_left (series_step g) l (e, a)) = fold_left g l e.
Proof.
  revert e a; induction l as [|i l IH]; intros e a; [reflexivity|].
  cbn [fold_left]. unfold series_step at 2. cbn [fst snd]. apply IH.
Qed.

Lemma series_length (g : number -> nat -> number) (l : list nat)
      (e : number) (a : list (option number)) :
  (forall i, In i l -> (i < length a)%nat) ->
  length (snd (fold_left (series_step g) l (e, a))) = length a.
Proof.
  revert e a; induction l as [|i l IH]; intros e a Hin; [reflexivity|].
  cbn [fold_left]. unfold series_step at 2. cbn [fst snd].
  assert (Hi : (i < length a)%nat) by (apply Hin; now left).
  rewrite IH; [now apply array_set_length|].
  intros j Hj. rewrite array_set_length by exact Hi. apply Hin. now right.
Qed.

Lemma series_untouched (g : number -> nat -> number) (l : list nat)
      (e : number) (a : list (option number)) (j : nat) :
  (forall i, In i l -> (i < length a)%nat) -> ~ In j l ->
  nth_error (snd (fold_left (series_step g) l (e, a))) j = nth_error a j.
Proof.
  revert e a; induction l as [|i l IH]; intros e a Hin Hj; [reflexivity|].
  cbn [fold_left]. unfold series_step at 2. cbn [fst snd].
  assert (Hi : (i < length a)%nat) by (apply Hin; now left).
  rewrite IH.
  - apply array_set_other; [exact Hi|]. intros ->. apply Hj. now left.
  - intros k Hk. rewrite array_set_length by exact Hi. apply Hin. now right.
  - intros Hk. apply Hj. now right.
Qed.

Lemma series_written (g : number -> nat -> number) (l : list nat)
      (e : number) (a : list (option number)) (j : nat) :
  (forall i, In i l -> (i < length a)%nat) ->
  ((exists v, nth_error a j = Some (Some v)) \/ In j l) ->
  exists v,
    nth_error (snd (fold_left (series_step g) l (e, a))) j = Some (Some v).
Proof.
  revert e a; induction l as [|i l IH]; intros e a Hin Hj.
  - destruct Hj as [Hj|[]]. exact Hj.
  - cbn [fold_left]. unfold series_step at 2. cbn [fst snd].
    assert (Hi : (i < length a)%nat) by (apply Hin; now left).
    apply IH.
    + intros k Hk. rewrite array_set_length by exact Hi. apply Hin.
      now right.
    + destruct (Nat.eq_dec i j) as [->|Hne].
      * left. eexists. now apply array_set_same.
      * destruct Hj as [[v Hv]|[Hj|Hj]]; [| congruence | now right].
        left. exists v. now rewrite array_set_other.
Qed.

Lemma series_last (g : number -> nat -> number) (l : list nat) (k : nat)
      (e : number) (a : list (option number)) :
  (forall i, In i (l ++ [k]) -> (i < length a)%nat) ->
  nth_error (snd (fold_left (series_step g) (l ++ [k]) (e, a))) k
    = Some (Some (fold_left g (l ++ [k]) e)).
Proof.
  intros Hin. rewrite !fold_left_app. cbn [fold_left].
  unfold series_step at 1. cbn [snd].
  rewrite series_fst. apply array_set_same.
  rewrite series_length.
  - apply Hin, in_or_app. right. now left.
  - intros i Hi. apply Hin, in_or_app. now left.
Qed.

Lemma calculateEMAArray_unfold (prices : list number) (period : nat) :
  (period <= length prices)%nat ->
  calculateEMAArray prices period =
    snd (fold_left
           (series_step
              (fun ema i =>
                 (get prices i - ema) * (2 / (of_nat period + 1)) + ema))
           (range period (length prices))
           (sum (slice_to period prices) / of_nat period,
            match period with
            | O => repeat None (length prices)
            | S k =>
                array_set (Some nan) k
                  (Some (sum (slice_to period prices) / of_nat period))
                  (repeat None (length prices))
            end)).
Proof.
  intros Hle. unfold calculateEMAArray.
  destruct (Nat.ltb_spec (length prices) period); [lia|]. reflexivity.
Qed.

Lemma calculateEMA_unfold (prices : list number) (period : nat) :
  (period <= length prices)%nat ->
  calculateEMA prices period =
    fold_left
      (fun ema i => (get prices i - ema) * (2 / (of_nat period + 1)) + ema)
      (range period (length prices))
      (sum (slice_to period prices) / of_nat period).
Proof.
  intros Hle. unfold calculateEMA.
  destruct (Nat.ltb_spec (length prices) period); [lia|]. reflexivity.
Qed.

Lemma nth_error_repeat_None {A} (n i : nat) :
  (i < n)%nat -> nth_error (repeat (@None A) n) i = Some None.
Proof.
  revert i; induction n as [|n IH]; intros [|i] H; cbn; try lia;
    [reflexivity|apply IH; lia].
Qed.

Lemma ema_series_shape :
  forall (prices : list number) (period : nat),
    let arr := calculateEMAArray prices period in
    length arr = length prices /\
    ((length prices < period)%nat ->
     (forall i, (i < length prices)%nat -> nth_error arr i = Some None) /\
     calculateEMA prices period = get prices (length prices - 1)) /\
    ((1 <= period <= length prices)%nat ->
     (forall i, (i < period - 1)%nat -> nth_error arr i = Some None) /\
     (forall i, (period - 1 <= i < length prices)%nat ->
        exists v, nth_error arr i = Some (Some v)) /\
     nth_error arr (length prices - 1)
       = Some (Some (calculateEMA prices period))).
Proof.
  intros prices period arr. subst arr.
  assert (Hshort : (length prices < period)%nat ->
            calculateEMAArray prices period = map (fun _ => None) prices).
  { intros H. unfold calculateEMAArray.
    destruct (Nat.ltb_spec (length prices) period); [reflexivity|lia]. }
  assert (Hseed : forall k x, (k < length prices)%nat ->
            length (array_set (Some nan) k x (repeat None (length prices)))
              = length prices).
  { intros k x Hk. rewrite array_set_length; rewrite repeat_length; lia. }
  assert (Hrange : forall i, In i (range period (length prices)) ->
                             (period <= i < length prices)%nat).
  { intros i Hi. unfold range in Hi. apply in_seq in Hi. lia. }
  split; [|split].
  - destruct (Nat.lt_ge_cases (length prices) period) as [Hlt|Hge].
    + rewrite (Hshort Hlt). apply length_map.
    + rewrite calculateEMAArray_unfold by exact Hge.
      destruct period as [|k].
      * rewrite series_length; rewrite repeat_length; [reflexivity|].
        intros i Hi. apply Hrange in Hi. lia.
      * rewrite series_length; rewrite Hseed by lia; [reflexivity|].
        intros i Hi. apply Hrange in Hi. lia.
  - intros Hlt. split.
    + intros i Hi. rewrite (Hshort Hlt), nth_error_map.
      destruct (nth_error prices i) eqn:E; [reflexivity|].
      apply nth_error_None in E. lia.
    + unfold calculateEMA.
      destruct (Nat.ltb_spec (length prices) period); [reflexivity|lia].
  - intros [Hp Hle]. destruct period as [|k]; [lia|].
    rewrite calculateEMAArray_unfold by exact Hle.
    assert (Hin : forall i, In i (range (S k) (length prices)) ->
              Nat.lt i
                (length
                   (array_set (Some nan) k
                      (Some (sum (slice_to (S k) prices) / of_nat (S k)))
                      (repeat None (length prices))))).
    { intros i Hi. apply Hrange in Hi. rewrite Hseed; lia. }
    split; [|split].
    + intros i Hi. rewrite series_untouched.
      * rewrite array_set_other by (rewrite ?repeat_length; lia).
        apply nth_error_repeat_None. lia.
      * exact Hin.
      * intros Hc. apply Hrange in Hc. lia.
    + intros i Hi. apply series_written; [exact Hin|].
      destruct (Nat.eq_dec i k) as [->|Hne].
      * left. eexists. apply array_set_same. rewrite repeat_length. lia.
      * right. unfold range. apply in_seq. lia.
    + rewrite calculateEMA_unfold by exact Hle.
      destruct (Nat.eq_dec (length prices) (S k)) as [Heq|Hne].
      * rewrite Heq. unfold range. rewrite Nat.sub_diag. cbn [seq fold_left snd].
        replace (S k - 1)%nat with k by lia.
        apply array_set_same. rewrite repeat_length. lia.
      * assert (Hsplit : range (S k) (length prices)
                         = range (S k) (length prices - 1)
                           ++ [(length prices - 1)%nat]).
        { unfold range.
          replace (length prices - S k)%nat
            with (S (length prices - 1 - S k)) by lia.
          rewrite seq_S. f_equal. f_equal. lia. }
        rewrite Hsplit. apply series_last.
        intros i Hi. rewrite <- Hsplit in Hi. now apply Hin.
Qed.

(** X13: calculateEMAArray returns one cell per price.  On a series shorter
    than the period every cell is null (while calculateEMA answers the last
    price); otherwise the cells before index period - 1 are null, every
    later cell holds a number, and the last cell is exactly what
    calculateEMA returns for the same series. *)
Theorem ema_series_agrees :
  forall (prices : list number) (period : nat),
    let arr := calculateEMAArray prices period in
    length arr = length prices /\
    ((length prices < period)%nat ->
     (forall i, (i < length prices)%nat -> nth_error arr i = Some None) /\
     calculateEMA prices period = get prices (length prices - 1)) /\
    ((1 <= period <= length prices)%nat ->
     (forall i, (i < period - 1)%nat -> nth_error arr i = Some None) /\
     (forall i, (period - 1 <= i < length prices)%nat ->
        exists v, nth_error arr i = Some (Some v)) /\
     nth_error arr (length prices - 1)
       = Some (Some (calculateEMA prices period))).
Proof. exact ema_series_shape. Qed.

Lemma non_null_length (arr : list (option number)) :
  (length (non_null arr) <= length arr)%nat.
Proof.
  induction arr as [|[v|] arr IH]; cbn; lia.
Qed.

Lemma non_null_indexed {A} (G : nat -> A -> option number) (k : nat)
      (l : list A) (s : nat) :
  (forall i x, (i < k)%nat -> G i x = None) ->
  (length (non_null (map (fun p => G (fst p) (snd p))
                         (combine (seq s (length l)) l)))
   <= s + length l - k)%nat.
Proof.
  intros HG. revert s; induction l as [|x l IH]; intros s; [cbn; lia|].
  cbn [length seq combine map].
  destruct (Nat.lt_ge_cases s k) as [Hlt|Hge].
  - cbn [fst snd]. rewrite (HG s x Hlt). cbn [non_null].
    specialize (IH (S s)). lia.
  - pose proof (non_null_length
                  (map (fun p => G (fst p) (snd p))
                       (combine (seq (S s) (length l)) l))) as Hl.
    rewrite length_map, length_combine, length_seq in Hl.
    destruct (G (fst (s, x)) (snd (s, x))); cbn [non_null length]; lia.
Qed.

Lemma calculateMACD_short (prices : list number) :
  (length prices < 34)%nat -> calculateMACD prices = 0.
Proof.
  intros Hlen. unfold calculateMACD.
  destruct (Nat.ltb_spec (length prices) 26) as [|Hge]; [reflexivity|].
  destruct (ema_series_shape prices 26) as (_ & _ & H26).
  destruct (H26 ltac:(lia)) as (Hnull & _ & _).
  unfold mapi.
  set (G := fun (i : nat) (_ : number) =>
              match nth i (calculateEMAArray prices 12) (Some nan),
                    nth i (calculateEMAArray prices 26) (Some nan)
              with
              | Some a, Some b => Some (a - b)
              | _, _ => None
              end).
  assert (Hnone : forall i (x : number), (i < 25)%nat -> G i x = None).
  { intros i x Hi. unfold G.
    destruct (nth i (calculateEMAArray prices 12) (Some nan));
      [|reflexivity].
    pose proof (nth_error_nth _ _ (Some nan) (Hnull i ltac:(lia))) as E.
    unfold number in *. now rewrite E. }
  match goal with
  | |- context [(length (non_null ?m) <? 9)%nat] =>
      assert (Hcount : (length (non_null m) <= 0 + length prices - 25)%nat)
        by exact (non_null_indexed G 25 prices 0 Hnone);
      destruct (Nat.ltb_spec (length (non_null m)) 9) as [|Hbig];
        [reflexivity|lia]
  end.
Qed.

End EmaSeries.

(* ================================================================== *)
(** ** Indicators on a short history *)
(* ================================================================== *)

Section ShortHistory.
Import JS Engine Rules.
Local Open Scope float_scope.

Lemma calculateStochasticRSI_short (prices : list number) :
  (length prices < 28)%nat -> calculateStochasticRSI prices 14 = 50.
Proof.
  intros Hlen. unfold calculateStochasticRSI.
  rewrite length_map. unfold range at 1. rewrite length_seq.
  destruct (Nat.ltb_spec (length prices - 14) 14); [reflexivity|lia].
Qed.

Lemma indicator_defaults_shape (mi : MarketInfo) :
  let ind := calculateTechnicalIndicators mi in
  let n := length (mi_closes mi) in
  ((n < 15)%nat -> ind_rsi ind = 50 /\ ind_atr ind = 0.0001) /\
  ((n < 34)%nat -> ind_macd ind = 0) /\
  ((n < 28)%nat -> ind_stochRsi ind = 50) /\
  ((n < 14)%nat -> ind_mfi ind = 50) /\
  ((n < 20)%nat -> ind_trend ind = "sideways"%string) /\
  ((n < 10)%nat -> ind_occ ind = Some occ_neutral) /\
  ((n < 50)%nat ->
   ind_stcCci ind =
     Some {| stc_value := 0; stc_signal := "NEUTRAL"; stc_strength := 0;
             stc_stc := None; stc_cci := None; stc_priceChange := None |}) /\
  ((n < 20)%nat -> ind_ema20 ind = get (mi_closes mi) (n - 1)).
Proof.
  intros ind n. subst ind n. unfold calculateTechnicalIndicators.
  cbn [ind_rsi ind_atr ind_macd ind_stochRsi ind_mfi ind_trend ind_occ
       ind_stcCci ind_ema20].
  repeat apply conj.
  - intros H. unfold calculateRSI, calculateATR.
    destruct (Nat.ltb_spec (length (mi_closes mi)) (14 + 1)); [|lia].
    split; reflexivity.
  - apply calculateMACD_short.
  - apply calculateStochasticRSI_short.
  - intros H. unfold calculateMFI.
    destruct (Nat.ltb_spec (length (mi_closes mi)) 14); [reflexivity|lia].
  - intros H.
    destruct (Nat.leb_spec 200 (length (mi_closes mi))); [lia|].
    destruct (Nat.leb_spec 20 (length (mi_closes mi))); [lia|reflexivity].
  - intros H. unfold calculateOCC.
    destruct (Nat.ltb_spec (length (mi_closes mi)) (8 + 2)); [|lia].
    now rewrite orb_true_r.
  - intros H. unfold calculateSTCCCI.
    destruct (Nat.ltb_spec (length (mi_closes mi)) 50); [reflexivity|lia].
  - intros H. unfold calculateEMA.
    destruct (Nat.ltb_spec (length (mi_closes mi)) 20); [reflexivity|lia].
Qed.

(** X14: what calculateTechnicalIndicators yields on too short a history:
    RSI 50 and ATR 0.0001 below 15 closes, a MACD histogram of 0 below 34
    closes (26 for the slow EMA plus 8 more for the signal line), a
    Stochastic RSI of 50 below 28 closes, an MFI of 50 below 14, a sideways
    trend below 20, the neutral OCC record below 10, the neutral STC-CCI
    record below 50, and an EMA20 equal to the last close below 20. *)
Theorem indicator_defaults :
  forall mi : MarketInfo,
    let ind := calculateTechnicalIndicators mi in
    let n := length (mi_closes mi) in
    ((n < 15)%nat -> ind_rsi ind = 50 /\ ind_atr ind = 0.0001) /\
    ((n < 34)%nat -> ind_macd ind = 0) /\
    ((n < 28)%nat -> ind_stochRsi ind = 50) /\
    ((n < 14)%nat -> ind_mfi ind = 50) /\
    ((n < 20)%nat -> ind_trend ind = "sideways"%string) /\
    ((n < 10)%nat -> ind_occ ind = Some occ_neutral) /\
    ((n < 50)%nat ->
     ind_stcCci ind =
       Some {| stc_value := 0; stc_signal := "NEUTRAL"; stc_strength := 0;
               stc_stc := None; stc_cci := None; stc_priceChange := None |}) /\
    ((n < 20)%nat -> ind_ema20 ind = get (mi_closes mi) (n - 1)).
Proof. exact indicator_defaults_shape. Qed.

(** The divisor of the MACD score is finite and above zero. *)
Lemma atrValue_positive (atr : number) :
  let atrValue :=
    if Number_isFinite atr && gt atr 0 then atr else 0.0001 in
  is_finite atrValue = true /\ (0 <? atrValue) = true.
Proof.
  cbv zeta. unfold Number_isFinite, gt.
  destruct (is_finite atr) eqn:Hf; cbn [andb]; [|split; reflexivity].
  destruct (0 <? atr) eqn:Hp; split; try reflexivity; assumption.
Qed.

(** X15: calculateIndicatorScores scores 0 for an RSI, Stochastic RSI or
    MFI value that is not finite, for a missing or non-finite OCC or STC-CCI
    value, for a trend that is neither uptrend nor downtrend, and for a MACD
    histogram that is 0 or not finite, whatever the ATR. *)
Theorem neutral_scores :
  forall (indicators : Indicators) (config : Config),
    let s := calculateIndicatorScores indicators config in
    (Number_isFinite (ind_rsi indicators) = false -> score (rsi s) = 0) /\
    (Number_isFinite (ind_macd indicators) = false \/
     ind_macd indicators = 0 -> score (macd s) = 0) /\
    (Number_isFinite (ind_stochRsi indicators) = false ->
     score (stochRsi s) = 0) /\
    (Number_isFinite (ind_mfi indicators) = false -> score (mfi s) = 0) /\
    (ind_trend indicators <> "uptrend"%string ->
     ind_trend indicators <> "downtrend"%string -> score (trend s) = 0) /\
    (finite_or (option_map occ_value (ind_occ indicators)) 0 = 0 ->
     score (occ s) = 0) /\
    (ind_occ indicators = None -> score (occ s) = 0) /\
    (ind_stcCci indicators = None -> score (stcCci s) = 0).
Proof.
  intros indicators config s. subst s. unfold calculateIndicatorScores.
  cbn [score rsi macd stochRsi mfi trend occ stcCci].
  repeat apply conj.
  - intros H. cbn [finite_or]. rewrite H. reflexivity.
  - intros H.
    assert (Hm : finite_or (Some (ind_macd indicators)) 0 = 0).
    { cbn [finite_or]. destruct H as [H|H]; [now rewrite H|].
      rewrite H. reflexivity. }
    rewrite Hm.
    destruct (atrValue_positive (ind_atr indicators)) as [Hf Hp].
    cbv zeta in Hf, Hp. rewrite (zero_div_positive _ Hf Hp). reflexivity.
  - intros H. cbn [finite_or]. rewrite H. reflexivity.
  - intros H. cbn [finite_or]. rewrite H. reflexivity.
  - intros Hu Hd. apply String.eqb_neq in Hu, Hd. now rewrite Hu, Hd.
  - intros H. exact H.
  - intros H. now rewrite H.
  - intros H. now rewrite H.
Qed.

Lemma min2_same (c : number) : is_nan c = false -> min2 c c = c.
Proof.
  intros Hn. unfold min2. rewrite Hn, ltb_irrefl. cbn [orb].
  destruct (get_sign c); reflexivity.
Qed.

Lemma Math_min_repeat (c : number) (n : nat) :
  is_finite c = true -> (1 <= n)%nat -> Math_min (repeat c n) = c.
Proof.
  intros Hf Hn. destruct n as [|n]; [lia|].
  unfold Math_min. cbn [repeat fold_left].
  assert (H1 : min2 infinity c = c).
  { unfold min2. change (is_nan infinity) with false.
    rewrite (finite_not_nan c Hf).
    destruct (finite_below_infinity c Hf) as [H _]. cbn [orb].
    now rewrite H. }
  rewrite H1. clear Hn.
  induction n as [|n IH]; [reflexivity|].
  cbn [repeat fold_left]. now rewrite (min2_same c (finite_not_nan c Hf)).
Qed.

Lemma short_scores (mi : MarketInfo) (config : Config) :
  (length (mi_closes mi) < 10)%nat ->
  score_properties
    (calculateIndicatorScores (calculateTechnicalIndicators mi) config)
    = [Some 0; Some 0; Some 0; Some 0; Some 0; Some 0; Some 0; None].
Proof.
  intros Hlen.
  destruct (indicator_defaults_shape mi)
    as (H1 & H2 & H3 & H4 & H5 & H6 & H7 & _).
  cbv zeta in *.
  destruct (H1 ltac:(lia)) as [Hrsi Hatr].
  specialize (H2 ltac:(lia)). specialize (H3 ltac:(lia)).
  specialize (H4 ltac:(lia)). specialize (H5 ltac:(lia)).
  specialize (H6 ltac:(lia)). specialize (H7 ltac:(lia)).
  unfold score_properties, calculateIndicatorScores.
  cbn [score rsi macd stochRsi mfi trend occ stcCci].
  rewrite Hrsi, Hatr, H2, H3, H4, H5, H6, H7.
  vm_compute. reflexivity.
Qed.

(** X16: a history of one to nine closes that all equal one finite price
    is read as a bullish divergence (the latest close is the window's
    minimum and the default RSI of 50 is above 35) while every indicator
    scores 0: the total is +20 with divergence detection on and 0 with it
    off, in every trading mode.  Without a finite override this makes the
    aggressive mode answer BUY with a confidence of 100, and the balanced
    mode NEUTRAL. *)
Theorem flat_short_history :
  forall (mi : MarketInfo) (config : Config) (c : number) (n : nat),
    mi_closes mi = repeat c n ->
    (1 <= n <= 9)%nat ->
    is_finite c = true ->
    let ind := calculateTechnicalIndicators mi in
    let total :=
      calculateTotalScore (calculateIndicatorScores ind config) config in
    ind_divergence ind = Some "bullish"%string /\
    total = (if divergenceDetection config then 20 else 0) /\
    (no_override config -> divergenceDetection config = true ->
     tradingMode config = "aggressive"%string ->
     determineDirection total config ind
       = {| dir_direction := "BUY"; dir_confidence := 100 |}) /\
    (no_override config -> tradingMode config = "balanced"%string ->
     dir_direction (determineDirection total config ind)
       = "NEUTRAL"%string).
Proof.
  intros mi config c n Hcloses Hn Hf ind total.
  assert (Hlen : length (mi_closes mi) = n)
    by (rewrite Hcloses; apply repeat_length).
  destruct (indicator_defaults_shape mi)
    as (H1 & _ & _ & _ & H5 & _).
  cbv zeta in H1, H5.
  destruct (H1 ltac:(lia)) as [Hrsi _]. specialize (H5 ltac:(lia)).
  assert (Hdiv : ind_divergence ind = Some "bullish"%string).
  { subst ind. unfold calculateTechnicalIndicators. cbn [ind_divergence].
    unfold calculateTechnicalIndicators in Hrsi. cbn [ind_rsi] in Hrsi.
    rewrite Hrsi. unfold detectDivergence. rewrite Hcloses.
    assert (Hs : slice_last 20 (repeat c n) = repeat c n).
    { unfold slice_last. rewrite repeat_length.
      replace (n - 20)%nat with 0%nat by lia. reflexivity. }
    rewrite Hs, repeat_length, Math_min_repeat by (try exact Hf; lia).
    unfold get. rewrite nth_repeat_lt by lia.
    unfold le. rewrite (leb_refl_finite c Hf). reflexivity. }
  assert (Htotal : total = (if divergenceDetection config then 20 else 0)).
  { subst total.
    assert (Hbull : is_divergence (calculateIndicatorScores ind config)
                      "bullish" = true).
    { unfold is_divergence, calculateIndicatorScores.
      cbn [divergence div_value]. now rewrite Hdiv. }
    assert (Hbear : is_divergence (calculateIndicatorScores ind config)
                      "bearish" = false).
    { unfold is_divergence, calculateIndicatorScores.
      cbn [divergence div_value]. now rewrite Hdiv. }
    unfold calculateTotalScore. rewrite Hbull, Hbear. subst ind.
    rewrite short_scores by lia. unfold adjustScoreByMode.
    destruct (divergenceDetection config);
      destruct (String.eqb (tradingMode config) "aggressive");
      destruct (String.eqb (tradingMode config) "conservative");
      vm_compute; reflexivity. }
  split; [exact Hdiv|]. split; [exact Htotal|].
  clearbody total. subst total ind.
  assert (Hthr : forall d, no_override config ->
            match backtestThreshold config with
            | Some t => if Number_isFinite t then t else d
            | None => d
            end = d).
  { intros d Hno. destruct (backtestThreshold config) as [t|] eqn:Hb;
      [now rewrite (Hno t Hb)|reflexivity]. }
  split.
  - intros Hno Hon Hmode. rewrite Hon.
    unfold determineDirection. rewrite Hmode.
    change (THRESHOLDS "aggressive") with (threshold_number 10).
    change (truthy 10) with true. cbn iota. rewrite (Hthr _ Hno).
    rewrite H5.
    destruct (trendFilter config); vm_compute; reflexivity.
  - intros Hno Hmode.
    unfold determineDirection. rewrite Hmode.
    change (THRESHOLDS "balanced") with (threshold_number 25).
    change (truthy 25) with true. cbn iota. rewrite (Hthr _ Hno).
    rewrite H5. cbn [dir_direction].
    destruct (divergenceDetection config); destruct (trendFilter config);
      vm_compute; reflexivity.
Qed.

(** Instance: a single closed candle at 100 in aggressive mode. *)
Lemma flat_short_history_witness :
  determineDirection
    (calculateTotalScore
       (calculateIndicatorScores
          (calculateTechnicalIndicators Samples.one_candle)
          Samples.aggressive)
       Samples.aggressive)
    Samples.aggressive
    (calculateTechnicalIndicators Samples.one_candle)
    = {| dir_direction := "BUY"; dir_confidence := 100 |}.
Proof.
  destruct (flat_short_history Samples.one_candle Samples.aggressive 100 1
              eq_refl ltac:(lia) eq_refl) as (_ & _ & H & _).
  apply H; [intros t Ht; discriminate|reflexivity|reflexivity].
Defined.

End ShortHistory.

(* ================================================================== *)
(** ** The order of binary64 numbers *)
(* ================================================================== *)

Section OrderFacts.
Local Open Scope float_scope.

Ltac order_cases :=
  repeat match goal with
         | |- context [(?a ?= ?b)%Z] => destruct (Z.compare_spec a b)
         | |- context [Pos.compare_cont Eq ?a ?b] =>
             change (Pos.compare_cont Eq a b) with (Pos.compare a b);
             destruct (Pos.compare_spec a b)
         end.

Ltac by_shape :=
  cbn; try discriminate; try reflexivity; order_cases; cbn;
  try discriminate; try reflexivity; try lia.

Lemma SFcompare_total (x y : spec_float) :
  x <> S754_nan -> y <> S754_nan -> SFltb x y = negb (SFleb y x).
Proof.
  intros Hx Hy. unfold SFltb, SFleb.
  destruct x as [s1|s1| |s1 m1 e1], y as [s2|s2| |s2 m2 e2];
    try congruence; try destruct s1; try destruct s2; by_shape.
Qed.

Lemma SFleb_ltb_trans (x y z : spec_float) :
  SFleb x y = true -> SFltb y z = true -> SFltb x z = true.
Proof.
  unfold SFltb, SFleb.
  destruct x as [s1|s1| |s1 m1 e1], y as [s2|s2| |s2 m2 e2],
    z as [s3|s3| |s3 m3 e3];
    try destruct s1; try destruct s2; try destruct s3; by_shape.
Qed.

Lemma SFltb_leb_trans (x y z : spec_float) :
  SFltb x y = true -> SFleb y z = true -> SFltb x z = true.
Proof.
  unfold SFltb, SFleb.
  destruct x as [s1|s1| |s1 m1 e1], y as [s2|s2| |s2 m2 e2],
    z as [s3|s3| |s3 m3 e3];
    try destruct s1; try destruct s2; try destruct s3; by_shape.
Qed.

Lemma SFltb_not_leb (x y : spec_float) :
  SFltb x y = true -> SFleb y x = false.
Proof.
  unfold SFltb, SFleb.
  destruct x as [s1|s1| |s1 m1 e1], y as [s2|s2| |s2 m2 e2];
    try destruct s1; try destruct s2; by_shape.
Qed.

Lemma not_nan_shape (a : float) : is_nan a = false -> Prim2SF a <> S754_nan.
Proof.
  unfold is_nan. rewrite FloatAxioms.eqb_spec. intros H E.
  rewrite E in H. discriminate.
Qed.

(** Two numbers that are not NaN are comparable. *)
Lemma ltb_negb_leb (a b : float) :
  is_nan a = false -> is_nan b = false -> (a <? b) = negb (b <=? a).
Proof.
  intros Ha Hb. rewrite ltb_spec, leb_spec.
  apply SFcompare_total; now apply not_nan_shape.
Qed.

Lemma leb_ltb_trans (a b c : float) :
  (a <=? b) = true -> (b <? c) = true -> (a <? c) = true.
Proof. rewrite !ltb_spec, leb_spec. apply SFleb_ltb_trans. Qed.

Lemma ltb_leb_trans (a b c : float) :
  (a <? b) = true -> (b <=? c) = true -> (a <? c) = true.
Proof. rewrite !ltb_spec, leb_spec. apply SFltb_leb_trans. Qed.

Lemma ltb_not_leb (a b : float) : (a <? b) = true -> (b <=? a) = false.
Proof. rewrite ltb_spec, leb_spec. apply SFltb_not_leb. Qed.

(** A lower bound above a smaller constant. *)
Lemma leb_above (k l x : float) :
  (k <? l) = true -> (l <=? x) = true -> (k <=? x) = true.
Proof.
  intros Hkl Hlx. apply ltb_leb. now apply (ltb_leb_trans k l x).
Qed.

End OrderFacts.

(* ================================================================== *)
(** ** Performance reports *)
(* ================================================================== *)

Section Reports.
Import JS Host PerformanceAnalysis Runs Reporting.

Lemma update_bucket_at_length (i : nat) (f : Bucket -> Bucket)
      (bs : list Bucket) :
  length (update_bucket_at i f bs) = length bs.
Proof.
  revert i. induction bs as [|b bs IH]; intros [|i]; cbn; try reflexivity.
  now rewrite IH.
Qed.

Lemma update_bucket_at_same (i : nat) (f : Bucket -> Bucket)
      (bs : list Bucket) (d : Bucket) :
  i < length bs -> nth i (update_bucket_at i f bs) d = f (nth i bs d).
Proof.
  revert i. induction bs as [|b bs IH]; intros [|i] H; cbn in *;
    try lia; try reflexivity.
  apply IH. lia.
Qed.

Lemma update_bucket_at_other (i j : nat) (f : Bucket -> Bucket)
      (bs : list Bucket) (d : Bucket) :
  i <> j -> nth j (update_bucket_at i f bs) d = nth j bs d.
Proof.
  revert i j. induction bs as [|b bs IH]; intros [|i] [|j] H; cbn;
    try reflexivity; try lia.
  apply IH. lia.
Qed.

Lemma fill_length (index : Decision -> option nat) (ev : list Decision)
      (bs : list Bucket) :
  length (fill index ev bs) = length bs.
Proof.
  revert bs. induction ev as [|d ev IH]; intros bs; [reflexivity|].
  unfold fill in *. cbn [fold_left]. rewrite IH.
  destruct (index d); [apply update_bucket_at_length|reflexivity].
Qed.

(** Each bucket of the shared array sees only the decisions sent to it. *)
Lemma fill_nth (index : Decision -> option nat) (ev : list Decision) :
  forall (bs : list Bucket) (i : nat) (dflt : Bucket),
    i < length bs ->
    nth i (fill index ev bs) dflt
      = fold_left updateBucket (sent_to index i ev) (nth i bs dflt).
Proof.
  induction ev as [|d ev IH]; intros bs i dflt Hi; [reflexivity|].
  unfold fill in *. cbn [fold_left]. unfold sent_to in *. cbn [filter].
  destruct (index d) as [j|].
  - rewrite IH by (now rewrite update_bucket_at_length).
    destruct (Nat.eqb_spec j i) as [->|Hne].
    + cbn [fold_left]. now rewrite update_bucket_at_same.
    + now rewrite update_bucket_at_other.
  - now apply IH.
Qed.

Lemma fold_left_agree {A B} (f g : A -> B -> A) (l : list B) :
  (forall a b, f a b = g a b) ->
  forall a, fold_left f l a = fold_left g l a.
Proof.
  intros H. induction l as [|b l IH]; intros a; [reflexivity|].
  cbn. rewrite H. apply IH.
Qed.

Lemma regime_report_fill (loaded : bool) (limit : nat) (w : World) :
  getPerformanceByMarketRegime loaded limit w
    = map finalizeBucket
        (fill regime_index (getEvaluatedDecisions loaded limit w)
              (map initBucket regime_labels)).
Proof.
  unfold getPerformanceByMarketRegime, fill. f_equal.
  apply fold_left_agree. intros bs d. unfold regime_index.
  destruct (regime_target _); reflexivity.
Qed.

Lemma nth_finalized (i : nat) (bs : list Bucket) :
  nth i (map finalizeBucket bs) (initBucket "")
    = finalizeBucket (nth i bs (initBucket "")).
Proof.
  change (initBucket "") with (finalizeBucket (initBucket "")) at 1.
  apply map_nth.
Qed.

(** X17: every report is what one gets by filling each bucket on its own:
    bucket [i] of the regime, the volatility and the confidence report is
    the finalized bucket that was updated with exactly the evaluated
    decisions sent to position [i], in the order of the evaluated list; the
    reports have 4, 6 and 5 buckets. *)
Theorem report_buckets :
  forall (loaded : bool) (limit : nat) (w : World) (i : nat),
    let ev := getEvaluatedDecisions loaded limit w in
    (i < 4 ->
     nth i (getPerformanceByMarketRegime loaded limit w) (initBucket "")
       = tally (nth i regime_labels ""%string) (sent_to regime_index i ev)) /\
    (i < 6 ->
     nth i (getPerformanceByVolatilityRange loaded limit w) (initBucket "")
       = tally (nth i (map r_label volatility_ranges) ""%string)
               (sent_to volatility_index i ev)) /\
    (i < 5 ->
     nth i (getPerformanceByConfidenceRange loaded limit w) (initBucket "")
       = tally (nth i (map r_label confidence_ranges) ""%string)
               (sent_to confidence_index i ev)) /\
    length (getPerformanceByMarketRegime loaded limit w) = 4 /\
    length (getPerformanceByVolatilityRange loaded limit w) = 6 /\
    length (getPerformanceByConfidenceRange loaded limit w) = 5.
Proof.
  intros loaded limit w i ev.
  assert (Hvol : getPerformanceByVolatilityRange loaded limit w
                 = map finalizeBucket
                     (fill volatility_index ev
                        (map (fun r => initBucket (r_label r))
                             volatility_ranges))) by reflexivity.
  assert (Hconf : getPerformanceByConfidenceRange loaded limit w
                  = map finalizeBucket
                      (fill confidence_index ev
                         (map (fun r => initBucket (r_label r))
                              confidence_ranges))) by reflexivity.
  rewrite regime_report_fill, Hvol, Hconf. fold ev.
  rewrite !length_map, !fill_length, !nth_finalized. unfold tally.
  repeat apply conj; try reflexivity; intros Hi.
  - rewrite fill_nth by (cbn; lia).
    destruct i as [|[|[|[|]]]]; try lia; reflexivity.
  - rewrite fill_nth by (cbn; lia).
    destruct i as [|[|[|[|[|[|]]]]]]; try lia; reflexivity.
  - rewrite fill_nth by (cbn; lia).
    destruct i as [|[|[|[|[|]]]]]; try lia; reflexivity.
Qed.

Lemma totals_finalized (bs : list Bucket) :
  totals (map finalizeBucket bs) = totals bs.
Proof.
  unfold totals. induction bs as [|b bs IH]; [reflexivity|].
  cbn. now rewrite IH.
Qed.

Lemma totals_update (i : nat) (d : Decision) (bs : list Bucket) :
  i < length bs ->
  totals (update_bucket_at i (fun b => updateBucket b d) bs) = S (totals bs).
Proof.
  unfold totals. revert i.
  induction bs as [|b bs IH]; intros [|i] H; cbn in *; try lia.
  rewrite IH by lia. lia.
Qed.

Lemma totals_fill (index : Decision -> option nat) (ev : list Decision) :
  forall bs : list Bucket,
    (forall d i, index d = Some i -> i < length bs) ->
    totals (fill index ev bs)
      = totals bs + length (filter (counted index) ev).
Proof.
  induction ev as [|d ev IH]; intros bs Hin;
    [unfold fill; cbn [fold_left filter length]; lia|].
  unfold fill in *. cbn [fold_left filter]. unfold counted at 1.
  destruct (index d) as [j|] eqn:Hd.
  - rewrite IH.
    + rewrite totals_update by (now apply (Hin d)). cbn [length]. lia.
    + intros d' i' H'. rewrite update_bucket_at_length. now apply (Hin d').
  - now apply IH.
Qed.

Lemma updateBucket_ok (b : Bucket) (d : Decision) :
  bucket_ok b -> bucket_ok (updateBucket b d).
Proof.
  unfold bucket_ok, updateBucket. cbn. intros H.
  destruct (option_map result (evaluation d)) as [[ | | ]|]; lia.
Qed.

Lemma update_bucket_at_ok (i : nat) (d : Decision) (bs : list Bucket) :
  Forall bucket_ok bs ->
  Forall bucket_ok (update_bucket_at i (fun b => updateBucket b d) bs).
Proof.
  intros H. revert i. induction H as [|b bs Hb Hbs IH]; intros [|i]; cbn;
    constructor; auto using updateBucket_ok.
Qed.

Lemma fill_ok (index : Decision -> option nat) (ev : list Decision) :
  forall bs, Forall bucket_ok bs -> Forall bucket_ok (fill index ev bs).
Proof.
  induction ev as [|d ev IH]; intros bs H; [exact H|].
  unfold fill in *. cbn [fold_left]. apply IH.
  destruct (index d); [now apply update_bucket_at_ok|exact H].
Qed.

Lemma finalized_ok (bs : list Bucket) :
  Forall bucket_ok bs -> Forall bucket_ok (map finalizeBucket bs).
Proof.
  intros H. induction H as [|b bs Hb Hbs IH]; cbn; constructor; auto.
Qed.

Lemma findIndex_from_bound (ranges : list Range) (x : number) :
  forall k i, findIndex_from k ranges x = Some i -> i < k + length ranges.
Proof.
  induction ranges as [|r ranges IH]; intros k i H; [discriminate|].
  cbn [findIndex_from length] in *.
  destruct (r_bounds r) as [[lo hi]|].
  - destruct (ge x lo && lt x hi).
    + inversion H. lia.
    + apply IH in H. lia.
  - apply IH in H. lia.
Qed.

Lemma bucket_index_bound (ranges : list Range) (x : number) :
  ranges <> [] -> bucket_index ranges x < length ranges.
Proof.
  intros Hne. assert (0 < length ranges) by (destruct ranges; cbn; [congruence|lia]).
  unfold bucket_index. destruct (Number_isFinite x); [|lia].
  destruct (findIndex_from 0 ranges x) as [i|] eqn:E; [|lia].
  apply findIndex_from_bound in E. lia.
Qed.

Lemma regime_index_bound (d : Decision) (i : nat) :
  regime_index d = Some i -> i < 4.
Proof.
  unfold regime_index, regime_target.
  repeat match goal with
         | |- context [if ?c then _ else _] => destruct c
         end; intros H; inversion H; lia.
Qed.

Lemma counted_always (index : Decision -> option nat) (ev : list Decision) :
  (forall d, counted index d = true) -> filter (counted index) ev = ev.
Proof.
  intros H. induction ev as [|d ev IH]; [reflexivity|].
  cbn. now rewrite H, IH.
Qed.

Lemma reports_add_up :
  forall (loaded : bool) (limit : nat) (w : World),
    let ev := getEvaluatedDecisions loaded limit w in
    Forall bucket_ok (getPerformanceByMarketRegime loaded limit w) /\
    Forall bucket_ok (getPerformanceByVolatilityRange loaded limit w) /\
    Forall bucket_ok (getPerformanceByConfidenceRange loaded limit w) /\
    totals (getPerformanceByVolatilityRange loaded limit w) = length ev /\
    totals (getPerformanceByConfidenceRange loaded limit w) = length ev /\
    totals (getPerformanceByMarketRegime loaded limit w)
      = length (filter (counted regime_index) ev).
Proof.
  intros loaded limit w ev.
  assert (Hvol : getPerformanceByVolatilityRange loaded limit w
                 = map finalizeBucket
                     (fill volatility_index ev
                        (map (fun r => initBucket (r_label r))
                             volatility_ranges))) by reflexivity.
  assert (Hconf : getPerformanceByConfidenceRange loaded limit w
                  = map finalizeBucket
                      (fill confidence_index ev
                         (map (fun r => initBucket (r_label r))
                              confidence_ranges))) by reflexivity.
  rewrite regime_report_fill, Hvol, Hconf. fold ev.
  rewrite !totals_finalized.
  repeat apply conj.
  - apply finalized_ok, fill_ok. repeat constructor.
  - apply finalized_ok, fill_ok. repeat constructor.
  - apply finalized_ok, fill_ok. repeat constructor.
  - rewrite totals_fill.
    + now rewrite counted_always.
    + intros d i H. injection H as <-. rewrite length_map.
      apply bucket_index_bound. discriminate.
  - rewrite totals_fill.
    + now rewrite counted_always.
    + intros d i H. injection H as <-. rewrite length_map.
      apply bucket_index_bound. discriminate.
  - rewrite totals_fill; [reflexivity|].
    intros d i H. apply regime_index_bound in H. cbn. lia.
Qed.

(** X18: in every report each bucket's total is the sum of its correct,
    incorrect and neutral counts.  The totals of the volatility report and
    of the confidence report both add up to the number of evaluated
    decisions; those of the regime report add up to the number of evaluated
    decisions whose regime does not name a member every object inherits,
    since such a decision is counted in no bucket. *)
Theorem report_totals :
  forall (loaded : bool) (limit : nat) (w : World),
    let ev := getEvaluatedDecisions loaded limit w in
    Forall bucket_ok (getPerformanceByMarketRegime loaded limit w) /\
    Forall bucket_ok (getPerformanceByVolatilityRange loaded limit w) /\
    Forall bucket_ok (getPerformanceByConfidenceRange loaded limit w) /\
    totals (getPerformanceByVolatilityRange loaded limit w) = length ev /\
    totals (getPerformanceByConfidenceRange loaded limit w) = length ev /\
    totals (getPerformanceByMarketRegime loaded limit w)
      = length (filter (counted regime_index) ev).
Proof. exact reports_add_up. Qed.

End Reports.

(* ================================================================== *)
(** ** The unknown bucket, and the insights drawn from the reports *)
(* ================================================================== *)

Section Insights.
Import JS Host PerformanceAnalysis StrategyInsights Runs Reporting.
Local Open Scope float_scope.

(** X19: the last bucket of a range report.  A confidence lands in the
    bucket labelled unknown exactly when it is not finite, below 0, or at
    least 100 (so a confidence of exactly 100 is counted as unknown); a
    relative volatility exactly when it is not finite or below 0. *)
Theorem unknown_bucket :
  forall x : number,
    (bucket_index confidence_ranges x = 4%nat <->
     Number_isFinite x = false \/ lt x 0 = true \/ ge x 100 = true) /\
    (bucket_index volatility_ranges x = 5%nat <->
     Number_isFinite x = false \/ lt x 0 = true).
Proof.
  intros x. unfold bucket_index, confidence_ranges, volatility_ranges.
  cbn [findIndex_from r_bounds length Nat.sub].
  unfold ge, lt, Number_isFinite.
  destruct (is_finite x) eqn:Hf.
  2: { split; split; auto. }
  pose proof (finite_not_nan x Hf) as Hn.
  destruct (finite_below_infinity x Hf) as [Hinf _].
  rewrite Hinf.
  rewrite (ltb_negb_leb x 0), (ltb_negb_leb x 40), (ltb_negb_leb x 60),
    (ltb_negb_leb x 80), (ltb_negb_leb x 100), (ltb_negb_leb x 0.5),
    (ltb_negb_leb x 1), (ltb_negb_leb x 2), (ltb_negb_leb x 3)
    by (try exact Hn; reflexivity).
  pose proof (leb_above 0 40 x eq_refl) as C1.
  pose proof (leb_above 40 60 x eq_refl) as C2.
  pose proof (leb_above 60 80 x eq_refl) as C3.
  pose proof (leb_above 80 100 x eq_refl) as C4.
  pose proof (leb_above 0 0.5 x eq_refl) as V1.
  pose proof (leb_above 0.5 1 x eq_refl) as V2.
  pose proof (leb_above 1 2 x eq_refl) as V3.
  pose proof (leb_above 2 3 x eq_refl) as V4.
  split.
  - clear V1 V2 V3 V4.
    destruct (0 <=? x), (40 <=? x), (60 <=? x), (80 <=? x), (100 <=? x);
      cbn [andb negb];
      try discriminate (C1 eq_refl); try discriminate (C2 eq_refl);
      try discriminate (C3 eq_refl); try discriminate (C4 eq_refl);
      (split; [intros E; try discriminate E; auto
              |intros [E|[E|E]]; try discriminate E; reflexivity]).
  - clear C1 C2 C3 C4.
    destruct (0 <=? x), (0.5 <=? x), (1 <=? x), (2 <=? x), (3 <=? x);
      cbn [andb negb];
      try discriminate (V1 eq_refl); try discriminate (V2 eq_refl);
      try discriminate (V3 eq_refl); try discriminate (V4 eq_refl);
      (split; [intros E; try discriminate E; auto
              |intros [E|E]; try discriminate E; reflexivity]).
Qed.

Lemma sixty_not_forty (a : number) : ge a 60 = true -> le a 40 = false.
Proof.
  unfold ge, le. intros H. apply ltb_not_leb.
  now apply (ltb_leb_trans 40 60 a).
Qed.

Lemma positive_not_negative (pb : string * Bucket) :
  is_positive pb = true -> is_negative pb = false.
Proof.
  unfold is_positive, is_negative. intros H.
  apply andb_true_iff in H as [_ H].
  rewrite (sixty_not_forty _ H). apply andb_false_r.
Qed.

(** The loop over one report, as a filter of its buckets. *)
Lemma classifyAll_filter (labelPrefix : string) (bs : list Bucket) :
  forall lists : Lists,
    let pbs := map (pair labelPrefix) bs in
    classifyAll labelPrefix bs lists
      = {| l_positives :=
             l_positives lists ++ map praise (filter is_positive pbs);
           l_negatives :=
             l_negatives lists ++ map blame (filter is_negative pbs);
           l_recommendations :=
             l_recommendations lists
             ++ map advice (filter is_negative pbs) |}.
Proof.
  cbv zeta. induction bs as [|b bs IH]; intros lists.
  - cbn. rewrite !app_nil_r. now destruct lists.
  - unfold classifyAll in *. cbn [fold_left map filter].
    rewrite IH. unfold classifyBucket, is_positive, is_negative.
    cbn [fst snd].
    rewrite (Nat.leb_antisym (total b) 10).
    destruct (total b <? 10)%nat; cbn [negb andb]; [reflexivity|].
    destruct (ge (accuracy b) 60) eqn:Hge.
    + rewrite (sixty_not_forty _ Hge). cbn [l_positives l_negatives
        l_recommendations map praise fst snd].
      now rewrite <- !app_assoc.
    + destruct (le (accuracy b) 40); cbn [l_positives l_negatives
        l_recommendations map blame advice fst snd];
        [now rewrite <- !app_assoc|reflexivity].
Qed.

Lemma insights_shape (reports : Reports) :
  let ins := buildInsightsFromReports (Some reports) in
  let good := filter is_positive (labelled reports) in
  let bad := filter is_negative (labelled reports) in
  positives ins = map praise good /\
  negatives ins = map blame bad /\
  recommendations ins
    = map advice bad
      ++ match good, bad with
         | [], [] => [keep_collecting]
         | _, _ => []
         end.
Proof.
  cbv zeta. unfold buildInsightsFromReports, labelled.
  rewrite !classifyAll_filter.
  cbn [l_positives l_negatives l_recommendations positives negatives
       recommendations app].
  rewrite !filter_app, !map_app, !app_assoc.
  repeat apply conj; try reflexivity.
  rewrite !length_app, !length_map.
  set (g1 := filter is_positive _). set (g2 := filter is_positive _).
  set (g3 := filter is_positive _). set (b1 := filter is_negative _).
  set (b2 := filter is_negative _). set (b3 := filter is_negative _).
  destruct g1, g2, g3, b1, b2, b3; cbn; rewrite ?app_nil_r; reflexivity.
Qed.

(** X20: the insights built from a report are filters of its buckets, taken
    in the order regime, volatility, confidence.  The positives are the
    buckets with at least 10 decisions and an accuracy of at least 60, the
    negatives those with at least 10 decisions and an accuracy of at most
    40, and no bucket is both; every negative has its recommendation at the
    same position; the advice to keep collecting data is appended exactly
    when there is neither a positive nor a negative. *)
Theorem insights_by_filter :
  forall reports : Reports,
    let ins := buildInsightsFromReports (Some reports) in
    let good := filter is_positive (labelled reports) in
    let bad := filter is_negative (labelled reports) in
    positives ins = map praise good /\
    negatives ins = map blame bad /\
    recommendations ins
      = map advice bad
        ++ match good, bad with
           | [], [] => [keep_collecting]
           | _, _ => []
           end /\
    (forall pb, is_positive pb = true -> is_negative pb = false).
Proof.
  intros reports. cbv zeta.
  destruct (insights_shape reports) as (H1 & H2 & H3).
  repeat apply conj; try assumption. apply positive_not_negative.
Qed.

Lemma total_le_totals (b : Bucket) (bs : list Bucket) :
  In b bs -> (total b <= totals bs)%nat.
Proof.
  unfold totals. induction bs as [|b' bs IH]; intros H; [contradiction|].
  cbn. destruct H as [->|H]; [lia|]. apply IH in H. lia.
Qed.

Lemma small_report_silent (labelPrefix : string) (bs : list Bucket) :
  (totals bs < 10)%nat ->
  filter is_positive (map (pair labelPrefix) bs) = [] /\
  filter is_negative (map (pair labelPrefix) bs) = [].
Proof.
  intros H.
  assert (Hall : forall pb, In pb (map (pair labelPrefix) bs) ->
                   (10 <=? total (snd pb))%nat = false).
  { intros pb Hin. apply in_map_iff in Hin as (b & <- & Hb).
    apply total_le_totals in Hb. cbn [snd]. apply Nat.leb_gt. lia. }
  revert Hall. generalize (map (pair labelPrefix) bs). intros l Hall.
  induction l as [|pb l IH]; [split; reflexivity|].
  cbn [filter]. unfold is_positive at 1, is_negative at 1.
  rewrite (Hall pb (or_introl eq_refl)). cbn [andb].
  apply IH. intros pb' H'. apply Hall. now right.
Qed.

(** X21: when PerformanceAnalysis is loaded and fewer than ten evaluated
    decisions lie within the limit (none at all when the evaluator itself
    is not loaded), the strategy insights name no positive and no negative
    and recommend only to keep collecting data.  When PerformanceAnalysis
    is not loaded they hold no positive, no negative and no recommendation
    at all. *)
Theorem insights_need_ten :
  forall (loaded : bool) (limit : nat) (w : World),
    ((length (getEvaluatedDecisions loaded limit w) < 10)%nat ->
     let ins := generateStrategyInsights true loaded limit w in
     positives ins = [] /\ negatives ins = [] /\
     recommendations ins = [keep_collecting]) /\
    (let ins := generateStrategyInsights true false limit w in
     positives ins = [] /\ negatives ins = [] /\
     recommendations ins = [keep_collecting]) /\
    (let off := generateStrategyInsights false loaded limit w in
     positives off = [] /\ negatives off = [] /\ recommendations off = []).
Proof.
  intros loaded limit w.
  assert (Hsmall : forall evaluator,
            (length (getEvaluatedDecisions evaluator limit w) < 10)%nat ->
            let ins := generateStrategyInsights true evaluator limit w in
            positives ins = [] /\ negatives ins = [] /\
            recommendations ins = [keep_collecting]).
  { intros evaluator Hfew. cbv zeta.
    unfold generateStrategyInsights. cbn [negb].
    destruct (insights_shape (getAllPerformanceReports evaluator limit w))
      as (H1 & H2 & H3).
    cbv zeta in H1, H2, H3. rewrite H1, H2, H3. clear H1 H2 H3.
    destruct (reports_add_up evaluator limit w)
      as (_ & _ & _ & Tv & Tc & Tr).
    cbv zeta in Tv, Tc, Tr.
    assert (Tr' : (totals (getPerformanceByMarketRegime evaluator limit w)
                   < 10)%nat).
    { rewrite Tr.
      eapply Nat.le_lt_trans; [apply filter_length_le|exact Hfew]. }
    unfold labelled, getAllPerformanceReports.
    cbn [byMarketRegime byVolatilityRange byConfidenceRange].
    rewrite !filter_app.
    destruct (small_report_silent "Regime" _ Tr') as [-> ->].
    destruct (small_report_silent "Volatilidade"
                (getPerformanceByVolatilityRange evaluator limit w)
                ltac:(rewrite Tv; exact Hfew)) as [-> ->].
    destruct (small_report_silent "Confianca"
                (getPerformanceByConfidenceRange evaluator limit w)
                ltac:(rewrite Tc; exact Hfew)) as [-> ->].
    repeat split. }
  split; [apply Hsmall|]. split.
  - apply Hsmall. unfold getEvaluatedDecisions. cbn. lia.
  - repeat split.
Qed.

(** Instance: the insights of a ledger holding a correct BUY and a neutral
    SELL, both evaluated. *)
Lemma insights_need_ten_witness :
  length (getEvaluatedDecisions true 1000 Samples.world_two) = 2%nat /\
  recommendations (generateStrategyInsights true true 1000 Samples.world_two)
    = [keep_collecting].
Proof.
  split; [reflexivity|].
  destruct (insights_need_ten true 1000 Samples.world_two) as [H _].
  destruct H as (_ & _ & H); [vm_compute; lia|exact H].
Defined.

End Insights.

(* ================================================================== *)
(** ** Oscillators on flat and on rising markets, and the OCC *)
(* ================================================================== *)

Section Oscillators.
Import JS Engine Rules.
Local Open Scope float_scope.

Lemma firstn_repeat_le {A} (x : A) (k n : nat) :
  (k <= n)%nat -> firstn k (repeat x n) = repeat x k.
Proof.
  revert n. induction k as [|k IH]; intros [|n] H; cbn; try reflexivity;
    try lia.
  now rewrite IH by lia.
Qed.

Lemma skipn_repeat {A} (x : A) (k n : nat) :
  skipn k (repeat x n) = repeat x (n - k).
Proof.
  revert n. induction k as [|k IH]; intros [|n]; cbn; try reflexivity.
  apply IH.
Qed.

Lemma map_constant {A B} (f : A -> B) (b : B) (l : list A) :
  (forall a, In a l -> f a = b) -> map f l = repeat b (length l).
Proof.
  induction l as [|a l IH]; intros H; [reflexivity|].
  cbn. rewrite (H a (or_introl eq_refl)), IH; [reflexivity|].
  intros a' Ha'. apply H. now right.
Qed.

(** X22: on a flat series of at least 30 closes (one price whose change
    [c - c] is zero, as for every finite price) every RSI value is 100, so
    every stochastic window has range 0 and contributes 50: the Stochastic
    RSI is 50. *)
Theorem stochastic_rsi_flat :
  forall (c : number) (n : nat),
    strict_eq (c - c) 0 = true -> (30 <= n)%nat ->
    calculateStochasticRSI (repeat c n) 14 = 50.
Proof.
  intros c n Hc Hn. unfold calculateStochasticRSI.
  rewrite repeat_length.
  assert (Hrsi : map (fun i => calculateRSI (slice_to (i + 1) (repeat c n)) 14)
                     (range 14 n) = repeat 100 (n - 14)).
  { rewrite (map_constant _ 100).
    - unfold range. now rewrite length_seq.
    - intros i Hi. unfold range in Hi. apply in_seq in Hi.
      unfold slice_to. rewrite firstn_repeat_le by lia.
      apply rsi_flat; [exact Hc|lia]. }
  rewrite Hrsi, repeat_length.
  destruct (Nat.ltb_spec (n - 14) 14) as [|_]; [lia|].
  cbv zeta.
  match goal with
  | |- context [map ?f (range ?a (n - 14))] =>
      assert (Hst : map f (range a (n - 14)) = repeat 50 (n - 14 - 13))
  end.
  { rewrite (map_constant _ 50).
    - unfold range. now rewrite length_seq.
    - intros i Hi. unfold range in Hi. apply in_seq in Hi.
      unfold slice. rewrite skipn_repeat, firstn_repeat_le by lia.
      replace (i + 1 - (i + 1 - 14))%nat with 14%nat by lia.
      reflexivity. }
  rewrite Hst. unfold slice_last.
  rewrite repeat_length, skipn_repeat.
  replace (n - 14 - 13 - (n - 14 - 13 - 3))%nat with 3%nat by lia.
  reflexivity.
Qed.

(** Instance: thirty closes at 42.5. *)
Lemma stochastic_rsi_flat_witness :
  calculateStochasticRSI (repeat 42.5 30) 14 = 50.
Proof.
  apply (stochastic_rsi_flat 42.5 30); [reflexivity|lia].
Defined.

Lemma mapi_from {A B} (f : A -> nat -> B) (l : list A) (dA : A) (dB : B) :
  forall s i,
    (i < length l)%nat ->
    nth i (map (fun p => f (snd p) (fst p)) (combine (seq s (length l)) l))
        dB = f (nth i l dA) (s + i)%nat.
Proof.
  induction l as [|a l IH]; intros s i Hi; cbn in *; [lia|].
  destruct i as [|i].
  - now rewrite Nat.add_0_r.
  - rewrite IH by lia. f_equal. lia.
Qed.

Lemma get_mapi (f : number -> nat -> number) (l : list number) (i : nat) :
  (i < length l)%nat -> get (mapi f l) i = f (get l i) i.
Proof.
  intros Hi. unfold get, mapi. now rewrite (mapi_from f l nan nan 0 i Hi).
Qed.

Lemma length_mapi {A B} (f : A -> nat -> B) (l : list A) :
  length (mapi f l) = length l.
Proof.
  unfold mapi. rewrite length_map, length_combine, length_seq. lia.
Qed.

(** X23: when no candle visited by the loop has a typical price below the
    previous one, the negative flow stays 0 and the MFI is 100, whatever
    the volumes: a market that only rises, or does not move at all, reads
    as fully overbought. *)
Theorem mfi_without_decline :
  forall (highs lows closes volumes : list number),
    (14 <= length closes)%nat ->
    never_declines highs lows closes 14 = true ->
    calculateMFI highs lows closes volumes 14 = 100.
Proof.
  intros highs lows closes volumes Hlen Hup. unfold calculateMFI.
  destruct (Nat.ltb_spec (length closes) 14) as [|_]; [lia|].
  cbv zeta. rewrite length_mapi.
  set (tps := mapi (fun close i => (get highs i + get lows i + close) / 3)
                   closes).
  set (raw := mapi (fun tp i => tp * get volumes i) tps).
  assert (Htp : forall i, (i < length closes)%nat ->
                  get tps i = typical highs lows closes i).
  { intros i Hi. unfold tps. now rewrite get_mapi. }
  unfold never_declines in Hup. rewrite forallb_forall in Hup.
  assert (Hkeep : forall l p,
            (forall i, In i l ->
               In i (range 1 (Nat.min (14 + 1) (length closes)))) ->
            snd (fold_left
                   (fun (acc : number * number) i =>
                      let '(positiveFlow, negativeFlow) := acc in
                      if gt (get tps i) (get tps (i - 1))
                      then (positiveFlow + get raw i, negativeFlow)
                      else if lt (get tps i) (get tps (i - 1))
                           then (positiveFlow, negativeFlow + get raw i)
                           else (positiveFlow, negativeFlow))
                   l (p, 0)) = 0).
  { induction l as [|i l IH]; intros p Hl; [reflexivity|].
    cbn [fold_left].
    pose proof (Hl i (or_introl eq_refl)) as Hi.
    pose proof (Hup i Hi) as Hno. apply negb_true_iff in Hno.
    unfold range in Hi. apply in_seq in Hi.
    rewrite !Htp by lia. rewrite Hno.
    destruct (gt _ _); apply IH; intros j Hj; apply Hl; now right. }
  specialize (Hkeep (range 1 (Nat.min (14 + 1) (length closes))) 0
                    (fun i H => H)).
  destruct (fold_left _ _ _) as [positiveFlow negativeFlow].
  cbn [snd] in Hkeep. rewrite Hkeep. reflexivity.
Qed.

(** Instance: fourteen candles, each closing one above the last. *)
Lemma mfi_without_decline_witness :
  calculateMFI Samples.climb Samples.climb Samples.climb
    (repeat 10 14) 14 = 100.
Proof.
  apply mfi_without_decline; [cbn; lia|vm_compute; reflexivity].
Defined.

(** The loop of [calculateSMMAArray] keeps the running average as the last
    element of the array it extends. *)
Lemma smma_loop (g : number -> nat -> number) (l : list nat) :
  forall (s : number) (arr : list number),
    arr <> [] -> get arr (length arr - 1) = s ->
    let r := fold_left
               (fun (acc : number * list number) i =>
                  (g (fst acc) i, snd acc ++ [g (fst acc) i]))
               l (s, arr) in
    fst r = fold_left g l s /\
    length (snd r) = (length arr + length l)%nat /\
    get (snd r) (length (snd r) - 1) = fst r.
Proof.
  cbv zeta. induction l as [|i l IH]; intros s arr Hne Hlast.
  - cbn. repeat split; [lia|exact Hlast].
  - cbn [fold_left fst snd].
    destruct (IH (g s i) (arr ++ [g s i])) as (H1 & H2 & H3).
    + destruct arr; discriminate.
    + rewrite length_app. cbn [length].
      replace (length arr + 1 - 1)%nat with (length arr) by lia.
      unfold get. now rewrite nth_middle.
    + repeat split; [exact H1| |exact H3].
      rewrite H2, length_app. cbn [length]. lia.
Qed.

Lemma smma_series (prices : list number) (period : nat) :
  (period <= length prices)%nat ->
  let arr := calculateSMMAArray prices period in
  length arr = (length prices - period + 1)%nat /\
  Some (get arr (length arr - 1)) = calculateSMMA prices period.
Proof.
  intros Hlen. cbv zeta. unfold calculateSMMAArray, calculateSMMA.
  destruct (Nat.ltb_spec (length prices) period) as [|_]; [lia|].
  cbv zeta.
  set (s := sum (slice_to period prices) / of_nat period).
  destruct (smma_loop
              (fun smma i => (smma * (of_nat period - 1) + get prices i)
                             / of_nat period)
              (range period (length prices)) s [s])
    as (H1 & H2 & H3); [discriminate|reflexivity|].
  cbv zeta in H1, H2, H3. split.
  - etransitivity; [exact H2|].
    unfold range. rewrite length_seq. cbn [length]. lia.
  - f_equal. etransitivity; [exact H3|exact H1].
Qed.

(** X24: the OCC record is one of three: BUY with value 50, SELL with value
    -50, both flagged as a crossover, or NEUTRAL with value 0 and no
    crossover; its strength is the absolute value.  With at least
    [period + 2] opens and closes the two averages it reports are the
    smoothed moving averages of the opens and of the closes (the second
    length test of the function never fires); with fewer it is the neutral
    record without averages. *)
Theorem occ_consistent :
  forall (opens closes : list number) (period : nat),
    let o := calculateOCC opens closes period in
    occ_outcome o /\
    occ_strength o = abs (occ_value o) /\
    ((period + 2 <= length opens)%nat ->
     (period + 2 <= length closes)%nat ->
     occ_openMA o = calculateSMMA opens period /\
     occ_closeMA o = calculateSMMA closes period) /\
    ((length opens < period + 2)%nat \/ (length closes < period + 2)%nat ->
     o = occ_neutral).
Proof.
  intros opens closes period. cbv zeta. unfold calculateOCC.
  destruct (Nat.ltb_spec (length opens) (period + 2)) as [Ho|Ho];
    cbn [orb].
  { repeat split; try reflexivity; try lia.
    right; right; repeat split. }
  destruct (Nat.ltb_spec (length closes) (period + 2)) as [Hc|Hc].
  { repeat split; try reflexivity; try lia.
    right; right; repeat split. }
  destruct (smma_series opens period) as [Lo Eo]; [lia|].
  destruct (smma_series closes period) as [Lc Ec]; [lia|].
  cbv zeta in Lo, Eo, Lc, Ec.
  destruct (Nat.ltb_spec (length (calculateSMMAArray opens period)) 2);
    [lia|].
  destruct (Nat.ltb_spec (length (calculateSMMAArray closes period)) 2);
    [lia|].
  cbn [orb]. cbv zeta.
  destruct (le _ _ && gt _ _); [|destruct (ge _ _ && lt _ _)];
    cbn [occ_signal occ_value occ_crossover occ_strength occ_openMA
         occ_closeMA]; unfold occ_outcome;
    cbn [occ_signal occ_value occ_crossover];
    (repeat apply conj;
     [ auto 10 | reflexivity | intros _ _; split; assumption
     | intros [?|?]; lia ]).
Qed.

End Oscillators.

(* ================================================================== *)
(** ** Snapshots of the monitor *)
(* ================================================================== *)

Section Snapshots.
Import JS Host Vocabulary.

(** X25: getSnapshot reads the clock once and changes nothing else: the
    window, the ledger and the console stay as they were.  Its window size
    is the number of stored entries, equals the total of its metrics, its
    two error counters agree, and its recent decisions are the newest ten
    entries.  After reset the window is empty and a snapshot counts 0
    entries and 0 errors. *)
Theorem snapshot_consistent :
  forall w : World,
    let s := fst (SystemState.getSnapshot w) in
    let w' := snd (SystemState.getSnapshot w) in
    let cleared := snd (SystemState.reset w) in
    decisionWindow w' = decisionWindow w /\
    decisionHistory w' = decisionHistory w /\
    console w' = console w /\
    clockReads w' = S (clockReads w) /\
    SystemState.snap_timestamp s = clock w (clockReads w) /\
    SystemState.snap_windowSize s = length (decisionWindow w) /\
    SystemState.m_totalDecisions (SystemState.snap_metrics s)
      = SystemState.snap_windowSize s /\
    SystemState.m_maxConsecutiveErrors (SystemState.snap_metrics s)
      = SystemState.m_consecutiveErrors (SystemState.snap_metrics s) /\
    SystemState.snap_recentDecisions s = last_n 10 (decisionWindow w) /\
    fst (SystemState.getWindow cleared) = [] /\
    decisionHistory cleared = decisionHistory w /\
    SystemState.snap_windowSize (fst (SystemState.getSnapshot cleared))
      = 0%nat /\
    SystemState.m_consecutiveErrors
      (SystemState.snap_metrics (fst (SystemState.getSnapshot cleared)))
      = 0%nat.
Proof.
  intros w s w' cleared. subst s w' cleared.
  repeat apply conj; try reflexivity.
  unfold SystemState.getSnapshot, SystemState.updateMetrics, bind,
    get_decisionWindow, ret, Date_now.
  cbn [fst snd SystemState.snap_metrics SystemState.m_maxConsecutiveErrors
       SystemState.m_consecutiveErrors].
  unfold SystemState.calculateConsecutiveErrors.
  now apply consecutive_errors_max.
Qed.

End Snapshots.
